(** * EmAndF1Evaluator: a shallow embedding of [src/compute_em_and_f1.py]

    The evaluator keeps running sums of exact-match, F1, precision and recall
    scores, a top-level count, and five two-level dictionaries keyed by answer
    type and by answering head.  The development follows the Python source
    method by method:

    - Python exceptions are an error type [exn]; a method of the evaluator is
      a function from the object's state to the state it leaves behind and
      either a value or the exception raised ([M]);
    - Python [float]s are kept behind an interface ([Float]) with two
      instances: IEEE 754 binary64 ([b64], what CPython runs) and exact
      rational arithmetic ([exact]);
    - Python [int]s are [Z];
    - [dict] and [defaultdict] are association lists in insertion order, the
      order in which Python iterates over them;
    - [str] is a list of Unicode code points. *)

From Stdlib Require Import String Ascii ZArith List Bool Lia SpecFloat.
From Stdlib Require Import QArith Qcanon Permutation.
Import ListNotations.
Open Scope Z_scope.

(** ** Exceptions *)

Inductive exn : Type :=
| TypeError
| ValueError
| IndexError
| ZeroDivisionError
| OverflowError
| ExternalError (tag : string).   (* raised by the scorer or the normaliser *)

Inductive result (A : Type) : Type :=
| Ok (a : A)
| Raise (e : exn).
Arguments Ok {A} a.
Arguments Raise {A} e.

Definition rbind {A B} (r : result A) (k : A -> result B) : result B :=
  match r with
  | Ok a => k a
  | Raise e => Raise e
  end.

Declare Scope result_scope.
Delimit Scope result_scope with result.
Notation "'try' x <- r ; k" := (rbind r (fun x => k))
  (at level 10, x pattern, r at level 100, k at level 200) : result_scope.

(** [[f(x) for x in xs]]: left to right, the first exception ends it. *)
Fixpoint map_result {A B} (f : A -> result B) (xs : list A) : result (list B) :=
  match xs with
  | [] => Ok []
  | x :: rest =>
      (try y <- f x;
       try ys <- map_result f rest;
       Ok (y :: ys))%result
  end.

(** ** Strings *)

(** A Python [str]: its code points. *)
Definition pystr : Type := list N.

Definition str (s : string) : pystr := map N_of_ascii (list_ascii_of_string s).

Definition pystr_eqb (a b : pystr) : bool :=
  if list_eq_dec N.eq_dec a b then true else false.

(** [str.isspace] on one code point (CPython's [_PyUnicode_IsWhitespace]). *)
Definition is_space (c : N) : bool :=
  ((9 <=? c) && (c <=? 13) || (28 <=? c) && (c <=? 32)
   || (c =? 133) || (c =? 160) || (c =? 5760)
   || (8192 <=? c) && (c <=? 8202)
   || (c =? 8232) || (c =? 8233) || (c =? 8239) || (c =? 8287) || (c =? 12288))%N.

Fixpoint lstrip (s : pystr) : pystr :=
  match s with
  | [] => []
  | c :: rest => if is_space c then lstrip rest else s
  end.

Definition rstrip (s : pystr) : pystr := rev (lstrip (rev s)).

(** [s.strip()] *)
Definition strip (s : pystr) : pystr := rstrip (lstrip s).

(** ** Sequences *)

(** [enumerate(xs)] *)
Fixpoint enumerate_from {A} (i : Z) (xs : list A) : list (Z * A) :=
  match xs with
  | [] => []
  | x :: rest => (i, x) :: enumerate_from (i + 1) rest
  end.

Definition enumerate {A} (xs : list A) : list (Z * A) := enumerate_from 0 xs.

(** [xs[i]] on a list or tuple: a negative index counts from the end, an index
    out of range raises. *)
Definition py_index {A} (xs : list A) (i : Z) : result A :=
  let n := Z.of_nat (length xs) in
  let j := if i <? 0 then i + n else i in
  if (j <? 0) || (n <=? j) then Raise IndexError
  else match nth_error xs (Z.to_nat j) with
       | Some x => Ok x
       | None => Raise IndexError
       end.

(** ** Dictionaries *)

Section Dict.
Context {V : Type}.

Definition dict : Type := list (pystr * V).

Fixpoint lookup (k : pystr) (d : dict) : option V :=
  match d with
  | [] => None
  | (k', v) :: rest => if pystr_eqb k k' then Some v else lookup k rest
  end.

(** [d[k] = v]: an existing key keeps its place, a new one goes last. *)
Fixpoint setitem (k : pystr) (v : V) (d : dict) : dict :=
  match d with
  | [] => [(k, v)]
  | (k', v') :: rest =>
      if pystr_eqb k k' then (k', v) :: rest else (k', v') :: setitem k v rest
  end.

(** [d[k]] on a [defaultdict] whose factory returns [dflt]: a missing key is
    inserted with the default before it is returned. *)
Definition getitem_default (dflt : V) (k : pystr) (d : dict) : V * dict :=
  match lookup k d with
  | Some v => (v, d)
  | None => (dflt, setitem k dflt d)
  end.

Definition keys (d : dict) : list pystr := map fst d.
End Dict.
Arguments dict V : clear implicits.

(** [d[k] += x] on a [defaultdict]: read (inserting the default), add, store. *)
Definition add_item {V} (plus : V -> V -> V) (dflt : V)
    (k : pystr) (x : V) (d : dict V) : dict V :=
  let '(v, d1) := getitem_default dflt k d in
  setitem k (plus v x) d1.

(** [d[t][h]] on a [defaultdict] of [defaultdict]s. *)
Definition getitem2 {V} (dflt : V) (t h : pystr) (d : dict (dict V))
  : V * dict (dict V) :=
  let '(inner, d1) := getitem_default [] t d in
  let '(v, inner1) := getitem_default dflt h inner in
  (v, setitem t inner1 d1).

(** [d[t][h] += x] on a [defaultdict] of [defaultdict]s. *)
Definition add_item2 {V} (plus : V -> V -> V) (dflt : V)
    (t h : pystr) (x : V) (d : dict (dict V)) : dict (dict V) :=
  let '(inner, d1) := getitem_default [] t d in
  setitem t (add_item plus dflt h x inner) d1.

(** What [d[t][h]] holds, without touching [d]. *)
Definition lookup2 {V} (t h : pystr) (d : dict (dict V)) : option V :=
  match lookup t d with
  | Some inner => lookup h inner
  | None => None
  end.

(** ** Floats *)

(** The float operations the evaluator uses. *)
Class Float : Type := {
  float : Type;
  fzero : float;                        (* [0.0] *)
  fadd : float -> float -> float;       (* [x + y] *)
  fdiv : float -> float -> float;       (* [x / y] for [y != 0] *)
  fltb : float -> float -> bool;        (* [x < y] *)
  fleb : float -> float -> bool;        (* [x <= y] *)
  feqb : float -> float -> bool;        (* [x == y] *)
  of_int : Z -> option float            (* [float(n)]; [None]: OverflowError *)
}.

(** IEEE 754 binary64, CPython's [float].  [float(n)] rounds to nearest even
    and raises [OverflowError] when the result is not finite. *)
Definition b64_of_int (n : Z) : option spec_float :=
  match binary_normalize 53 1024 n 0 false with
  | S754_infinity _ => None
  | x => Some x
  end.

Definition b64 : Float := {|
  float := spec_float;
  fzero := S754_zero false;
  fadd := SFadd 53 1024;
  fdiv := SFdiv 53 1024;
  fltb := SFltb;
  fleb := SFleb;
  feqb := SFeqb;
  of_int := b64_of_int
|}.

(** Exact arithmetic on the rationals: what the float operations round. *)
Definition exact : Float := {|
  float := Qc;
  fzero := 0%Qc;
  fadd := Qcplus;
  fdiv := Qcdiv;
  fltb := fun x y => if Qclt_le_dec x y then true else false;
  fleb := fun x y => if Qclt_le_dec y x then false else true;
  feqb := fun x y => if Qc_eq_dec x y then true else false;
  of_int := fun n => Some (Q2Qc (inject_Z n))
|}.

(** [max(a, b)]: the second argument replaces the first when it is greater. *)
Definition py_max `{Float} (a b : float) : float := if fltb a b then b else a.

(** [x / n] with [x] a float and [n] an int: [n] is converted first, a zero
    divisor raises ([float(n)] is [0.0] for [n = 0] only). *)
Definition truediv `{Float} (x : float) (n : Z) : result float :=
  match of_int n with
  | None => Raise OverflowError
  | Some y => if n =? 0 then Raise ZeroDivisionError else Ok (fdiv x y)
  end.

(** ** [metric_max_over_ground_truths] *)

Section MetricMax.
Context `{Float}.
Context {prediction : Type}.

Definition scores : Type := (float * float * float * float)%type.

(** The loop variables. *)
Record maxima : Type := {
  max_em_score : float;
  max_f1_score : float;
  max_p_score : float;
  max_r_score : float;
  maximizing_index : Z
}.

Definition maxima_init : maxima :=
  {| max_em_score := fzero; max_f1_score := fzero;
     max_p_score := fzero; max_r_score := fzero;
     maximizing_index := -1 |}.

(** [len(ground_truth) == 0 or
     (len(ground_truth) > 0 and ground_truth[0].strip() != "")] *)
Definition compared (ground_truth : list pystr) : bool :=
  (Z.of_nat (length ground_truth) =? 0)
  || ((0 <? Z.of_nat (length ground_truth))
      && match ground_truth with
         | first :: _ => negb (pystr_eqb (strip first) [])
         | [] => false
         end).

(** One iteration of the loop over [enumerate(ground_truths)]. *)
Definition max_step (metric_fn : prediction -> list pystr -> result scores)
    (pred : prediction) (acc : maxima) (item : Z * list pystr)
  : result maxima :=
  let '(i, ground_truth) := item in
  (try (em_score, f1_score, p_score, r_score) <- metric_fn pred ground_truth;
   if compared ground_truth then
     let em := py_max (max_em_score acc) em_score in
     let f1 := py_max (max_f1_score acc) f1_score in
     let p := py_max (max_p_score acc) p_score in
     let r := py_max (max_r_score acc) r_score in
     Ok {| max_em_score := em; max_f1_score := f1;
           max_p_score := p; max_r_score := r;
           maximizing_index :=
             if feqb em em_score && feqb f1 f1_score
                && feqb p p_score && feqb r r_score
             then i else maximizing_index acc |}
   else Ok acc)%result.

Fixpoint max_loop (metric_fn : prediction -> list pystr -> result scores)
    (pred : prediction) (items : list (Z * list pystr)) (acc : maxima)
  : result maxima :=
  match items with
  | [] => Ok acc
  | item :: rest =>
      (try acc' <- max_step metric_fn pred acc item;
       max_loop metric_fn pred rest acc')%result
  end.

Definition metric_max_over_ground_truths
    (metric_fn : prediction -> list pystr -> result scores)
    (pred : prediction) (ground_truths : list (list pystr))
  : result (scores * Z) :=
  (try acc <- max_loop metric_fn pred (enumerate ground_truths) maxima_init;
   Ok ((max_em_score acc, max_f1_score acc, max_p_score acc, max_r_score acc),
       maximizing_index acc))%result.
End MetricMax.

(** ** The evaluator *)

(** A number in a returned tuple: the source mixes [int] and [float]. *)
Inductive pyval `{Float} : Type :=
| VInt (n : Z)
| VFloat (x : float).

Section State.
Context `{Float}.

Record evaluator : Type := {
  _total_em : float;
  _total_f1 : float;
  _total_p : float;
  _total_r : float;
  _count : Z;
  _answer_type_head_em : dict (dict float);
  _answer_type_head_f1 : dict (dict float);
  _answer_type_head_p : dict (dict float);
  _answer_type_head_r : dict (dict float);
  _answer_type_head_count : dict (dict Z)
}.

(** [__init__] *)
Definition init : evaluator := {|
  _total_em := fzero; _total_f1 := fzero; _total_p := fzero;
  _total_r := fzero; _count := 0;
  _answer_type_head_em := []; _answer_type_head_f1 := [];
  _answer_type_head_p := []; _answer_type_head_r := [];
  _answer_type_head_count := []
|}.

(** A method: from the object's state to the state left behind and the
    value returned or the exception raised. *)
Definition M (A : Type) : Type := evaluator -> evaluator * result A.

Definition ret {A} (a : A) : M A := fun self => (self, Ok a).

Definition bind {A B} (m : M A) (k : A -> M B) : M B :=
  fun self =>
    match m self with
    | (self', Ok a) => k a self'
    | (self', Raise e) => (self', Raise e)
    end.

Definition lift {A} (r : result A) : M A := fun self => (self, r).

Definition gets {A} (f : evaluator -> A) : M A := fun self => (self, Ok (f self)).

Definition modify (f : evaluator -> evaluator) : M unit :=
  fun self => (f self, Ok tt).
End State.

Declare Scope method_scope.
Delimit Scope method_scope with method.
Notation "x <- m ;; k" := (bind m (fun x => k))
  (at level 61, m at next level, right associativity) : method_scope.
Notation "' p <- m ;; k" := (bind m (fun x => match x with p => k end))
  (at level 61, p pattern, m at next level, right associativity) : method_scope.
Notation "m ;; k" := (bind m (fun _ => k))
  (at level 61, right associativity) : method_scope.

Section Methods.
Context `{Float}.
Local Open Scope method_scope.

(** The ground-truth annotations and the predictions are opaque here; the
    normaliser and the scorer are imported from [src.evaluate], which is
    not part of this file. *)
Context {annotation prediction : Type}.
Variable answer_json_to_strings : annotation -> result (list pystr * pystr).
Variable compute_em_and_f1 : prediction -> list pystr -> result scores.

(** *** Field updates *)

Definition set_totals (em f1 p r : float) (n : Z) (self : evaluator) : evaluator :=
  {| _total_em := em; _total_f1 := f1; _total_p := p; _total_r := r;
     _count := n;
     _answer_type_head_em := _answer_type_head_em self;
     _answer_type_head_f1 := _answer_type_head_f1 self;
     _answer_type_head_p := _answer_type_head_p self;
     _answer_type_head_r := _answer_type_head_r self;
     _answer_type_head_count := _answer_type_head_count self |}.

Definition set_total_em (x : float) (self : evaluator) : evaluator :=
  set_totals x (_total_f1 self) (_total_p self) (_total_r self) (_count self) self.
Definition set_total_f1 (x : float) (self : evaluator) : evaluator :=
  set_totals (_total_em self) x (_total_p self) (_total_r self) (_count self) self.
Definition set_total_p (x : float) (self : evaluator) : evaluator :=
  set_totals (_total_em self) (_total_f1 self) x (_total_r self) (_count self) self.
Definition set_total_r (x : float) (self : evaluator) : evaluator :=
  set_totals (_total_em self) (_total_f1 self) (_total_p self) x (_count self) self.
Definition set_count (n : Z) (self : evaluator) : evaluator :=
  set_totals (_total_em self) (_total_f1 self) (_total_p self) (_total_r self) n self.

Definition set_maps (em f1 p r : dict (dict float)) (c : dict (dict Z))
    (self : evaluator) : evaluator :=
  {| _total_em := _total_em self; _total_f1 := _total_f1 self;
     _total_p := _total_p self; _total_r := _total_r self;
     _count := _count self;
     _answer_type_head_em := em; _answer_type_head_f1 := f1;
     _answer_type_head_p := p; _answer_type_head_r := r;
     _answer_type_head_count := c |}.

Definition set_head_em (d : dict (dict float)) (self : evaluator) : evaluator :=
  set_maps d (_answer_type_head_f1 self) (_answer_type_head_p self)
    (_answer_type_head_r self) (_answer_type_head_count self) self.
Definition set_head_f1 (d : dict (dict float)) (self : evaluator) : evaluator :=
  set_maps (_answer_type_head_em self) d (_answer_type_head_p self)
    (_answer_type_head_r self) (_answer_type_head_count self) self.
Definition set_head_p (d : dict (dict float)) (self : evaluator) : evaluator :=
  set_maps (_answer_type_head_em self) (_answer_type_head_f1 self) d
    (_answer_type_head_r self) (_answer_type_head_count self) self.
Definition set_head_r (d : dict (dict float)) (self : evaluator) : evaluator :=
  set_maps (_answer_type_head_em self) (_answer_type_head_f1 self)
    (_answer_type_head_p self) d (_answer_type_head_count self) self.
Definition set_head_count (d : dict (dict Z)) (self : evaluator) : evaluator :=
  set_maps (_answer_type_head_em self) (_answer_type_head_f1 self)
    (_answer_type_head_p self) (_answer_type_head_r self) d self.

(** *** [call] *)

(** [a, b = list(zip(...))] with the pairs spread as the arguments of
    [zip]: two tuples when there is at least one pair; with no pair the
    list is empty and the unpacking raises. *)
Definition unzip_pairs {A B} (pairs : list (A * B)) : result (list A * list B) :=
  match pairs with
  | [] => Raise ValueError
  | _ => Ok (map fst pairs, map snd pairs)
  end.

Definition call (pred : prediction) (ground_truths : list annotation)
    (predicted_ability : pystr) : M (scores * annotation) :=
  pairs <- lift (map_result answer_json_to_strings ground_truths) ;;
  ' (ground_truth_answer_strings, ground_truth_answer_types) <-
    lift (unzip_pairs pairs) ;;
  ' ((exact_match, f1_score, p_score, r_score), maximizing_ground_truth_index) <-
    lift (metric_max_over_ground_truths compute_em_and_f1 pred
            ground_truth_answer_strings) ;;
  modify (fun self => set_total_em (fadd (_total_em self) exact_match) self) ;;
  modify (fun self => set_total_f1 (fadd (_total_f1 self) f1_score) self) ;;
  modify (fun self => set_total_p (fadd (_total_p self) p_score) self) ;;
  modify (fun self => set_total_r (fadd (_total_r self) r_score) self) ;;
  modify (fun self => set_count (_count self + 1) self) ;;
  answer_type <-
    lift (py_index ground_truth_answer_types maximizing_ground_truth_index) ;;
  modify (fun self => set_head_em
    (add_item2 fadd fzero answer_type predicted_ability exact_match
       (_answer_type_head_em self)) self) ;;
  modify (fun self => set_head_f1
    (add_item2 fadd fzero answer_type predicted_ability f1_score
       (_answer_type_head_f1 self)) self) ;;
  modify (fun self => set_head_p
    (add_item2 fadd fzero answer_type predicted_ability p_score
       (_answer_type_head_p self)) self) ;;
  modify (fun self => set_head_r
    (add_item2 fadd fzero answer_type predicted_ability r_score
       (_answer_type_head_r self)) self) ;;
  modify (fun self => set_head_count
    (add_item2 Z.add 0 answer_type predicted_ability 1
       (_answer_type_head_count self)) self) ;;
  selected <- lift (py_index ground_truths maximizing_ground_truth_index) ;;
  ret ((exact_match, f1_score, p_score, r_score), selected).

(** [__call__] passes two arguments to [call], which has three required
    parameters: binding the arguments fails before the body runs. *)
Definition call_bound (pred : prediction) (ground_truths : list annotation)
    (predicted_ability : option pystr) : M (scores * annotation) :=
  match predicted_ability with
  | Some ability => call pred ground_truths ability
  | None => lift (Raise TypeError)
  end.

Definition __call__ (pred : prediction) (ground_truths : list annotation)
  : M unit :=
  call_bound pred ground_truths None ;; ret tt.

(** *** [reset] *)

Definition reset : M unit := modify (fun _ => init).

(** *** [get_metric] *)

(** A returned tuple. *)
Definition tuple : Type := list pyval.

(** [for x in xs: acc = body(acc, x)] *)
Fixpoint for_each {A B} (body : B -> A -> M B) (xs : list A) (acc : B) : M B :=
  match xs with
  | [] => ret acc
  | x :: rest => acc' <- body acc x ;; for_each body rest acc'
  end.

(** The dictionaries local to [get_metric]. *)
Record locals : Type := {
  scores_per_answer_type_and_head : dict (dict tuple);
  scores_per_answer_type : dict tuple;
  scores_per_head : dict tuple;
  em_per_head : dict float;
  f1_per_head : dict float;
  p_per_head : dict float;
  r_per_head : dict float;
  count_per_head : dict Z
}.

Definition locals_init : locals := {|
  scores_per_answer_type_and_head := []; scores_per_answer_type := [];
  scores_per_head := [];
  em_per_head := []; f1_per_head := []; p_per_head := []; r_per_head := [];
  count_per_head := []
|}.

(** The sums of one pass of the outer loop. *)
Record type_sums : Type := {
  type_count : Z;
  type_em : float;
  type_f1 : float;
  type_p : float;
  type_r : float
}.

(** [self._answer_type_head_em[answer_type][head]] and its three siblings:
    reads of a [defaultdict], which insert what they do not find. *)
Definition head_em (answer_type head : pystr) : M float :=
  fun self =>
    let '(v, d) := getitem2 fzero answer_type head (_answer_type_head_em self) in
    (set_head_em d self, Ok v).
Definition head_f1 (answer_type head : pystr) : M float :=
  fun self =>
    let '(v, d) := getitem2 fzero answer_type head (_answer_type_head_f1 self) in
    (set_head_f1 d self, Ok v).
Definition head_p (answer_type head : pystr) : M float :=
  fun self =>
    let '(v, d) := getitem2 fzero answer_type head (_answer_type_head_p self) in
    (set_head_p d self, Ok v).
Definition head_r (answer_type head : pystr) : M float :=
  fun self =>
    let '(v, d) := getitem2 fzero answer_type head (_answer_type_head_r self) in
    (set_head_r d self, Ok v).

(** [d[t][h] = v] where [d] is a [defaultdict] of plain [dict]s. *)
Definition setitem2 {V} (t h : pystr) (v : V) (d : dict (dict V)) : dict (dict V) :=
  let '(inner, d1) := getitem_default [] t d in
  setitem t (setitem h v inner) d1.

(** The body of [for head, count in head_count.items()]. *)
Definition head_body (answer_type : pystr) (acc : type_sums * locals)
    (item : pystr * Z) : M (type_sums * locals) :=
  let '(ty, loc) := acc in
  let '(head, count) := item in
  let type_count' := type_count ty + count in
  em1 <- head_em answer_type head ;;
  let type_em' := fadd (type_em ty) em1 in
  f11 <- head_f1 answer_type head ;;
  let type_f1' := fadd (type_f1 ty) f11 in
  p1 <- head_p answer_type head ;;
  let type_p' := fadd (type_p ty) p1 in
  r1 <- head_r answer_type head ;;
  let type_r' := fadd (type_r ty) r1 in
  em2 <- head_em answer_type head ;;
  let em_per_head' := add_item fadd fzero head em2 (em_per_head loc) in
  f12 <- head_f1 answer_type head ;;
  let f1_per_head' := add_item fadd fzero head f12 (f1_per_head loc) in
  p2 <- head_p answer_type head ;;
  let p_per_head' := add_item fadd fzero head p2 (p_per_head loc) in
  r2 <- head_r answer_type head ;;
  let r_per_head' := add_item fadd fzero head r2 (r_per_head loc) in
  let count_per_head' := add_item Z.add 0 head count (count_per_head loc) in
  em3 <- head_em answer_type head ;;
  type_head_exact_match <- lift (truediv em3 count) ;;
  f13 <- head_f1 answer_type head ;;
  type_head_f1_score <- lift (truediv f13 count) ;;
  p3 <- head_p answer_type head ;;
  type_head_p_score <- lift (truediv p3 count) ;;
  r3 <- head_r answer_type head ;;
  type_head_r_score <- lift (truediv r3 count) ;;
  ret ({| type_count := type_count'; type_em := type_em';
          type_f1 := type_f1'; type_p := type_p'; type_r := type_r' |},
       {| scores_per_answer_type_and_head :=
            setitem2 answer_type head
              [VFloat type_head_exact_match; VFloat type_head_f1_score;
               VFloat type_head_p_score; VFloat type_head_r_score; VInt count]
              (scores_per_answer_type_and_head loc);
          scores_per_answer_type := scores_per_answer_type loc;
          scores_per_head := scores_per_head loc;
          em_per_head := em_per_head'; f1_per_head := f1_per_head';
          p_per_head := p_per_head'; r_per_head := r_per_head';
          count_per_head := count_per_head' |}).

(** The body of
    [for answer_type, head_count in self._answer_type_head_count.items()]. *)
Definition type_body (loc : locals) (item : pystr * dict Z) : M locals :=
  let '(answer_type, head_count) := item in
  ' (ty, loc1) <-
    for_each (head_body answer_type) head_count
      ({| type_count := 0; type_em := fzero; type_f1 := fzero;
          type_p := fzero; type_r := fzero |}, loc) ;;
  em <- lift (truediv (type_em ty) (type_count ty)) ;;
  f1 <- lift (truediv (type_f1 ty) (type_count ty)) ;;
  p <- lift (truediv (type_p ty) (type_count ty)) ;;
  r <- lift (truediv (type_r ty) (type_count ty)) ;;
  ret {| scores_per_answer_type_and_head := scores_per_answer_type_and_head loc1;
         scores_per_answer_type :=
           setitem answer_type
             [VFloat em; VFloat f1; VFloat p; VFloat r; VInt (type_count ty)]
             (scores_per_answer_type loc1);
         scores_per_head := scores_per_head loc1;
         em_per_head := em_per_head loc1; f1_per_head := f1_per_head loc1;
         p_per_head := p_per_head loc1; r_per_head := r_per_head loc1;
         count_per_head := count_per_head loc1 |}.

(** The body of [for head, count in count_per_head.items()]; the four
    [..._per_head] dictionaries are [defaultdict]s too. *)
Definition per_head_body (loc : locals) (item : pystr * Z) : M locals :=
  let '(head, count) := item in
  let '(em_h, em_d) := getitem_default fzero head (em_per_head loc) in
  em <- lift (truediv em_h count) ;;
  let '(f1_h, f1_d) := getitem_default fzero head (f1_per_head loc) in
  f1 <- lift (truediv f1_h count) ;;
  let '(p_h, p_d) := getitem_default fzero head (p_per_head loc) in
  p <- lift (truediv p_h count) ;;
  let '(r_h, r_d) := getitem_default fzero head (r_per_head loc) in
  r <- lift (truediv r_h count) ;;
  ret {| scores_per_answer_type_and_head := scores_per_answer_type_and_head loc;
         scores_per_answer_type := scores_per_answer_type loc;
         scores_per_head :=
           setitem head [VFloat em; VFloat f1; VFloat p; VFloat r; VInt count]
             (scores_per_head loc);
         em_per_head := em_d; f1_per_head := f1_d;
         p_per_head := p_d; r_per_head := r_d;
         count_per_head := count_per_head loc |}.

(** [total / self._count if self._count > 0 else 0] *)
Definition average (total : float) (count : Z) : result pyval :=
  if 0 <? count then (try x <- truediv total count; Ok (VFloat x))%result
  else Ok (VInt 0).

(** What [get_metric] returns: the overall tuple and the three breakdowns. *)
Definition metrics : Type :=
  (tuple * dict (dict tuple) * dict tuple * dict tuple)%type.

Definition get_metric (reset_flag : bool) : M metrics :=
  exact_match <- (fun self => lift (average (_total_em self) (_count self)) self) ;;
  f1_score <- (fun self => lift (average (_total_f1 self) (_count self)) self) ;;
  p_score <- (fun self => lift (average (_total_p self) (_count self)) self) ;;
  r_score <- (fun self => lift (average (_total_r self) (_count self)) self) ;;
  items <- gets _answer_type_head_count ;;
  loc <- for_each type_body items locals_init ;;
  loc' <- for_each per_head_body (count_per_head loc) loc ;;
  (if reset_flag then reset else ret tt) ;;
  ret ([exact_match; f1_score; p_score; r_score],
       scores_per_answer_type_and_head loc',
       scores_per_answer_type loc',
       scores_per_head loc').
End Methods.

(** ** The selection rule, stated on the scored ground truths *)

Section Selection.
Context `{Float}.

Definition zeros : scores := (fzero, fzero, fzero, fzero).

(** The maxima [m] after a comparison with the score [s]. *)
Definition raise (m s : scores) : scores :=
  let '(m_em, m_f1, m_p, m_r) := m in
  let '(em, f1, p, r) := s in
  (py_max m_em em, py_max m_f1 f1, py_max m_p p, py_max m_r r).

(** The score [s] equals the maxima [m] in all four components. *)
Definition matches (m s : scores) : bool :=
  let '(m_em, m_f1, m_p, m_r) := m in
  let '(em, f1, p, r) := s in
  feqb m_em em && feqb m_f1 f1 && feqb m_p p && feqb m_r r.

(** The running maxima after the scored ground truths [items]: only the
    ground truths that pass the guard of the loop are compared. *)
Definition running_maxima (items : list (list pystr * scores)) : scores :=
  fold_left (fun m item => if compared (fst item) then raise m (snd item) else m)
    items zeros.

(** Ground truth [k] is compared and its score equals the running maxima
    right after it, in all four components. *)
Definition records (items : list (list pystr * scores)) (k : nat) : bool :=
  match nth_error items k with
  | Some (ground_truth, s) =>
      compared ground_truth && matches (running_maxima (firstn (S k) items)) s
  | None => false
  end.

(** The last index below [n] that satisfies [p]; [-1] when there is none. *)
Fixpoint last_index (p : nat -> bool) (n : nat) : Z :=
  match n with
  | O => -1
  | S k => if p k then Z.of_nat k else last_index p k
  end.

(** One comparison, on an index and its score. *)
Definition select_step (acc : scores * Z) (item : Z * scores) : scores * Z :=
  let m := raise (fst acc) (snd item) in
  (m, if matches m (snd item) then fst item else snd acc).

Definition select_best (items : list (Z * scores)) : scores * Z :=
  fold_left select_step items (zeros, -1).

(** The indexed scores of the ground truths that pass the guard. *)
Definition compared_scores_from (i : Z) (ground_truths : list (list pystr))
    (scs : list scores) : list (Z * scores) :=
  map snd (filter (fun x => compared (fst x))
             (combine ground_truths (enumerate_from i scs))).

Definition compared_scores (ground_truths : list (list pystr)) (scs : list scores)
  : list (Z * scores) :=
  compared_scores_from 0 ground_truths scs.

(** The rule without the guard, where every ground truth is compared. *)
Definition every_ground_truth_max {prediction : Type}
    (metric_fn : prediction -> list pystr -> result scores)
    (pred : prediction) (ground_truths : list (list pystr))
  : result (scores * Z) :=
  (try scs <- map_result (metric_fn pred) ground_truths;
   Ok (select_best (enumerate scs)))%result.

(** A string that [strip] empties. *)
Definition blank (s : pystr) : bool := pystr_eqb (strip s) [].

(** The loop variables as the pair that is returned. *)
Definition of_maxima (acc : maxima) : scores * Z :=
  ((max_em_score acc, max_f1_score acc, max_p_score acc, max_r_score acc),
   maximizing_index acc).

(** A score with no negative component (and none that is not a number). *)
Definition nonneg (s : scores) : bool :=
  let '(em, f1, p, r) := s in
  fleb fzero em && fleb fzero f1 && fleb fzero p && fleb fzero r.
End Selection.

(** What the comparisons of a float type must satisfy for the results on
    scores in range: both hold for binary64 and for the rationals. *)
Class FloatOrder `{Float} : Prop := {
  fleb_not_fltb : forall a b, fleb a b = true -> fltb a b = false -> feqb a b = true;
  fltb_feqb_refl : forall a b, fltb a b = true -> feqb b b = true
}.

(** ** Test doubles on binary64 *)

Module Fixture.
Local Existing Instance b64.

Definition one : float := SFone 53 1024.
Definition half : float := SFdiv 53 1024 one (SFadd 53 1024 one one).
Definition three_quarters : float :=
  SFadd 53 1024 half (SFdiv 53 1024 half (SFadd 53 1024 one one)).
Definition ones : scores := (one, one, one, one).

(** An annotation that is already normalised. *)
Definition annotation : Type := (list pystr * pystr)%type.
Definition normalised (a : annotation) : result (list pystr * pystr) := Ok a.

(** A scorer that gives every ground truth the same score. *)
Definition constant (s : scores) (_ : unit) (_ : list pystr) : result scores := Ok s.

(** A scorer that returns the score the prediction carries. *)
Definition carried (pred : scores) (_ : list pystr) : result scores := Ok pred.

(** A scorer that looks the ground truth up in a table of scores. *)
Definition tabled (table : list (list pystr * scores)) (_ : unit)
    (ground_truth : list pystr) : result scores :=
  match find (fun row =>
                if list_eq_dec (list_eq_dec N.eq_dec) (fst row) ground_truth
                then true else false) table with
  | Some row => Ok (snd row)
  | None => Raise (ExternalError "scorer")
  end.

(** A scorer that fails. *)
Definition failing (_ : unit) (_ : list pystr) : result scores :=
  Raise (ExternalError "scorer").

(** The ground truths [["5"], [""]] of the tie-break scenario. *)
Definition five_then_empty : list (list pystr) := [[str "5"]; [str ""]].
End Fixture.

(** ** What a call leaves behind *)

Section Credit.
Context `{Float}.

(** The evaluator after one example of score [s] is added to the top-level
    sums and to the cell [(answer_type, head)] of the five dictionaries. *)
Definition credit (s : scores) (answer_type head : pystr) (self : evaluator)
  : evaluator :=
  let '(em, f1, p, r) := s in
  {| _total_em := fadd (_total_em self) em;
     _total_f1 := fadd (_total_f1 self) f1;
     _total_p := fadd (_total_p self) p;
     _total_r := fadd (_total_r self) r;
     _count := _count self + 1;
     _answer_type_head_em :=
       add_item2 fadd fzero answer_type head em (_answer_type_head_em self);
     _answer_type_head_f1 :=
       add_item2 fadd fzero answer_type head f1 (_answer_type_head_f1 self);
     _answer_type_head_p :=
       add_item2 fadd fzero answer_type head p (_answer_type_head_p self);
     _answer_type_head_r :=
       add_item2 fadd fzero answer_type head r (_answer_type_head_r self);
     _answer_type_head_count :=
       add_item2 Z.add 0 answer_type head 1 (_answer_type_head_count self) |}.

(** The evaluator when [call] has added to the top-level sums only. *)
Definition credit_totals (s : scores) (self : evaluator) : evaluator :=
  let '(em, f1, p, r) := s in
  set_totals (fadd (_total_em self) em) (fadd (_total_f1 self) f1)
    (fadd (_total_p self) p) (fadd (_total_r self) r) (_count self + 1) self.
End Credit.

(** ** Cells and histories *)

Section Cells.
Context {V : Type}.

(** The cells [(answer_type, head, value)] of a two-level dictionary, in the
    order of iteration. *)
Definition cells (d : dict (dict V)) : list (pystr * pystr * V) :=
  flat_map (fun entry => map (fun hv => (fst entry, fst hv, snd hv)) (snd entry)) d.

(** The cell [(t, h)] holds something. *)
Definition present (t h : pystr) (d : dict (dict V)) : Prop :=
  exists v, lookup2 t h d = Some v.
End Cells.

(** The sum of the values of a dictionary of counts. *)
Definition dict_sum (d : dict Z) : Z := fold_right (fun kv acc => snd kv + acc) 0 d.

(** The sum of the counts of all the cells. *)
Definition cells_sum (d : dict (dict Z)) : Z :=
  fold_right (fun entry acc => dict_sum (snd entry) + acc) 0 d.

Section History.
Context `{Float}.
Context {annotation prediction : Type}.
Variable answer_json_to_strings : annotation -> result (list pystr * pystr).
Variable compute_em_and_f1 : prediction -> list pystr -> result scores.

(** What a caller can do with an evaluator. *)
Inductive op : Type :=
| DoCall (pred : prediction) (ground_truths : list annotation) (ability : pystr)
| DoDunderCall (pred : prediction) (ground_truths : list annotation)
| DoGetMetric (reset_flag : bool)
| DoReset.

(** The operation is a [call] with its three arguments. *)
Definition is_call (o : op) : bool :=
  match o with
  | DoCall _ _ _ => true
  | _ => false
  end.

(** One operation, on the evaluator and on the number of calls that have
    returned since the construction or the last reset. *)
Definition step (state : evaluator * Z) (o : op) : evaluator * Z :=
  let '(self, n) := state in
  match o with
  | DoCall pred ground_truths ability =>
      match call answer_json_to_strings compute_em_and_f1
              pred ground_truths ability self with
      | (self', Ok _) => (self', n + 1)
      | (self', Raise _) => (self', n)
      end
  | DoDunderCall pred ground_truths =>
      (fst (__call__ answer_json_to_strings compute_em_and_f1
              pred ground_truths self), n)
  | DoGetMetric reset_flag =>
      match get_metric reset_flag self with
      | (self', Ok _) => (self', if reset_flag then 0 else n)
      | (self', Raise _) => (self', n)
      end
  | DoReset => (fst (reset self), 0)
  end.

(** A fresh evaluator after the operations [ops]. *)
Definition history (ops : list op) : evaluator * Z := fold_left step ops (init, 0).

(** The cell [(t, h)] is there in the four dictionaries of sums. *)
Definition observed (self : evaluator) (t h : pystr) : Prop :=
  present t h (_answer_type_head_em self) /\
  present t h (_answer_type_head_f1 self) /\
  present t h (_answer_type_head_p self) /\
  present t h (_answer_type_head_r self).

(** The state an evaluator is in between operations. *)
Record consistent (self : evaluator) : Prop := {
  count_is_sum : _count self = cells_sum (_answer_type_head_count self);
  types_distinct : NoDup (keys (_answer_type_head_count self));
  heads_distinct :
    forall t hc, lookup t (_answer_type_head_count self) = Some hc ->
                 NoDup (keys hc) /\ hc <> [];
  cells_observed :
    forall t h c, lookup2 t h (_answer_type_head_count self) = Some c ->
      1 <= c /\ observed self t h
}.
End History.

(** ** What [get_metric] computes *)

Section Views.
Context `{Float}.

(** [float(n)] where [n] converts. *)
Definition to_float (n : Z) : float :=
  match of_int n with
  | Some y => y
  | None => fzero
  end.

(** [x / n] where [n] converts and is not zero. *)
Definition mean (x : float) (n : Z) : float := fdiv x (to_float n).

(** The tuple [(em / n, f1 / n, p / n, r / n, n)]. *)
Definition mean_tuple (em f1 p r : float) (n : Z) : tuple :=
  [VFloat (mean em n); VFloat (mean f1 n); VFloat (mean p n); VFloat (mean r n);
   VInt n].

(** What the cell [(t, h)] of a dictionary of sums holds. *)
Definition cell (d : dict (dict float)) (t h : pystr) : float :=
  match lookup2 t h d with
  | Some v => v
  | None => fzero
  end.

Definition type_sums_init : type_sums :=
  {| type_count := 0; type_em := fzero; type_f1 := fzero;
     type_p := fzero; type_r := fzero |}.

(** [head_body] when every cell it reads is there and every count converts. *)
Definition head_step (self : evaluator) (answer_type : pystr)
    (acc : type_sums * locals) (item : pystr * Z) : type_sums * locals :=
  let em := cell (_answer_type_head_em self) answer_type (fst item) in
  let f1 := cell (_answer_type_head_f1 self) answer_type (fst item) in
  let p := cell (_answer_type_head_p self) answer_type (fst item) in
  let r := cell (_answer_type_head_r self) answer_type (fst item) in
  ({| type_count := type_count (fst acc) + snd item;
      type_em := fadd (type_em (fst acc)) em;
      type_f1 := fadd (type_f1 (fst acc)) f1;
      type_p := fadd (type_p (fst acc)) p;
      type_r := fadd (type_r (fst acc)) r |},
   {| scores_per_answer_type_and_head :=
        setitem2 answer_type (fst item) (mean_tuple em f1 p r (snd item))
          (scores_per_answer_type_and_head (snd acc));
      scores_per_answer_type := scores_per_answer_type (snd acc);
      scores_per_head := scores_per_head (snd acc);
      em_per_head := add_item fadd fzero (fst item) em (em_per_head (snd acc));
      f1_per_head := add_item fadd fzero (fst item) f1 (f1_per_head (snd acc));
      p_per_head := add_item fadd fzero (fst item) p (p_per_head (snd acc));
      r_per_head := add_item fadd fzero (fst item) r (r_per_head (snd acc));
      count_per_head :=
        add_item Z.add 0 (fst item) (snd item) (count_per_head (snd acc)) |}).

(** [type_body], likewise. *)
Definition type_step (self : evaluator) (loc : locals) (item : pystr * dict Z)
  : locals :=
  let acc := fold_left (head_step self (fst item)) (snd item) (type_sums_init, loc) in
  let ty := fst acc in
  {| scores_per_answer_type_and_head := scores_per_answer_type_and_head (snd acc);
     scores_per_answer_type :=
       setitem (fst item)
         (mean_tuple (type_em ty) (type_f1 ty) (type_p ty) (type_r ty) (type_count ty))
         (scores_per_answer_type (snd acc));
     scores_per_head := scores_per_head (snd acc);
     em_per_head := em_per_head (snd acc);
     f1_per_head := f1_per_head (snd acc);
     p_per_head := p_per_head (snd acc);
     r_per_head := r_per_head (snd acc);
     count_per_head := count_per_head (snd acc) |}.

(** [per_head_body], likewise. *)
Definition per_head_step (loc : locals) (item : pystr * Z) : locals :=
  let em := getitem_default fzero (fst item) (em_per_head loc) in
  let f1 := getitem_default fzero (fst item) (f1_per_head loc) in
  let p := getitem_default fzero (fst item) (p_per_head loc) in
  let r := getitem_default fzero (fst item) (r_per_head loc) in
  {| scores_per_answer_type_and_head := scores_per_answer_type_and_head loc;
     scores_per_answer_type := scores_per_answer_type loc;
     scores_per_head :=
       setitem (fst item)
         (mean_tuple (fst em) (fst f1) (fst p) (fst r) (snd item))
         (scores_per_head loc);
     em_per_head := snd em; f1_per_head := snd f1;
     p_per_head := snd p; r_per_head := snd r;
     count_per_head := count_per_head loc |}.

(** The local dictionaries after the two outer loops. *)
Definition after_types (self : evaluator) : locals :=
  fold_left (type_step self) (_answer_type_head_count self) locals_init.

Definition after_heads (self : evaluator) : locals :=
  fold_left per_head_step (count_per_head (after_types self)) (after_types self).

(** The overall tuple: four averages, or four [0] before the first example. *)
Definition overall (self : evaluator) : tuple :=
  let avg (total : float) :=
    if 0 <? _count self then VFloat (mean total (_count self)) else VInt 0 in
  [avg (_total_em self); avg (_total_f1 self);
   avg (_total_p self); avg (_total_r self)].

(** What [get_metric] returns when it returns. *)
Definition views (self : evaluator) : metrics :=
  (overall self,
   scores_per_answer_type_and_head (after_heads self),
   scores_per_answer_type (after_heads self),
   scores_per_head (after_heads self)).

(** Some count up to [n] does not convert to a float. *)
Definition overflows (n : Z) : Prop := exists k, 1 <= k <= n /\ of_int k = None.

(** The outcome of a method that leaves the evaluator as it was and returns
    [a], unless a count up to [n] does not convert. *)
Definition yields {A} (n : Z) (self : evaluator) (a : A)
    (out : evaluator * result A) : Prop :=
  out = (self, Ok a) \/ (out = (self, Raise OverflowError) /\ overflows n).

(** A dictionary of counts whose values are positive and sum to [total]. *)
Definition counted (d : dict Z) (total : Z) : Prop :=
  (forall h c, In (h, c) d -> 1 <= c) /\ dict_sum d = total.
End Views.

(** The fifth component of a tuple of a view: the support count, if any. *)
Definition support_count `{Float} (t : tuple) : option pyval := nth_error t 4.

Module Scenario.
Import Fixture.
Local Existing Instance b64.

(** The operations on an evaluator whose annotations are already normalised
    and whose predictions carry their score. *)
Definition operation : Type := @op annotation scores.
Definition after (ops : list operation) : evaluator :=
  fst (history normalised carried ops).

(** The two examples of the scenario of the specification: a number answer
    scored (1, 1, 1, 1) by the counting head, then a span answer scored
    (0, 0.5, 0.5, 0.5) by the span head. *)
Definition number_example : operation :=
  DoCall ones [([str "5"], str "number")] (str "count_head").
Definition span_example : operation :=
  DoCall (fzero, half, half, half) [([str "x"], str "span")] (str "span_head").
End Scenario.

(** ** Merging two evaluators *)

Section MergeCells.
Context {V : Type}.
Variable plus : V -> V -> V.
Variable dflt : V.

(** Modelled from the spec: merging is not in the source; the specification
    words it as the pairwise addition of all sums and counts, keyed by the
    keys of the two-level dictionaries.  Every cell of [b] is added into the
    cell of [a] with the same keys, as [a[t][h] += b[t][h]] does. *)
Definition merge_cells (a b : dict (dict V)) : dict (dict V) :=
  fold_left (fun d x => add_item2 plus dflt (fst (fst x)) (snd (fst x)) (snd x) d)
    (cells b) a.

(** The cells [cs] added one by one, as a sequence of calls does. *)
Definition add_cells (cs : list (pystr * pystr * V)) (d : dict (dict V))
  : dict (dict V) :=
  fold_left (fun d x => add_item2 plus dflt (fst (fst x)) (snd (fst x)) (snd x) d)
    cs d.

(** What the cell [(t, h)] holds once the cells [cs] are added to a cell
    that held [o]. *)
Definition cell_after (t h : pystr) (cs : list (pystr * pystr * V)) (o : option V)
  : option V :=
  fold_left
    (fun o x =>
       if pystr_eqb t (fst (fst x)) && pystr_eqb h (snd (fst x))
       then Some (plus (match o with Some v => v | None => dflt end) (snd x))
       else o)
    cs o.

(** The keys of a two-level dictionary are distinct at both levels. *)
Definition keyed (d : dict (dict V)) : Prop :=
  NoDup (keys d) /\
  forall t inner, In (t, inner) d -> NoDup (keys inner).
End MergeCells.

Section Merge.
Context `{Float}.
Context {annotation prediction : Type}.
Variable answer_json_to_strings : annotation -> result (list pystr * pystr).
Variable compute_em_and_f1 : prediction -> list pystr -> result scores.

(** Modelled from the spec: merging two accumulators is not in the source;
    it is the pairwise addition of the top-level sums and counts and of the
    cells of the five dictionaries. *)
Definition merge (a b : evaluator) : evaluator :=
  {| _total_em := fadd (_total_em a) (_total_em b);
     _total_f1 := fadd (_total_f1 a) (_total_f1 b);
     _total_p := fadd (_total_p a) (_total_p b);
     _total_r := fadd (_total_r a) (_total_r b);
     _count := _count a + _count b;
     _answer_type_head_em :=
       merge_cells fadd fzero (_answer_type_head_em a) (_answer_type_head_em b);
     _answer_type_head_f1 :=
       merge_cells fadd fzero (_answer_type_head_f1 a) (_answer_type_head_f1 b);
     _answer_type_head_p :=
       merge_cells fadd fzero (_answer_type_head_p a) (_answer_type_head_p b);
     _answer_type_head_r :=
       merge_cells fadd fzero (_answer_type_head_r a) (_answer_type_head_r b);
     _answer_type_head_count :=
       merge_cells Z.add 0 (_answer_type_head_count a) (_answer_type_head_count b) |}.

(** Two evaluators with the same count, at the top level and in every cell. *)
Definition same_counts (a b : evaluator) : Prop :=
  _count a = _count b /\
  forall t h, lookup2 t h (_answer_type_head_count a) =
              lookup2 t h (_answer_type_head_count b).

(** Two evaluators with the same sums, at the top level and in every cell. *)
Definition same_sums (a b : evaluator) : Prop :=
  _total_em a = _total_em b /\
  _total_f1 a = _total_f1 b /\
  _total_p a = _total_p b /\
  _total_r a = _total_r b /\
  forall t h,
    lookup2 t h (_answer_type_head_em a) = lookup2 t h (_answer_type_head_em b) /\
    lookup2 t h (_answer_type_head_f1 a) = lookup2 t h (_answer_type_head_f1 b) /\
    lookup2 t h (_answer_type_head_p a) = lookup2 t h (_answer_type_head_p b) /\
    lookup2 t h (_answer_type_head_r a) = lookup2 t h (_answer_type_head_r b).

Definition same_state (a b : evaluator) : Prop := same_sums a b /\ same_counts a b.

(** An example: what [call] is given. *)
Definition example : Type := (prediction * list annotation * pystr)%type.

(** A fresh evaluator after the examples [xs]: one call each, a call that
    raises is passed over. *)
Definition accumulate (xs : list example) : evaluator :=
  fold_left
    (fun self x =>
       fst (call answer_json_to_strings compute_em_and_f1
              (fst (fst x)) (snd (fst x)) (snd x) self))
    xs init.

(** What a call on the example [x] credits, if it returns: the score, the
    answer type and the head. *)
Definition credited (x : example) : list (scores * pystr * pystr) :=
  match map_result answer_json_to_strings (snd (fst x)) with
  | Ok pairs =>
      match unzip_pairs pairs with
      | Ok (strings, types) =>
          match metric_max_over_ground_truths compute_em_and_f1 (fst (fst x))
                  strings with
          | Ok (s, idx) =>
              match py_index types idx with
              | Ok answer_type => [(s, answer_type, snd x)]
              | Raise _ => []
              end
          | Raise _ => []
          end
      | Raise _ => []
      end
  | Raise _ => []
  end.

(** The credits [cs] applied one by one. *)
Definition credit_all (cs : list (scores * pystr * pystr)) (self : evaluator)
  : evaluator :=
  fold_left (fun self c => credit (fst (fst c)) (snd (fst c)) (snd c) self) cs self.
End Merge.

(** Addition that is associative and commutative with [0.0] as its left
    identity: it holds on the rationals, not on binary64. *)
Class ExactSums `{Float} : Prop := {
  fadd_assoc : forall x y z, fadd x (fadd y z) = fadd (fadd x y) z;
  fadd_comm : forall x y, fadd x y = fadd y x;
  fadd_zero_l : forall x, fadd fzero x = x
}.

Module Rounding.
Import Fixture.
Local Existing Instance b64.

(** 0.1, 0.2 and 0.3 *)
Definition tenths (n : Z) : float :=
  SFdiv 53 1024 (binary_normalize 53 1024 n 0 false)
    (binary_normalize 53 1024 10 0 false).

(** An example whose F1, precision and recall are [n] tenths. *)
Definition scored (n : Z) : @example annotation scores :=
  ((fzero, tenths n, tenths n, tenths n), [([str "a"], str "span")], str "span_head").
End Rounding.

Module Exact.
Local Existing Instance exact.

(** An example whose F1, precision and recall are [n] tenths, exactly. *)
Definition scored (n : Z) : @example Fixture.annotation scores :=
  ((fzero, Q2Qc (n # 10), Q2Qc (n # 10), Q2Qc (n # 10)),
   [([str "a"], str "span")], str "span_head").

Definition normalised (a : Fixture.annotation) : result (list pystr * pystr) := Ok a.
Definition carried (pred : scores) (_ : list pystr) : result scores := Ok pred.
End Exact.

(** ** The breakdowns of [get_metric], stated on the cells *)

(** What a one-level dictionary holds at [k], [dflt] if nothing. *)
Definition held {V} (dflt : V) (d : dict V) (k : pystr) : V :=
  match lookup k d with
  | Some v => v
  | None => dflt
  end.

Section Breakdown.
Context `{Float}.

(** The sum of the cells of the type [t] over its heads [hc], in the order
    of iteration. *)
Definition type_total (vals : dict (dict float)) (t : pystr) (hc : dict Z) : float :=
  fold_left (fun a hv => fadd a (cell vals t (fst hv))) hc fzero.

(** The sum of the cells of the head [h] over the types, in the order of
    iteration of the cells [cs]. *)
Definition head_total (vals : dict (dict float)) (h : pystr)
    (cs : list (pystr * pystr * Z)) : float :=
  fold_left
    (fun a x => if pystr_eqb h (snd (fst x))
                then fadd a (cell vals (fst (fst x)) (snd (fst x))) else a)
    cs fzero.

(** The count of the head [h] over the types. *)
Definition head_count (h : pystr) (cs : list (pystr * pystr * Z)) : Z :=
  fold_left (fun a x => if pystr_eqb h (snd (fst x)) then a + snd x else a) cs 0.

(** The tuple of one cell. *)
Definition cell_tuple (self : evaluator) (x : pystr * pystr * Z) : tuple :=
  mean_tuple (cell (_answer_type_head_em self) (fst (fst x)) (snd (fst x)))
    (cell (_answer_type_head_f1 self) (fst (fst x)) (snd (fst x)))
    (cell (_answer_type_head_p self) (fst (fst x)) (snd (fst x)))
    (cell (_answer_type_head_r self) (fst (fst x)) (snd (fst x)))
    (snd x).

(** The tuple of one answer type. *)
Definition type_tuple (self : evaluator) (entry : pystr * dict Z) : tuple :=
  mean_tuple (type_total (_answer_type_head_em self) (fst entry) (snd entry))
    (type_total (_answer_type_head_f1 self) (fst entry) (snd entry))
    (type_total (_answer_type_head_p self) (fst entry) (snd entry))
    (type_total (_answer_type_head_r self) (fst entry) (snd entry))
    (dict_sum (snd entry)).

(** The tuple of one head. *)
Definition head_tuple (self : evaluator) (h : pystr) : tuple :=
  let cs := cells (_answer_type_head_count self) in
  mean_tuple (head_total (_answer_type_head_em self) h cs)
    (head_total (_answer_type_head_f1 self) h cs)
    (head_total (_answer_type_head_p self) h cs)
    (head_total (_answer_type_head_r self) h cs)
    (head_count h cs).

(** The local dictionaries, loop by loop. *)
Definition cell_tuples (self : evaluator) (cs : list (pystr * pystr * Z))
    (d : dict (dict tuple)) : dict (dict tuple) :=
  fold_left (fun d x => setitem2 (fst (fst x)) (snd (fst x)) (cell_tuple self x) d) cs d.

Definition type_tuples (self : evaluator) (entries : dict (dict Z)) (d : dict tuple)
  : dict tuple :=
  fold_left (fun d entry => setitem (fst entry) (type_tuple self entry) d) entries d.

Definition per_head_sums (vals : dict (dict float)) (cs : list (pystr * pystr * Z))
    (d : dict float) : dict float :=
  fold_left
    (fun d x => add_item fadd fzero (snd (fst x))
                  (cell vals (fst (fst x)) (snd (fst x))) d)
    cs d.

Definition per_head_counts (cs : list (pystr * pystr * Z)) (d : dict Z) : dict Z :=
  fold_left (fun d x => add_item Z.add 0 (snd (fst x)) (snd x) d) cs d.

(** The tuple [per_head_body] stores for an item of [count_per_head]. *)
Definition stored_head_tuple (loc : locals) (item : pystr * Z) : tuple :=
  mean_tuple (held fzero (em_per_head loc) (fst item))
    (held fzero (f1_per_head loc) (fst item))
    (held fzero (p_per_head loc) (fst item))
    (held fzero (r_per_head loc) (fst item))
    (snd item).

(** The cells of one entry of a two-level dictionary. *)
Definition entry_cells (t : pystr) (hc : dict Z) : list (pystr * pystr * Z) :=
  map (fun hv => (t, fst hv, snd hv)) hc.
End Breakdown.

(** ** The components of a score *)

Section ScoreComponents.
Context `{Float}.

Definition score_em (s : scores) : float := fst (fst (fst s)).
Definition score_f1 (s : scores) : float := snd (fst (fst s)).
Definition score_p (s : scores) : float := snd (fst s).
Definition score_r (s : scores) : float := snd s.

(** The scores of the ground truths that pass the guard of the loop. *)
Definition compared_items (items : list (list pystr * scores)) : list scores :=
  map snd (filter (fun item => compared (fst item)) items).
End ScoreComponents.

(** [<] is a strict order: on binary64 nothing is below or above a NaN. *)
Class FloatStrict `{Float} : Prop := {
  fltb_irrefl : forall a, fltb a a = false;
  fltb_trans : forall a b c, fltb a b = true -> fltb b c = true -> fltb a c = true
}.

(** The magnitude [m1 * 2^e1] is below [m2 * 2^e2], for mantissas of the same
    width. *)
Definition mag_lt (e1 : Z) (m1 : positive) (e2 : Z) (m2 : positive) : Prop :=
  e1 < e2 \/ (e1 = e2 /\ (m1 < m2)%positive).

(** ** The shape of the views *)

(** The keys [ks] without repetition, each where it is first seen. *)
Definition first_seen (ks : list pystr) : list pystr :=
  fold_left (fun seen k => if existsb (pystr_eqb k) seen then seen else seen ++ [k])
    ks [].

Section ViewShapes.
Context `{Float}.

(** The support count of a tuple of a breakdown: its fifth component. *)
Definition support (t : tuple) : Z :=
  match nth_error t 4 with
  | Some (VInt n) => n
  | _ => 0
  end.

(** The support counts of a breakdown, added up. *)
Definition supports (d : dict tuple) : Z :=
  fold_right (fun kv acc => support (snd kv) + acc) 0 d.

Definition supports2 (d : dict (dict tuple)) : Z :=
  fold_right (fun kv acc => supports (snd kv) + acc) 0 d.

(** The breakdowns, entry by entry in the order of the dictionary of counts. *)
Definition per_type_view (self : evaluator) : dict tuple :=
  map (fun entry => (fst entry, type_tuple self entry)) (_answer_type_head_count self).

Definition per_type_per_head_view (self : evaluator) : dict (dict tuple) :=
  map (fun entry =>
         (fst entry,
          map (fun hv => (fst hv, cell_tuple self (fst entry, fst hv, snd hv)))
            (snd entry)))
    (_answer_type_head_count self).

Definition per_head_view (self : evaluator) : dict tuple :=
  map (fun h => (h, head_tuple self h))
    (first_seen (map (fun x : pystr * pystr * Z => snd (fst x))
                   (cells (_answer_type_head_count self)))).
End ViewShapes.

(** ** The top-level sums against the cells *)

Section CellTotals.
Context `{Float}.

(** The values of a dictionary of sums, added up from the right. *)
Definition float_sum (d : dict float) : float :=
  fold_right (fun kv acc => fadd (snd kv) acc) fzero d.

(** The sums of all the cells, added up. *)
Definition float_cells_sum (d : dict (dict float)) : float :=
  fold_right (fun entry acc => fadd (float_sum (snd entry)) acc) fzero d.

(** Each top-level sum is the sum of the cells of its dictionary. *)
Definition balanced (self : evaluator) : Prop :=
  _total_em self = float_cells_sum (_answer_type_head_em self) /\
  _total_f1 self = float_cells_sum (_answer_type_head_f1 self) /\
  _total_p self = float_cells_sum (_answer_type_head_p self) /\
  _total_r self = float_cells_sum (_answer_type_head_r self).
End CellTotals.

(** ** Scores out of range *)

Section OutOfRangeScores.
Context `{Float}.

(** A score with a component above 0.0. *)
Definition above_zero (s : scores) : bool :=
  fltb fzero (score_em s) || fltb fzero (score_f1 s) ||
  fltb fzero (score_p s) || fltb fzero (score_r s).
End OutOfRangeScores.

Module OutOfRange.
Import Fixture.
Local Existing Instance b64.

Definition not_a_number : float := S754_nan.
Definition minus_one : float := SFopp one.

(** A score whose F1 is not a number. *)
Definition unordered : scores := (one, not_a_number, one, one).

(** A score whose F1 is negative. *)
Definition mixed : scores := (one, minus_one, one, one).
End OutOfRange.

(** ** The scores returned since the last reset *)

Section ReturnedScores.
Context `{Float}.
Context {annotation prediction : Type}.
Variable answer_json_to_strings : annotation -> result (list pystr * pystr).
Variable compute_em_and_f1 : prediction -> list pystr -> result scores.

(** One operation, on the evaluator and on the scores that the calls have
    returned since the construction or the last reset, in the order of the
    calls. *)
Definition log_step (state : evaluator * list scores) (o : op)
  : evaluator * list scores :=
  let '(self, log) := state in
  match o with
  | DoCall pred ground_truths ability =>
      match call answer_json_to_strings compute_em_and_f1
              pred ground_truths ability self with
      | (self', Ok (s, _)) => (self', log ++ [s])
      | (self', Raise _) => (self', log)
      end
  | DoDunderCall pred ground_truths =>
      (fst (__call__ answer_json_to_strings compute_em_and_f1
              pred ground_truths self), log)
  | DoGetMetric reset_flag =>
      match get_metric reset_flag self with
      | (self', Ok _) => (self', if reset_flag then [] else log)
      | (self', Raise _) => (self', log)
      end
  | DoReset => (fst (reset self), [])
  end.

Definition returned_scores (ops : list op) : list scores :=
  snd (fold_left log_step ops (init, [])).
End ReturnedScores.

Module RoundingRun.
Import Fixture.
Local Existing Instance b64.

(** A call whose F1, precision and recall are [n] tenths, on the head [h]. *)
Definition called (n : Z) (h : string) : @op annotation scores :=
  DoCall (fzero, Rounding.tenths n, Rounding.tenths n, Rounding.tenths n)
    [([str "a"], str "span")] (str h).

(** 0.1, 0.2 and 0.3 on three heads. *)
Definition run : list (@op annotation scores) :=
  [called 1 "h1"; called 2 "h2"; called 3 "h3"].
End RoundingRun.

(** ** One example more *)

Section OneExample.
Context `{Float}.

(** The evaluator [self'] is [self] with one example of score [s] added at
    the top level and in the cell [(t, h)], as its fields and the cells of
    its five dictionaries show: the cell starts from 0 when it is new, and
    every other cell holds what it held. *)
Definition one_example_added (s : scores) (t h : pystr) (self self' : evaluator)
  : Prop :=
  _count self' = _count self + 1 /\
  _total_em self' = fadd (_total_em self) (score_em s) /\
  _total_f1 self' = fadd (_total_f1 self) (score_f1 s) /\
  _total_p self' = fadd (_total_p self) (score_p s) /\
  _total_r self' = fadd (_total_r self) (score_r s) /\
  lookup2 t h (_answer_type_head_count self') =
    Some (match lookup2 t h (_answer_type_head_count self) with
          | Some c => c
          | None => 0
          end + 1) /\
  lookup2 t h (_answer_type_head_em self') =
    Some (fadd (cell (_answer_type_head_em self) t h) (score_em s)) /\
  lookup2 t h (_answer_type_head_f1 self') =
    Some (fadd (cell (_answer_type_head_f1 self) t h) (score_f1 s)) /\
  lookup2 t h (_answer_type_head_p self') =
    Some (fadd (cell (_answer_type_head_p self) t h) (score_p s)) /\
  lookup2 t h (_answer_type_head_r self') =
    Some (fadd (cell (_answer_type_head_r self) t h) (score_r s)) /\
  forall t' h',
    (t', h') <> (t, h) ->
    lookup2 t' h' (_answer_type_head_count self') =
      lookup2 t' h' (_answer_type_head_count self) /\
    lookup2 t' h' (_answer_type_head_em self') =
      lookup2 t' h' (_answer_type_head_em self) /\
    lookup2 t' h' (_answer_type_head_f1 self') =
      lookup2 t' h' (_answer_type_head_f1 self) /\
    lookup2 t' h' (_answer_type_head_p self') =
      lookup2 t' h' (_answer_type_head_p self) /\
    lookup2 t' h' (_answer_type_head_r self') =
      lookup2 t' h' (_answer_type_head_r self).
End OneExample.

(** * Properties *)

(** ** Strings and sequences *)

Lemma pystr_eqb_eq (a b : pystr) : pystr_eqb a b = true <-> a = b.
Proof.
  unfold pystr_eqb. destruct (list_eq_dec N.eq_dec a b); split; congruence.
Qed.

Lemma pystr_eqb_refl (a : pystr) : pystr_eqb a a = true.
Proof. now apply pystr_eqb_eq. Qed.

Lemma pystr_eqb_neq (a b : pystr) : pystr_eqb a b = false <-> a <> b.
Proof.
  unfold pystr_eqb. destruct (list_eq_dec N.eq_dec a b); split; congruence.
Qed.

Lemma lstrip_nil_iff (s : pystr) : lstrip s = [] <-> forallb is_space s = true.
Proof.
  induction s as [|c s IH]; simpl.
  - tauto.
  - destruct (is_space c); simpl; [exact IH|]. split; discriminate.
Qed.

Lemma lstrip_all_space (s : pystr) : forallb is_space s = true -> lstrip s = [].
Proof. apply lstrip_nil_iff. Qed.

Lemma lstrip_suffix (s : pystr) : exists pre, s = pre ++ lstrip s /\ forallb is_space pre = true.
Proof.
  induction s as [|c s [pre [E Hp]]]; simpl.
  - now exists [].
  - destruct (is_space c) eqn:Hc.
    + exists (c :: pre). simpl. rewrite Hc, Hp. now rewrite <- E.
    + now exists [].
Qed.

(** [strip] empties exactly the strings made of whitespace only. *)
Lemma blank_spec (s : pystr) : blank s = forallb is_space s.
Proof.
  unfold blank, strip, rstrip.
  destruct (forallb is_space s) eqn:Hs.
  - rewrite (lstrip_all_space s Hs). reflexivity.
  - apply pystr_eqb_neq. intros E.
    apply (f_equal (@rev N)) in E. rewrite rev_involutive in E. simpl in E.
    apply lstrip_nil_iff in E. rewrite forallb_forall in E.
    destruct (lstrip_suffix s) as [pre [Es Hp]].
    assert (Hall : forallb is_space s = true); [|congruence].
    rewrite Es, forallb_app, Hp. simpl.
    apply forallb_forall. intros c Hc. apply E. now apply in_rev in Hc.
Qed.

Lemma compared_nil : compared [] = true.
Proof. reflexivity. Qed.

Lemma compared_cons (first : pystr) (rest : list pystr) :
  compared (first :: rest) = negb (blank first).
Proof.
  unfold compared, blank.
  replace (Z.of_nat (length (first :: rest)) =? 0) with false
    by (symmetry; apply Z.eqb_neq; simpl length; lia).
  replace (0 <? Z.of_nat (length (first :: rest))) with true
    by (symmetry; apply Z.ltb_lt; simpl length; lia).
  reflexivity.
Qed.

Lemma enumerate_from_length {A} (xs : list A) (i : Z) :
  length (enumerate_from i xs) = length xs.
Proof. revert i. induction xs; intros; simpl; auto. Qed.

Lemma map_result_length {A B} (f : A -> result B) (xs : list A) (ys : list B) :
  map_result f xs = Ok ys -> length ys = length xs.
Proof.
  revert ys. induction xs as [|x xs IH]; simpl; intros ys E.
  - now inversion E.
  - destruct (f x); simpl in E; [|discriminate].
    destruct (map_result f xs); simpl in E; [|discriminate].
    inversion E; subst. simpl. f_equal. now apply IH.
Qed.

Lemma map_result_forall2 {A B} (f : A -> result B) (xs : list A) (ys : list B) :
  Forall2 (fun x y => f x = Ok y) xs ys <-> map_result f xs = Ok ys.
Proof.
  split.
  - induction 1 as [|x y xs ys E _ IH]; simpl; [reflexivity|].
    now rewrite E, IH.
  - revert ys. induction xs as [|x xs IH]; simpl; intros ys E.
    + inversion E. constructor.
    + destruct (f x) eqn:Ex; simpl in E; [|discriminate].
      destruct (map_result f xs) eqn:Exs; simpl in E; [|discriminate].
      inversion E; subst. constructor; auto.
Qed.

(** ** The loop of [metric_max_over_ground_truths] *)

Section SelectionFacts.
Context `{Float}.
Context {prediction : Type}.
Variable metric_fn : prediction -> list pystr -> result scores.
Variable pred : prediction.

(** One pass of the loop is one guarded [select_step]. *)
Lemma max_step_select (acc : maxima) (i : Z) (ground_truth : list pystr) (s : scores) :
  metric_fn pred ground_truth = Ok s ->
  exists acc',
    max_step metric_fn pred acc (i, ground_truth) = Ok acc' /\
    of_maxima acc' =
      if compared ground_truth then select_step (of_maxima acc) (i, s)
      else of_maxima acc.
Proof.
  intros E. unfold max_step. rewrite E. simpl.
  destruct s as [[[em f1] p] r].
  destruct (compared ground_truth); eexists; split; reflexivity.
Qed.

(** The loop scores every ground truth in order and compares those that
    pass the guard. *)
Lemma max_loop_select (ground_truths : list (list pystr)) (i : Z) (acc : maxima) :
  rbind (max_loop metric_fn pred (enumerate_from i ground_truths) acc)
        (fun a => Ok (of_maxima a)) =
  rbind (map_result (metric_fn pred) ground_truths)
        (fun scs =>
           Ok (fold_left select_step (compared_scores_from i ground_truths scs)
                 (of_maxima acc))).
Proof.
  revert i acc. induction ground_truths as [|g gts IH]; intros i acc.
  - reflexivity.
  - cbn [enumerate_from max_loop map_result].
    destruct (metric_fn pred g) as [s|e] eqn:E.
    + destruct (max_step_select acc i g s E) as [acc' [E1 E2]].
      rewrite E1. cbn [rbind]. rewrite IH.
      destruct (map_result (metric_fn pred) gts) as [scs|e']; cbn [rbind]; [|reflexivity].
      unfold compared_scores_from.
      cbn [enumerate_from combine filter fst].
      destruct (compared g); cbn [map snd fold_left]; now rewrite E2.
    + unfold max_step. rewrite E. reflexivity.
Qed.

Lemma metric_max_select (ground_truths : list (list pystr)) :
  metric_max_over_ground_truths metric_fn pred ground_truths =
  rbind (map_result (metric_fn pred) ground_truths)
        (fun scs => Ok (select_best (compared_scores ground_truths scs))).
Proof.
  unfold metric_max_over_ground_truths.
  exact (max_loop_select ground_truths 0 maxima_init).
Qed.
End SelectionFacts.

Section LastRecorded.
Context `{Float}.

Lemma running_maxima_snoc (done : list (list pystr * scores)) (g : list pystr) (s : scores) :
  running_maxima (done ++ [(g, s)]) =
  if compared g then raise (running_maxima done) s else running_maxima done.
Proof. unfold running_maxima. now rewrite fold_left_app. Qed.

Lemma records_middle (done rest : list (list pystr * scores)) (g : list pystr) (s : scores) :
  records (done ++ (g, s) :: rest) (length done) =
  compared g && matches (running_maxima (done ++ [(g, s)])) s.
Proof.
  unfold records.
  rewrite nth_error_app2 by lia. rewrite Nat.sub_diag. simpl nth_error.
  replace (firstn (S (length done)) (done ++ (g, s) :: rest)) with (done ++ [(g, s)]);
    [reflexivity|].
  rewrite firstn_app. rewrite firstn_all2 by lia.
  replace (S (length done) - length done)%nat with 1%nat by lia. reflexivity.
Qed.

(** The comparisons of the remaining ground truths, started from the
    maxima and the index reached on [done]. *)
Lemma select_fold (rest done : list (list pystr * scores)) (acc : scores * Z) :
  fst acc = running_maxima done ->
  snd acc = last_index (records (done ++ rest)) (length done) ->
  fold_left select_step
    (compared_scores_from (Z.of_nat (length done)) (map fst rest) (map snd rest)) acc =
  (running_maxima (done ++ rest),
   last_index (records (done ++ rest)) (length (done ++ rest))).
Proof.
  revert done acc. induction rest as [|[g s] rest IH]; intros done acc Hm Hi.
  - rewrite app_nil_r in *. simpl. destruct acc; simpl in *; congruence.
  - replace (done ++ (g, s) :: rest) with ((done ++ [(g, s)]) ++ rest) in *
      by (now rewrite <- app_assoc).
    unfold compared_scores_from. cbn [map fst snd enumerate_from combine filter].
    assert (Hlen : Z.of_nat (length (done ++ [(g, s)])) = Z.of_nat (length done) + 1)
      by (rewrite length_app; simpl; lia).
    assert (Hrec : records ((done ++ [(g, s)]) ++ rest) (length done) =
                   compared g && matches (running_maxima (done ++ [(g, s)])) s)
      by (rewrite <- app_assoc; apply records_middle).
    rewrite <- Hlen.
    destruct (compared g) eqn:Hc; cbn [map snd fold_left];
      apply (IH (done ++ [(g, s)])).
    + unfold select_step. cbn [fst snd].
      rewrite running_maxima_snoc, Hc. congruence.
    + rewrite length_app. simpl length.
      replace (length done + 1)%nat with (S (length done)) by lia.
      cbn [last_index]. rewrite Hrec. cbn [andb].
      unfold select_step. cbn [fst snd].
      rewrite running_maxima_snoc, Hc, Hm, <- Hi. reflexivity.
    + rewrite running_maxima_snoc, Hc. exact Hm.
    + rewrite length_app. simpl length.
      replace (length done + 1)%nat with (S (length done)) by lia.
      cbn [last_index]. rewrite Hrec. cbn [andb]. exact Hi.
Qed.

Lemma last_index_none (p : nat -> bool) (n : nat) :
  last_index p n = -1 <-> forall k, (k < n)%nat -> p k = false.
Proof.
  induction n as [|n IH]; simpl.
  - split; [intros _ k Hk; lia|reflexivity].
  - destruct (p n) eqn:Hp.
    + split; [lia|]. intros Hall. rewrite Hall in Hp by lia. discriminate.
    + rewrite IH. split; intros Hall k Hk.
      * destruct (Nat.eq_dec k n); [congruence|apply Hall; lia].
      * apply Hall. lia.
Qed.

Lemma last_index_some (p : nat -> bool) (n k : nat) :
  last_index p n = Z.of_nat k <->
  (k < n)%nat /\ p k = true /\ forall j, (k < j < n)%nat -> p j = false.
Proof.
  induction n as [|n IH]; simpl.
  - split; [lia|intros [Hk _]; lia].
  - destruct (p n) eqn:Hp.
    + split.
      * intros E. apply Nat2Z.inj in E. subst k.
        repeat split; [lia|exact Hp|intros j Hj; lia].
      * intros [Hk [Hpk Hall]].
        destruct (Nat.eq_dec k n); [congruence|].
        rewrite Hall in Hp by lia. discriminate.
    + rewrite IH. split.
      * intros [Hk [Hpk Hall]]. repeat split; [lia|exact Hpk|].
        intros j Hj. destruct (Nat.eq_dec j n); [congruence|apply Hall; lia].
      * intros [Hk [Hpk Hall]].
        assert (k <> n) by congruence.
        repeat split; [lia|exact Hpk|intros j Hj; apply Hall; lia].
Qed.

Lemma last_index_cases (p : nat -> bool) (n : nat) :
  last_index p n = -1 \/ exists k, last_index p n = Z.of_nat k.
Proof.
  induction n as [|n IH]; simpl; [now left|].
  destruct (p n); [right; now exists n|exact IH].
Qed.

Lemma records_out_of_range (items : list (list pystr * scores)) (k : nat) :
  (length items <= k)%nat -> records items k = false.
Proof.
  intros Hk. unfold records.
  now rewrite (proj2 (nth_error_None items k) Hk).
Qed.
End LastRecorded.

Section MaximizingIndex.
Context `{Float}.
Context {prediction : Type}.
Variable metric_fn : prediction -> list pystr -> result scores.
Variable pred : prediction.

Lemma forall2_combine {A B} (R : A -> B -> Prop) (xs : list A) (ys : list B) :
  Forall2 R xs ys ->
  map fst (combine xs ys) = xs /\ map snd (combine xs ys) = ys /\
  length (combine xs ys) = length xs.
Proof.
  induction 1 as [|x y xs ys _ _ [IH1 [IH2 IH3]]]; simpl; [auto|].
  now rewrite IH1, IH2, IH3.
Qed.

Lemma metric_max_scored (ground_truths : list (list pystr)) (scs : list scores) :
  Forall2 (fun g s => metric_fn pred g = Ok s) ground_truths scs ->
  metric_max_over_ground_truths metric_fn pred ground_truths =
  Ok (running_maxima (combine ground_truths scs),
      last_index (records (combine ground_truths scs)) (length ground_truths)).
Proof.
  intros Hsc. rewrite metric_max_select.
  rewrite (proj1 (map_result_forall2 _ _ _) Hsc). cbn [rbind].
  destruct (forall2_combine _ _ _ Hsc) as [E1 [E2 E3]].
  unfold select_best, compared_scores.
  pose proof (select_fold (combine ground_truths scs) [] (zeros, -1)
                eq_refl eq_refl) as Hfold.
  cbn [app length] in Hfold. change (Z.of_nat 0) with 0 in Hfold.
  rewrite E1, E2, E3 in Hfold. now rewrite Hfold.
Qed.

(** C1, as amended.  When the scorer answers on every ground truth, the
    maxima returned are the running maxima over the ground truths that pass
    the guard of the loop, and the index returned is the last index whose
    ground truth passes the guard and whose score equals, in all four
    components, the running maxima right after it; a ground truth that
    differs from the running maxima in a component is not that index, and
    the index is -1 when no ground truth qualifies. *)
Theorem maximizing_index_last_recorded
    (ground_truths : list (list pystr)) (scs : list scores) :
  Forall2 (fun g s => metric_fn pred g = Ok s) ground_truths scs ->
  exists (m : scores) (idx : Z),
    metric_max_over_ground_truths metric_fn pred ground_truths = Ok (m, idx) /\
    m = running_maxima (combine ground_truths scs) /\
    (forall k : nat,
        idx = Z.of_nat k <->
        records (combine ground_truths scs) k = true /\
        forall j, (k < j)%nat -> records (combine ground_truths scs) j = false) /\
    (idx = -1 <-> forall k, records (combine ground_truths scs) k = false).
Proof.
  intros Hsc.
  destruct (forall2_combine _ _ _ Hsc) as [_ [_ Hlen]].
  set (items := combine ground_truths scs) in *.
  exists (running_maxima items), (last_index (records items) (length ground_truths)).
  split; [now apply metric_max_scored|]. split; [reflexivity|].
  rewrite <- Hlen. split.
  - intros k. rewrite last_index_some. split.
    + intros [Hk [Hr Hall]]. split; [exact Hr|]. intros j Hj.
      destruct (Nat.lt_ge_cases j (length items)) as [Hlt|Hge].
      * apply Hall. lia.
      * now apply records_out_of_range.
    + intros [Hr Hall].
      destruct (Nat.lt_ge_cases k (length items)) as [Hlt|Hge].
      * repeat split; [exact Hlt|exact Hr|]. intros j Hj. apply Hall. lia.
      * rewrite records_out_of_range in Hr by exact Hge. discriminate.
  - rewrite last_index_none. split.
    + intros Hall k.
      destruct (Nat.lt_ge_cases k (length items)) as [Hlt|Hge].
      * now apply Hall.
      * now apply records_out_of_range.
    + intros Hall k _. apply Hall.
Qed.

(** C3.  Every ground truth is passed to the scorer, in order, and the
    first exception of the scorer ends the call; of the scored ground
    truths only those that pass the guard of the loop are compared and can
    be recorded.  The guard lets the empty list of answer strings pass, and
    stops a non-empty list exactly when its first string is empty or made of
    whitespace only. *)
Theorem blank_ground_truths_scored_not_compared :
  (forall ground_truths : list (list pystr),
      metric_max_over_ground_truths metric_fn pred ground_truths =
      rbind (map_result (metric_fn pred) ground_truths)
            (fun scs => Ok (select_best (compared_scores ground_truths scs)))) /\
  compared [] = true /\
  (forall (first : pystr) (rest : list pystr),
      compared (first :: rest) = negb (blank first)) /\
  (forall s : pystr, blank s = forallb is_space s).
Proof.
  split; [exact (metric_max_select metric_fn pred)|].
  split; [exact compared_nil|].
  split; [exact compared_cons|exact blank_spec].
Qed.
End MaximizingIndex.

Section SelectionExamples.
Import Fixture.
Local Existing Instance b64.

(** The tie-break scenario: both ground truths score (1, 1, 1, 1), the
    second is blank, index 0 is selected. *)
Example five_then_empty_selects_first :
  metric_max_over_ground_truths (constant ones) tt five_then_empty = Ok (ones, 0).
Proof. reflexivity. Qed.

Example five_then_empty_unguarded :
  every_ground_truth_max (constant ones) tt five_then_empty = Ok (ones, 1).
Proof. reflexivity. Qed.

(** A ground truth that raises three components and ties on the fourth is
    recorded. *)
Example raising_some_components_recorded :
  metric_max_over_ground_truths
    (tabled [([str "a"], (one, half, half, half)); ([str "b"], ones)]) tt
    [[str "a"]; [str "b"]] = Ok (ones, 1).
Proof. reflexivity. Qed.

(** A ground truth that raises three components and is below the maximum on
    the fourth is not recorded: the maxima returned are the score of no
    ground truth. *)
Example raising_some_components_not_recorded :
  metric_max_over_ground_truths
    (tabled [([str "a"], (one, half, half, half));
             ([str "b"], (fzero, one, one, one))]) tt
    [[str "a"]; [str "b"]] = Ok (ones, 0).
Proof. reflexivity. Qed.

(** A blank ground truth on which the scorer fails still ends the call. *)
Example blank_ground_truth_is_scored :
  metric_max_over_ground_truths failing tt [[str " "]] =
  Raise (ExternalError "scorer").
Proof. reflexivity. Qed.

(** C1 fails as stated: with the ground truths [["5"], [""]] and a scorer
    that answers (1, 1, 1, 1) on both, the last index whose score equals
    the running maxima in all four components is 1, and 0 is returned. *)
Lemma maximizing_index_not_every_ground_truth :
  metric_max_over_ground_truths (constant ones) tt five_then_empty <>
  every_ground_truth_max (constant ones) tt five_then_empty.
Proof. vm_compute. discriminate. Qed.

Lemma maximizing_index_last_recorded_witness :
  exists (m : scores) (idx : Z),
    metric_max_over_ground_truths (constant ones) tt five_then_empty = Ok (m, idx) /\
    m = running_maxima (combine five_then_empty [ones; ones]) /\
    (forall k : nat,
        idx = Z.of_nat k <->
        records (combine five_then_empty [ones; ones]) k = true /\
        forall j, (k < j)%nat ->
                  records (combine five_then_empty [ones; ones]) j = false) /\
    (idx = -1 <-> forall k, records (combine five_then_empty [ones; ones]) k = false).
Proof.
  apply (maximizing_index_last_recorded (constant ones) tt five_then_empty [ones; ones]).
  repeat constructor.
Defined.
End SelectionExamples.

(** ** Indexing *)

Lemma py_index_in_range {A} (xs : list A) (i : Z) :
  0 <= i < Z.of_nat (length xs) -> exists x, py_index xs i = Ok x.
Proof.
  intros Hi. unfold py_index.
  replace (i <? 0) with false by (symmetry; apply Z.ltb_ge; lia).
  replace (i <? 0) with false by (symmetry; apply Z.ltb_ge; lia).
  replace (Z.of_nat (length xs) <=? i) with false by (symmetry; apply Z.leb_gt; lia).
  cbn [orb].
  destruct (nth_error xs (Z.to_nat i)) as [x|] eqn:E; [now exists x|].
  apply nth_error_None in E. lia.
Qed.

Lemma py_index_last {A} (front : list A) (x : A) :
  py_index (front ++ [x]) (-1) = Ok x.
Proof.
  unfold py_index. rewrite length_app. cbn [length Z.ltb Z.compare].
  replace (-1 + Z.of_nat (length front + 1)) with (Z.of_nat (length front)) by lia.
  replace (Z.of_nat (length front) <? 0) with false by (symmetry; apply Z.ltb_ge; lia).
  replace (Z.of_nat (length front + 1) <=? Z.of_nat (length front)) with false
    by (symmetry; apply Z.leb_gt; lia).
  cbn [orb]. rewrite Nat2Z.id, nth_error_app2 by lia.
  now rewrite Nat.sub_diag.
Qed.

Lemma py_index_wraps {A} (xs : list A) (i : Z) :
  xs <> [] -> i = -1 \/ 0 <= i < Z.of_nat (length xs) ->
  exists x, py_index xs i = Ok x.
Proof.
  intros Hne [->|Hi]; [|now apply py_index_in_range].
  destruct (exists_last Hne) as [front [x ->]].
  exists x. apply py_index_last.
Qed.

Lemma enumerate_from_index {A} (xs : list A) (k i : Z) (x : A) :
  In (i, x) (enumerate_from k xs) -> k <= i < k + Z.of_nat (length xs).
Proof.
  revert k. induction xs as [|y xs IH]; intros k; simpl; [tauto|].
  intros [E|Hin].
  - inversion E; subst. lia.
  - apply IH in Hin. lia.
Qed.

(** ** [call] *)

Section CallFacts.
Context `{Float}.
Context {annotation prediction : Type}.
Variable answer_json_to_strings : annotation -> result (list pystr * pystr).
Variable compute_em_and_f1 : prediction -> list pystr -> result scores.

Local Notation "'CALL'" := (call answer_json_to_strings compute_em_and_f1).

(** [call], stage by stage: the state changes only after the normaliser and
    the scorer have answered. *)
Lemma call_stages (pred : prediction) (ground_truths : list annotation)
    (ability : pystr) (self : evaluator) :
  CALL pred ground_truths ability self =
  match map_result answer_json_to_strings ground_truths with
  | Raise e => (self, Raise e)
  | Ok pairs =>
      match unzip_pairs pairs with
      | Raise e => (self, Raise e)
      | Ok (strings, types) =>
          match metric_max_over_ground_truths compute_em_and_f1 pred strings with
          | Raise e => (self, Raise e)
          | Ok (s, idx) =>
              match py_index types idx with
              | Raise e => (credit_totals s self, Raise e)
              | Ok answer_type =>
                  match py_index ground_truths idx with
                  | Raise e => (credit s answer_type ability self, Raise e)
                  | Ok selected =>
                      (credit s answer_type ability self, Ok (s, selected))
                  end
              end
          end
      end
  end.
Proof.
  unfold call, bind, lift, modify, ret.
  destruct (map_result answer_json_to_strings ground_truths) as [pairs|e];
    [|reflexivity].
  destruct (unzip_pairs pairs) as [[strings types]|e]; [|reflexivity].
  destruct (metric_max_over_ground_truths compute_em_and_f1 pred strings)
    as [[[[[em f1] p] r] idx]|e]; [|reflexivity].
  destruct (py_index types idx) as [answer_type|e]; [|reflexivity].
  destruct (py_index ground_truths idx) as [selected|e]; reflexivity.
Qed.

(** The index returned is -1 or the index of a ground truth. *)
Lemma select_fold_index (items : list (Z * scores)) (acc : scores * Z) :
  snd (fold_left select_step items acc) = snd acc \/
  In (snd (fold_left select_step items acc)) (map fst items).
Proof.
  revert acc. induction items as [|[i s] items IH]; intros acc; simpl; [now left|].
  destruct (IH (select_step acc (i, s))) as [E|Hin]; [|now right; right].
  rewrite E. unfold select_step. cbn [fst snd].
  destruct (matches _ s); [right; now left|now left].
Qed.

Lemma compared_scores_index (ground_truths : list (list pystr)) (scs : list scores)
    (k i : Z) :
  In i (map fst (compared_scores_from k ground_truths scs)) ->
  k <= i < k + Z.of_nat (length scs).
Proof.
  unfold compared_scores_from. intros Hin.
  apply in_map_iff in Hin. destruct Hin as [[j s] [Ej Hin]]. cbn [fst] in Ej. subst j.
  apply in_map_iff in Hin. destruct Hin as [[g [j s']] [E Hin]]. cbn [snd] in E.
  inversion E; subst. apply filter_In in Hin. destruct Hin as [Hin _].
  apply in_combine_r in Hin. now apply enumerate_from_index in Hin.
Qed.

Lemma metric_max_index (pred : prediction) (ground_truths : list (list pystr))
    (s : scores) (idx : Z) :
  metric_max_over_ground_truths compute_em_and_f1 pred ground_truths = Ok (s, idx) ->
  idx = -1 \/ 0 <= idx < Z.of_nat (length ground_truths).
Proof.
  rewrite metric_max_select.
  destruct (map_result (compute_em_and_f1 pred) ground_truths) as [scs|e] eqn:E;
    cbn [rbind]; [|discriminate].
  intros Hs. inversion Hs as [Hbest]. clear Hs.
  apply map_result_length in E.
  unfold select_best in *.
  destruct (select_fold_index (compared_scores ground_truths scs) (zeros, -1))
    as [E'|Hin].
  - left. rewrite Hbest in E'. exact E'.
  - right. rewrite Hbest in Hin. cbn [snd] in Hin.
    apply compared_scores_index in Hin. lia.
Qed.

(** A call that gets past the normaliser and the scorer returns. *)
Lemma call_returns (pred : prediction) (ground_truths : list annotation)
    (ability : pystr) (self : evaluator)
    (pairs : list (list pystr * pystr)) (s : scores) (idx : Z) :
  ground_truths <> [] ->
  map_result answer_json_to_strings ground_truths = Ok pairs ->
  metric_max_over_ground_truths compute_em_and_f1 pred (map fst pairs) = Ok (s, idx) ->
  exists answer_type selected,
    py_index (map snd pairs) idx = Ok answer_type /\
    py_index ground_truths idx = Ok selected /\
    CALL pred ground_truths ability self =
    (credit s answer_type ability self, Ok (s, selected)).
Proof.
  intros Hne Hn Hm. rewrite call_stages, Hn.
  pose proof (map_result_length _ _ _ Hn) as Hlen.
  assert (Hp : pairs <> []).
  { intros ->. destruct ground_truths; [congruence|discriminate]. }
  assert (Hu : unzip_pairs pairs = Ok (map fst pairs, map snd pairs))
    by (destruct pairs; [congruence|reflexivity]).
  rewrite Hu, Hm.
  pose proof (metric_max_index _ _ _ _ Hm) as Hidx. rewrite length_map in Hidx.
  destruct (py_index_wraps (map snd pairs) idx) as [t Et].
  { intros E. apply map_eq_nil in E. congruence. }
  { now rewrite length_map. }
  destruct (py_index_wraps ground_truths idx Hne) as [g Eg].
  { now rewrite <- Hlen. }
  exists t, g. now rewrite Et, Eg.
Qed.

(** A call that raises leaves the evaluator as it was, and the exception is
    the one of the empty list, of the normaliser or of the scorer. *)
Lemma call_raises (pred : prediction) (ground_truths : list annotation)
    (ability : pystr) (self self' : evaluator) (e : exn) :
  CALL pred ground_truths ability self = (self', Raise e) ->
  self' = self /\
  ((ground_truths = [] /\ e = ValueError) \/
   map_result answer_json_to_strings ground_truths = Raise e \/
   exists pairs,
     map_result answer_json_to_strings ground_truths = Ok pairs /\
     map_result (compute_em_and_f1 pred) (map fst pairs) = Raise e).
Proof.
  destruct (map_result answer_json_to_strings ground_truths) as [pairs|e0] eqn:Hn.
  - destruct ground_truths as [|g0 gts].
    + rewrite call_stages, Hn. inversion Hn; subst. cbn. intros E.
      inversion E; subst. split; [reflexivity|now left].
    + destruct (metric_max_over_ground_truths compute_em_and_f1 pred (map fst pairs))
        as [[s idx]|e1] eqn:Hm.
      * destruct (call_returns pred (g0 :: gts) ability self pairs s idx)
          as [t [g [_ [_ E]]]]; [discriminate|exact Hn|exact Hm|].
        rewrite E. discriminate.
      * rewrite call_stages, Hn.
        assert (Hu : unzip_pairs pairs = Ok (map fst pairs, map snd pairs)).
        { destruct pairs; [|reflexivity].
          apply map_result_length in Hn. discriminate. }
        rewrite Hu, Hm. intros E. inversion E; subst.
        split; [reflexivity|]. right. right. exists pairs. split; [reflexivity|].
        rewrite metric_max_select in Hm.
        destruct (map_result (compute_em_and_f1 pred) (map fst pairs));
          cbn [rbind] in Hm; [discriminate|congruence].
  - rewrite call_stages, Hn. intros E. inversion E; subst.
    split; [reflexivity|]. right. now left.
Qed.
End CallFacts.

(** The first exception is the one that [map_result] raises. *)
Lemma map_result_raise {A B} (f : A -> result B) (xs : list A) (e : exn) :
  map_result f xs = Raise e <->
  exists front x rest ys,
    xs = front ++ x :: rest /\ map_result f front = Ok ys /\ f x = Raise e.
Proof.
  split.
  - induction xs as [|x xs IH]; simpl; [discriminate|].
    destruct (f x) as [y|e'] eqn:Ex; cbn [rbind].
    + destruct (map_result f xs) as [ys|e'']; cbn [rbind]; [discriminate|].
      intros E. destruct (IH E) as [front [x' [rest [ys [-> [Hf Hx]]]]]].
      exists (x :: front), x', rest, (y :: ys). simpl. now rewrite Ex, Hf.
    + intros E. exists [], x, xs, []. repeat split. congruence.
  - intros [front [x [rest [ys [-> [Hf Hx]]]]]].
    revert ys Hf. induction front as [|a front IH]; simpl; intros ys Hf.
    + now rewrite Hx.
    + destruct (f a); cbn [rbind] in *; [|discriminate].
      destruct (map_result f front) as [ys'|]; cbn [rbind] in *; [|discriminate].
      now rewrite (IH ys' eq_refl).
Qed.

Section CallErrors.
Context `{Float}.
Context {annotation prediction : Type}.
Variable answer_json_to_strings : annotation -> result (list pystr * pystr).
Variable compute_em_and_f1 : prediction -> list pystr -> result scores.

Local Notation "'CALL'" := (call answer_json_to_strings compute_em_and_f1).

(** C8.  [call] on an empty list of ground truths raises; an exception of
    the normaliser or of the scorer is the exception of the call; and a call
    that raises leaves every field of the evaluator as it was. *)
Theorem call_atomic (pred : prediction) (ground_truths : list annotation)
    (ability : pystr) (self : evaluator) :
  (ground_truths = [] ->
   CALL pred ground_truths ability self = (self, Raise ValueError)) /\
  (forall e,
      map_result answer_json_to_strings ground_truths = Raise e ->
      CALL pred ground_truths ability self = (self, Raise e)) /\
  (forall pairs e,
      map_result answer_json_to_strings ground_truths = Ok pairs ->
      map_result (compute_em_and_f1 pred) (map fst pairs) = Raise e ->
      CALL pred ground_truths ability self = (self, Raise e)) /\
  (forall self' e,
      CALL pred ground_truths ability self = (self', Raise e) -> self' = self).
Proof.
  repeat split.
  - intros ->. now rewrite call_stages.
  - intros e E. now rewrite call_stages, E.
  - intros pairs e En Es. rewrite call_stages, En.
    destruct pairs as [|p pairs]; [discriminate|].
    cbn [unzip_pairs]. rewrite metric_max_select, Es. reflexivity.
  - intros self' e E. now apply call_raises in E.
Qed.

End CallErrors.

Section CallExamples.
Import Fixture.
Local Existing Instance b64.

Example call_empty_raises :
  call normalised (constant ones) tt [] (str "span_head") init =
  (init, Raise ValueError).
Proof. reflexivity. Qed.

Lemma call_atomic_witness :
  call normalised failing tt [([str "7"], str "number")] (str "count_head") init =
  (init, Raise (ExternalError "scorer")) /\
  init = init.
Proof.
  split; [reflexivity|].
  exact (proj2 (proj2 (proj2
           (call_atomic normalised failing tt [([str "7"], str "number")]
              (str "count_head") init)))
           init (ExternalError "scorer") eq_refl).
Defined.
End CallExamples.

(** ** Scores in range *)

Lemma SFcompare_refl (x : spec_float) :
  x <> S754_nan -> SFcompare x x = Some Eq.
Proof.
  destruct x as [s|s| |s m e]; intros Hx; try congruence; simpl.
  - reflexivity.
  - now destruct s.
  - rewrite Z.compare_refl, Pos.compare_cont_refl. now destruct s.
Qed.

#[export] Instance b64_order : @FloatOrder b64.
Proof.
  split; cbn [fleb fltb feqb b64]; unfold SFleb, SFltb, SFeqb.
  - intros a b. destruct (SFcompare a b) as [[]|]; congruence.
  - intros a b Hlt.
    assert (Hb : b <> S754_nan).
    { intros ->. destruct a; simpl in Hlt; discriminate. }
    now rewrite (SFcompare_refl b Hb).
Qed.

#[export] Instance exact_order : @FloatOrder exact.
Proof.
  split; cbn [fleb fltb feqb exact]; intros a b.
  - destruct (Qclt_le_dec b a) as [Hlt|Hle]; [discriminate|]. intros _.
    destruct (Qclt_le_dec a b) as [Hlt'|Hle']; [discriminate|]. intros _.
    destruct (Qc_eq_dec a b) as [|Hne]; [reflexivity|].
    exfalso. apply Hne. now apply Qcle_antisym.
  - intros _. destruct (Qc_eq_dec b b); congruence.
Qed.

Section NoRecord.
Context `{FloatOrder}.

Lemma nonneg_matches (s : scores) :
  nonneg s = true -> matches (raise zeros s) s = true.
Proof.
  destruct s as [[[em f1] p] r]. unfold nonneg, raise, zeros, matches.
  rewrite !andb_true_iff. intros [[[H1 H2] H3] H4].
  assert (Hmax : forall x, fleb fzero x = true -> feqb (py_max fzero x) x = true).
  { intros x Hx. unfold py_max. destruct (fltb fzero x) eqn:Hlt.
    - now apply (fltb_feqb_refl fzero).
    - now apply fleb_not_fltb. }
  now rewrite !Hmax.
Qed.

Lemma running_maxima_skip (item : list pystr * scores)
    (items : list (list pystr * scores)) :
  compared (fst item) = false ->
  running_maxima (item :: items) = running_maxima items.
Proof. intros Hc. unfold running_maxima. cbn [fold_left]. now rewrite Hc. Qed.

Lemma records_skip (item : list pystr * scores)
    (items : list (list pystr * scores)) (k : nat) :
  compared (fst item) = false ->
  records (item :: items) (S k) = records items k.
Proof.
  intros Hc. unfold records. cbn [nth_error].
  destruct (nth_error items k) as [[g s]|]; [|reflexivity].
  change (firstn (S (S k)) (item :: items)) with (item :: firstn (S k) items).
  now rewrite running_maxima_skip.
Qed.

(** With scores in range the first ground truth that is compared is
    recorded: no ground truth is recorded only if none is compared. *)
Lemma no_record_no_compared (items : list (list pystr * scores)) :
  Forall (fun item => nonneg (snd item) = true) items ->
  (forall k, records items k = false) ->
  Forall (fun item => compared (fst item) = false) items.
Proof.
  induction 1 as [|[g s] items Hs _ IH]; intros Hrec; [constructor|].
  assert (Hg : compared g = false).
  { specialize (Hrec O). unfold records in Hrec. cbn [nth_error firstn] in Hrec.
    unfold running_maxima in Hrec. cbn [fold_left fst snd] in Hrec.
    destruct (compared g); [|reflexivity].
    cbn [andb] in Hrec. cbn [snd] in Hs.
    rewrite (nonneg_matches s Hs) in Hrec. discriminate. }
  constructor; [exact Hg|].
  apply IH. intros k. rewrite <- (records_skip (g, s)); [apply Hrec|exact Hg].
Qed.

Lemma running_maxima_no_compared (items : list (list pystr * scores)) :
  Forall (fun item => compared (fst item) = false) items ->
  running_maxima items = zeros.
Proof.
  induction 1 as [|item items Hc _ IH]; [reflexivity|].
  now rewrite running_maxima_skip.
Qed.

End NoRecord.

Section NoRecordExamples.
Import Fixture.
Local Existing Instance b64.

(** A single ground truth scored (0, 0, 0, 0) is compared and recorded: its
    index is 0, not -1. *)
Example zero_score_is_recorded :
  metric_max_over_ground_truths (constant zeros) tt [[str "7"]] = Ok (zeros, 0).
Proof. reflexivity. Qed.
End NoRecordExamples.

(** ** Dictionaries *)

Section DictFacts.
Context {V : Type}.
Implicit Types (d : dict V) (k : pystr) (v : V).

Lemma lookup_setitem_eq k v d : lookup k (setitem k v d) = Some v.
Proof.
  induction d as [|[k' v'] d IH]; simpl.
  - now rewrite pystr_eqb_refl.
  - destruct (pystr_eqb k k') eqn:E; simpl; now rewrite E.
Qed.

Lemma lookup_setitem_neq k k' v d :
  k' <> k -> lookup k' (setitem k v d) = lookup k' d.
Proof.
  intros Hne. apply pystr_eqb_neq in Hne.
  induction d as [|[k0 v0] d IH]; simpl.
  - now rewrite Hne.
  - destruct (pystr_eqb k k0) eqn:E; simpl.
    + apply pystr_eqb_eq in E. subst k0. now rewrite Hne.
    + now rewrite IH.
Qed.

Lemma setitem_same k v d : lookup k d = Some v -> setitem k v d = d.
Proof.
  induction d as [|[k0 v0] d IH]; simpl; [discriminate|].
  destruct (pystr_eqb k k0); intros E.
  - now inversion E.
  - now rewrite IH.
Qed.

Lemma lookup_none_keys k d : lookup k d = None <-> ~ In k (keys d).
Proof.
  induction d as [|[k0 v0] d IH]; simpl; [tauto|].
  destruct (pystr_eqb k k0) eqn:E.
  - apply pystr_eqb_eq in E. subst. split; [discriminate|tauto].
  - apply pystr_eqb_neq in E. rewrite IH. intuition congruence.
Qed.

Lemma lookup_in k v d : lookup k d = Some v -> In (k, v) d.
Proof.
  induction d as [|[k0 v0] d IH]; simpl; [discriminate|].
  destruct (pystr_eqb k k0) eqn:E; intros Hl.
  - apply pystr_eqb_eq in E. left. congruence.
  - right. now apply IH.
Qed.

Lemma in_lookup k v d : NoDup (keys d) -> In (k, v) d -> lookup k d = Some v.
Proof.
  induction d as [|[k0 v0] d IH]; simpl; [tauto|].
  intros Hnd [E|Hin]; inversion Hnd as [|? ? Hk0 Hd]; subst.
  - inversion E; subst. now rewrite pystr_eqb_refl.
  - destruct (pystr_eqb k k0) eqn:E.
    + apply pystr_eqb_eq in E. subst. exfalso. apply Hk0.
      apply in_map_iff. now exists (k0, v).
    + now apply IH.
Qed.

Lemma keys_setitem k v d :
  keys (setitem k v d) =
  match lookup k d with Some _ => keys d | None => keys d ++ [k] end.
Proof.
  induction d as [|[k0 v0] d IH]; simpl; [reflexivity|].
  destruct (pystr_eqb k k0); simpl; [reflexivity|].
  rewrite IH. now destruct (lookup k d).
Qed.

Lemma nodup_setitem k v d : NoDup (keys d) -> NoDup (keys (setitem k v d)).
Proof.
  intros Hnd. rewrite keys_setitem.
  destruct (lookup k d) eqn:E; [exact Hnd|].
  apply lookup_none_keys in E.
  apply NoDup_app; [exact Hnd|repeat constructor; tauto|].
  intros x Hx [->|[]]. contradiction.
Qed.

Lemma setitem_not_nil k v d : setitem k v d <> [].
Proof. destruct d as [|[k0 v0] d]; simpl; [|destruct (pystr_eqb k k0)]; discriminate. Qed.

Lemma getitem_default_present (dflt : V) k v d :
  lookup k d = Some v -> getitem_default dflt k d = (v, d).
Proof. unfold getitem_default. now intros ->. Qed.

Lemma getitem_default_missing (dflt : V) k d :
  lookup k d = None -> getitem_default dflt k d = (dflt, setitem k dflt d).
Proof. unfold getitem_default. now intros ->. Qed.

Lemma lookup_add_item (plus : V -> V -> V) (dflt : V) k x d k' :
  lookup k' (add_item plus dflt k x d) =
  if pystr_eqb k' k
  then Some (plus (match lookup k d with Some v => v | None => dflt end) x)
  else lookup k' d.
Proof.
  unfold add_item, getitem_default.
  destruct (pystr_eqb k' k) eqn:E.
  - apply pystr_eqb_eq in E. rewrite E.
    destruct (lookup k d); cbv beta iota; now rewrite lookup_setitem_eq.
  - apply pystr_eqb_neq in E.
    destruct (lookup k d); cbv beta iota; now rewrite !lookup_setitem_neq.
Qed.

Lemma setitem_setitem k v w d : setitem k v (setitem k w d) = setitem k v d.
Proof.
  induction d as [|[k0 v0] d IH]; simpl.
  - now rewrite pystr_eqb_refl.
  - destruct (pystr_eqb k k0) eqn:E; simpl; rewrite E; [reflexivity|].
    now rewrite IH.
Qed.

(** [d[k] += x] stores the sum at [k]. *)
Lemma add_item_setitem (plus : V -> V -> V) (dflt : V) k x d :
  add_item plus dflt k x d =
  setitem k (plus (match lookup k d with Some v => v | None => dflt end) x) d.
Proof.
  unfold add_item. destruct (lookup k d) as [v|] eqn:E.
  - now rewrite (getitem_default_present dflt k v d E).
  - rewrite (getitem_default_missing dflt k d E). apply setitem_setitem.
Qed.

Lemma in_setitem k v k' v' d :
  In (k', v') (setitem k v d) -> (k' = k /\ v' = v) \/ In (k', v') d.
Proof.
  induction d as [|[k0 v0] d IH]; simpl.
  - intros [E|[]]. inversion E. now left.
  - destruct (pystr_eqb k k0) eqn:E; simpl.
    + apply pystr_eqb_eq in E. subst k0. intros [E|Hin].
      * inversion E. now left.
      * right. now right.
    + intros [E'|Hin]; [right; now left|].
      destruct (IH Hin) as [Hn|Ho]; [now left|right; now right].
Qed.

Lemma nodup_add_item (plus : V -> V -> V) (dflt : V) k x d :
  NoDup (keys d) -> NoDup (keys (add_item plus dflt k x d)).
Proof.
  intros Hnd. unfold add_item, getitem_default.
  destruct (lookup k d); cbv beta iota; repeat apply nodup_setitem; exact Hnd.
Qed.

Lemma add_item_not_nil (plus : V -> V -> V) (dflt : V) k x d :
  add_item plus dflt k x d <> [].
Proof.
  unfold add_item, getitem_default.
  destruct (lookup k d); cbv beta iota; apply setitem_not_nil.
Qed.
End DictFacts.

Section Dict2Facts.
Context {V : Type}.
Implicit Types (d : dict (dict V)) (t h : pystr).

Lemma lookup_add_item2 (plus : V -> V -> V) (dflt : V) t h x d t' :
  lookup t' (add_item2 plus dflt t h x d) =
  if pystr_eqb t' t
  then Some (add_item plus dflt h x
               (match lookup t d with Some inner => inner | None => [] end))
  else lookup t' d.
Proof.
  unfold add_item2.
  destruct (lookup t d) as [inner|] eqn:Et;
    [rewrite (getitem_default_present [] t inner d Et)
    |rewrite (getitem_default_missing [] t d Et)];
    destruct (pystr_eqb t' t) eqn:E.
  - apply pystr_eqb_eq in E. rewrite E. now rewrite lookup_setitem_eq.
  - apply pystr_eqb_neq in E. now rewrite lookup_setitem_neq.
  - apply pystr_eqb_eq in E. rewrite E. now rewrite lookup_setitem_eq.
  - apply pystr_eqb_neq in E. now rewrite !lookup_setitem_neq.
Qed.

Lemma lookup2_add_item2 (plus : V -> V -> V) (dflt : V) t h x d t' h' :
  lookup2 t' h' (add_item2 plus dflt t h x d) =
  if pystr_eqb t' t && pystr_eqb h' h
  then Some (plus (match lookup2 t h d with Some v => v | None => dflt end) x)
  else lookup2 t' h' d.
Proof.
  unfold lookup2 at 1. rewrite lookup_add_item2.
  destruct (pystr_eqb t' t) eqn:E; cbn [andb]; [|reflexivity].
  apply pystr_eqb_eq in E. rewrite E. rewrite lookup_add_item.
  unfold lookup2. destruct (lookup t d); reflexivity.
Qed.

Lemma present_add_item2 (plus : V -> V -> V) (dflt : V) t h x d t' h' :
  present t' h' d \/ (t' = t /\ h' = h) ->
  present t' h' (add_item2 plus dflt t h x d).
Proof.
  unfold present. rewrite lookup2_add_item2. intros Hp.
  destruct (pystr_eqb t' t && pystr_eqb h' h) eqn:E; [eauto|].
  destruct Hp as [Hp|[-> ->]]; [exact Hp|].
  now rewrite !pystr_eqb_refl in E.
Qed.

Lemma nodup_add_item2 (plus : V -> V -> V) (dflt : V) t h x d :
  NoDup (keys d) -> NoDup (keys (add_item2 plus dflt t h x d)).
Proof.
  intros Hnd. unfold add_item2.
  destruct (lookup t d) as [inner|] eqn:Et;
    [rewrite (getitem_default_present [] t inner d Et)
    |rewrite (getitem_default_missing [] t d Et)];
    repeat apply nodup_setitem; exact Hnd.
Qed.

Lemma getitem2_present (dflt : V) t h d (v : V) :
  lookup2 t h d = Some v -> getitem2 dflt t h d = (v, d).
Proof.
  unfold lookup2, getitem2. destruct (lookup t d) as [inner|] eqn:Et; [|discriminate].
  intros Eh. rewrite (getitem_default_present [] t inner d Et).
  rewrite (getitem_default_present dflt h v inner Eh).
  now rewrite setitem_same.
Qed.
End Dict2Facts.

Lemma dict_sum_setitem (k : pystr) (v : Z) (d : dict Z) :
  dict_sum (setitem k v d) =
  dict_sum d - match lookup k d with Some v0 => v0 | None => 0 end + v.
Proof.
  induction d as [|[k0 v0] d IH]; simpl; [lia|].
  destruct (pystr_eqb k k0); simpl; lia.
Qed.

Lemma dict_sum_add_item (k : pystr) (c : Z) (d : dict Z) :
  dict_sum (add_item Z.add 0 k c d) = dict_sum d + c.
Proof.
  unfold add_item, getitem_default. destruct (lookup k d) as [v0|] eqn:E.
  - cbv beta iota. rewrite dict_sum_setitem, E. lia.
  - cbv beta iota. rewrite !dict_sum_setitem, lookup_setitem_eq, E. lia.
Qed.

Lemma cells_sum_setitem (t : pystr) (inner : dict Z) (d : dict (dict Z)) :
  cells_sum (setitem t inner d) =
  cells_sum d - match lookup t d with Some i0 => dict_sum i0 | None => 0 end
  + dict_sum inner.
Proof.
  induction d as [|[t0 i0] d IH]; simpl; [lia|].
  destruct (pystr_eqb t t0); simpl; lia.
Qed.

Lemma cells_sum_add_item2 (t h : pystr) (c : Z) (d : dict (dict Z)) :
  cells_sum (add_item2 Z.add 0 t h c d) = cells_sum d + c.
Proof.
  unfold add_item2. destruct (lookup t d) as [inner|] eqn:E.
  - rewrite (getitem_default_present [] t inner d E).
    rewrite cells_sum_setitem, E, dict_sum_add_item. lia.
  - rewrite (getitem_default_missing [] t d E).
    rewrite !cells_sum_setitem, lookup_setitem_eq, E, dict_sum_add_item.
    simpl. lia.
Qed.

Lemma dict_sum_nonneg (d : dict Z) :
  (forall h c, In (h, c) d -> 1 <= c) -> 0 <= dict_sum d.
Proof.
  induction d as [|[h c] d IH]; simpl; intros Hall; [lia|].
  assert (1 <= c) by (apply (Hall h); now left).
  assert (0 <= dict_sum d) by (apply IH; intros h' c' Hin; apply (Hall h'); now right).
  lia.
Qed.

Lemma dict_sum_bounds (d : dict Z) (h : pystr) (c : Z) :
  (forall h c, In (h, c) d -> 1 <= c) -> In (h, c) d -> 1 <= c <= dict_sum d.
Proof.
  induction d as [|[h0 c0] d IH]; simpl; intros Hall Hin; [tauto|].
  assert (1 <= c0) by (apply (Hall h0); now left).
  assert (Hd : forall h c, In (h, c) d -> 1 <= c)
    by (intros h' c' Hin'; apply (Hall h'); now right).
  pose proof (dict_sum_nonneg d Hd).
  destruct Hin as [E|Hin].
  - inversion E; subst. lia.
  - specialize (IH Hd Hin). lia.
Qed.

Lemma cells_sum_bounds (d : dict (dict Z)) (t : pystr) (hc : dict Z) :
  (forall t hc, In (t, hc) d -> forall h c, In (h, c) hc -> 1 <= c) ->
  In (t, hc) d -> 0 <= dict_sum hc <= cells_sum d.
Proof.
  induction d as [|[t0 hc0] d IH]; simpl; intros Hall Hin; [tauto|].
  assert (0 <= dict_sum hc0) by (apply dict_sum_nonneg, (Hall t0); now left).
  assert (Hd : forall t hc, In (t, hc) d -> forall h c, In (h, c) hc -> 1 <= c)
    by (intros t' hc' Hin'; apply (Hall t'); now right).
  assert (0 <= cells_sum d).
  { clear -Hd. induction d as [|[t1 hc1] d IH]; simpl; [lia|].
    assert (0 <= dict_sum hc1) by (apply dict_sum_nonneg, (Hd t1); now left).
    assert (0 <= cells_sum d) by (apply IH; intros t' hc' Hin'; apply (Hd t'); now right).
    lia. }
  destruct Hin as [E|Hin].
  - inversion E; subst. lia.
  - specialize (IH Hd Hin). lia.
Qed.

(** ** [get_metric] *)

Section Yields.
Context `{Float}.

Lemma yields_ret {A} (n : Z) (self : evaluator) (a : A) :
  yields n self a (ret a self).
Proof. now left. Qed.

Lemma yields_bind {A B} (n : Z) (self : evaluator) (m : M A) (k : A -> M B)
    (a : A) (b : B) :
  yields n self a (m self) -> yields n self b (k a self) ->
  yields n self b (bind m k self).
Proof.
  unfold yields, bind. intros [Em|[Em Ho]] Hk.
  - now rewrite Em.
  - rewrite Em. now right.
Qed.

Lemma bind_ok {A B} (self : evaluator) (m : M A) (k : A -> M B) (a : A) :
  m self = (self, Ok a) -> bind m k self = k a self.
Proof. unfold bind. now intros ->. Qed.

Lemma truediv_in_range (x : float) (n : Z) :
  n <> 0 ->
  truediv x n = Ok (mean x n) \/ (truediv x n = Raise OverflowError /\ of_int n = None).
Proof.
  intros Hn. unfold truediv, mean, to_float.
  destruct (of_int n); [|now right].
  apply Z.eqb_neq in Hn. rewrite Hn. now left.
Qed.

Lemma truediv_yields (bound : Z) (self : evaluator) (x : float) (n : Z) :
  1 <= n <= bound ->
  yields bound self (mean x n) (lift (truediv x n) self).
Proof.
  intros Hn. unfold yields, lift.
  destruct (truediv_in_range x n) as [E|[E Ho]]; [lia| |]; rewrite E.
  - now left.
  - right. split; [reflexivity|]. now exists n.
Qed.

Lemma for_each_yields {A B} (bound : Z) (self : evaluator)
    (body : B -> A -> M B) (step : B -> A -> B) (xs : list A) (acc : B) :
  (forall acc x, In x xs -> yields bound self (step acc x) (body acc x self)) ->
  yields bound self (fold_left step xs acc) (for_each body xs acc self).
Proof.
  revert acc. induction xs as [|x xs IH]; intros acc Hbody; simpl.
  - apply yields_ret.
  - apply (yields_bind _ _ _ _ (step acc x)).
    + apply Hbody. now left.
    + apply IH. intros acc' x' Hin. apply Hbody. now right.
Qed.

Lemma set_head_em_same (self : evaluator) :
  set_head_em (_answer_type_head_em self) self = self.
Proof. now destruct self. Qed.

Lemma set_head_f1_same (self : evaluator) :
  set_head_f1 (_answer_type_head_f1 self) self = self.
Proof. now destruct self. Qed.

Lemma set_head_p_same (self : evaluator) :
  set_head_p (_answer_type_head_p self) self = self.
Proof. now destruct self. Qed.

Lemma set_head_r_same (self : evaluator) :
  set_head_r (_answer_type_head_r self) self = self.
Proof. now destruct self. Qed.

Lemma cell_present (d : dict (dict float)) (t h : pystr) :
  present t h d -> lookup2 t h d = Some (cell d t h).
Proof. intros [v E]. unfold cell. now rewrite E. Qed.

(** A read of a cell that is there changes nothing. *)
Lemma head_em_present (self : evaluator) (t h : pystr) :
  present t h (_answer_type_head_em self) ->
  head_em t h self = (self, Ok (cell (_answer_type_head_em self) t h)).
Proof.
  intros Hp. unfold head_em.
  rewrite (getitem2_present fzero t h _ _ (cell_present _ _ _ Hp)).
  now rewrite set_head_em_same.
Qed.

Lemma head_f1_present (self : evaluator) (t h : pystr) :
  present t h (_answer_type_head_f1 self) ->
  head_f1 t h self = (self, Ok (cell (_answer_type_head_f1 self) t h)).
Proof.
  intros Hp. unfold head_f1.
  rewrite (getitem2_present fzero t h _ _ (cell_present _ _ _ Hp)).
  now rewrite set_head_f1_same.
Qed.

Lemma head_p_present (self : evaluator) (t h : pystr) :
  present t h (_answer_type_head_p self) ->
  head_p t h self = (self, Ok (cell (_answer_type_head_p self) t h)).
Proof.
  intros Hp. unfold head_p.
  rewrite (getitem2_present fzero t h _ _ (cell_present _ _ _ Hp)).
  now rewrite set_head_p_same.
Qed.

Lemma head_r_present (self : evaluator) (t h : pystr) :
  present t h (_answer_type_head_r self) ->
  head_r t h self = (self, Ok (cell (_answer_type_head_r self) t h)).
Proof.
  intros Hp. unfold head_r.
  rewrite (getitem2_present fzero t h _ _ (cell_present _ _ _ Hp)).
  now rewrite set_head_r_same.
Qed.

Lemma head_body_yields (bound : Z) (self : evaluator) (t h : pystr) (c : Z)
    (acc : type_sums * locals) :
  observed self t h -> 1 <= c <= bound ->
  yields bound self (head_step self t acc (h, c)) (head_body t acc (h, c) self).
Proof.
  intros [Hem [Hf1 [Hp Hr]]] Hc. destruct acc as [ty loc].
  unfold head_body, head_step. cbn [fst snd].
  repeat first
    [ rewrite (bind_ok _ _ _ _ (head_em_present self t h Hem))
    | rewrite (bind_ok _ _ _ _ (head_f1_present self t h Hf1))
    | rewrite (bind_ok _ _ _ _ (head_p_present self t h Hp))
    | rewrite (bind_ok _ _ _ _ (head_r_present self t h Hr))
    | eapply yields_bind; [now apply truediv_yields|] ].
  apply yields_ret.
Qed.

Lemma head_steps_type_count (self : evaluator) (t : pystr) (hc : dict Z)
    (acc : type_sums * locals) :
  type_count (fst (fold_left (head_step self t) hc acc)) =
  type_count (fst acc) + dict_sum hc.
Proof.
  revert acc. induction hc as [|[h c] hc IH]; intros acc; simpl; [lia|].
  rewrite IH. cbn [head_step fst snd type_count]. lia.
Qed.

Lemma type_body_yields (bound : Z) (self : evaluator) (t : pystr) (hc : dict Z)
    (loc : locals) :
  (forall h c, In (h, c) hc -> observed self t h /\ 1 <= c <= bound) ->
  1 <= dict_sum hc <= bound ->
  yields bound self (type_step self loc (t, hc)) (type_body loc (t, hc) self).
Proof.
  intros Hcells Hsum. unfold type_body, type_step. cbn [fst snd].
  pose proof (head_steps_type_count self t hc (type_sums_init, loc)) as Hcount.
  unfold type_sums_init in *. cbn [fst type_count] in Hcount.
  eapply yields_bind.
  - apply for_each_yields. intros acc [h c] Hin.
    destruct (Hcells h c Hin) as [Hobs Hc]. now apply head_body_yields.
  - destruct (fold_left (head_step self t) hc _) as [ty loc1].
    cbn [fst snd] in *.
    repeat (eapply yields_bind; [apply truediv_yields; lia|]).
    apply yields_ret.
Qed.

Lemma per_head_body_yields (bound : Z) (self : evaluator) (h : pystr) (c : Z)
    (loc : locals) :
  1 <= c <= bound ->
  yields bound self (per_head_step loc (h, c)) (per_head_body loc (h, c) self).
Proof.
  intros Hc. unfold per_head_body, per_head_step. cbn [fst snd].
  destruct (getitem_default fzero h (em_per_head loc)) as [em_h em_d].
  eapply yields_bind; [now apply truediv_yields|].
  destruct (getitem_default fzero h (f1_per_head loc)) as [f1_h f1_d].
  eapply yields_bind; [now apply truediv_yields|].
  destruct (getitem_default fzero h (p_per_head loc)) as [p_h p_d].
  eapply yields_bind; [now apply truediv_yields|].
  destruct (getitem_default fzero h (r_per_head loc)) as [r_h r_d].
  eapply yields_bind; [now apply truediv_yields|].
  apply yields_ret.
Qed.
End Yields.

Section GetMetric.
Context `{Float}.

Lemma counted_add_item (d : dict Z) (total : Z) (h : pystr) (c : Z) :
  counted d total -> 1 <= c -> counted (add_item Z.add 0 h c d) (total + c).
Proof.
  intros [Hpos Hsum] Hc. split.
  - intros h' c' Hin. rewrite add_item_setitem in Hin.
    apply in_setitem in Hin. destruct Hin as [[_ ->]|Hin]; [|now apply (Hpos h')].
    destruct (lookup h d) as [v|] eqn:E; [|lia].
    apply lookup_in in E. apply Hpos in E. lia.
  - rewrite dict_sum_add_item. lia.
Qed.

Lemma head_steps_counted (self : evaluator) (t : pystr) (hc : dict Z)
    (acc : type_sums * locals) (total : Z) :
  counted (count_per_head (snd acc)) total ->
  (forall h c, In (h, c) hc -> 1 <= c) ->
  counted (count_per_head (snd (fold_left (head_step self t) hc acc)))
    (total + dict_sum hc).
Proof.
  revert acc total. induction hc as [|[h c] hc IH]; intros acc total Hc Hpos.
  - simpl. now rewrite Z.add_0_r.
  - cbn [fold_left dict_sum fold_right snd].
    replace (total + (c + fold_right (fun kv acc0 => snd kv + acc0) 0 hc))
      with ((total + c) + dict_sum hc) by (unfold dict_sum; lia).
    apply IH.
    + cbn [head_step snd fst count_per_head].
      apply counted_add_item; [exact Hc|]. apply (Hpos h). now left.
    + intros h' c' Hin. apply (Hpos h'). now right.
Qed.

Lemma type_steps_counted (self : evaluator) (d : dict (dict Z)) (loc : locals)
    (total : Z) :
  counted (count_per_head loc) total ->
  (forall t hc, In (t, hc) d -> forall h c, In (h, c) hc -> 1 <= c) ->
  counted (count_per_head (fold_left (type_step self) d loc)) (total + cells_sum d).
Proof.
  revert loc total. induction d as [|[t hc] d IH]; intros loc total Hc Hpos.
  - simpl. now rewrite Z.add_0_r.
  - cbn [fold_left cells_sum fold_right snd].
    replace (total + (dict_sum hc +
               fold_right (fun entry acc => dict_sum (snd entry) + acc) 0 d))
      with ((total + dict_sum hc) + cells_sum d) by (unfold cells_sum; lia).
    apply IH.
    + unfold type_step. cbn [count_per_head fst snd].
      apply head_steps_counted; [exact Hc|]. apply (Hpos t). now left.
    + intros t' hc' Hin. apply (Hpos t'). now right.
Qed.

(** What [consistent] says of the entries [get_metric] iterates over. *)
Lemma consistent_entries (self : evaluator) (t : pystr) (hc : dict Z) :
  consistent self -> In (t, hc) (_answer_type_head_count self) ->
  hc <> [] /\
  forall h c, In (h, c) hc -> 1 <= c /\ observed self t h.
Proof.
  intros Hc Hin.
  pose proof (in_lookup t hc _ (types_distinct self Hc) Hin) as Et.
  destruct (heads_distinct self Hc t hc Et) as [Hnd Hne].
  split; [exact Hne|]. intros h c Hh.
  apply (cells_observed self Hc t h c).
  unfold lookup2. rewrite Et. now apply in_lookup.
Qed.

Lemma consistent_positive (self : evaluator) :
  consistent self ->
  forall t hc, In (t, hc) (_answer_type_head_count self) ->
  forall h c, In (h, c) hc -> 1 <= c.
Proof.
  intros Hc t hc Hin h c Hh.
  destruct (consistent_entries self t hc Hc Hin) as [_ Hcells].
  now apply (Hcells h c).
Qed.

Lemma average_yields (self : evaluator) (total : float) :
  yields (_count self) self
    (if 0 <? _count self then VFloat (mean total (_count self)) else VInt 0)
    (lift (average total (_count self)) self).
Proof.
  unfold average, lift. destruct (0 <? _count self) eqn:E; [|now left].
  apply Z.ltb_lt in E.
  destruct (truediv_in_range total (_count self)) as [Ed|[Ed Ho]]; [lia| |];
    rewrite Ed; cbn [rbind].
  - now left.
  - right. split; [reflexivity|]. exists (_count self). split; [lia|exact Ho].
Qed.

Lemma bind_cases {A B} (n : Z) (self : evaluator) (m : M A) (k : A -> M B) (a : A) :
  yields n self a (m self) ->
  bind m k self = k a self \/
  (bind m k self = (self, Raise OverflowError) /\ overflows n).
Proof.
  unfold yields, bind. intros [E|[E Ho]]; rewrite E; [now left|now right].
Qed.

Lemma bind_gets {A B} (f : evaluator -> A) (k : A -> M B) (self : evaluator) :
  bind (gets f) k self = k (f self) self.
Proof. reflexivity. Qed.

Ltac step_with H :=
  match goal with
  | |- bind ?m ?k ?s = _ \/ _ =>
      destruct (bind_cases _ s m k _ H) as [->|?]; [|now right]
  end.

(** On a consistent evaluator [get_metric] returns the views computed from
    the state, resets if asked to, and otherwise changes nothing; the one way
    out is a count that does not convert to a float. *)
Lemma get_metric_yields (reset_flag : bool) (self : evaluator) :
  consistent self ->
  get_metric reset_flag self =
    ((if reset_flag then init else self), Ok (views self)) \/
  (get_metric reset_flag self = (self, Raise OverflowError) /\
   overflows (_count self)).
Proof.
  intros Hc. unfold get_metric.
  step_with (average_yields self (_total_em self)).
  step_with (average_yields self (_total_f1 self)).
  step_with (average_yields self (_total_p self)).
  step_with (average_yields self (_total_r self)).
  rewrite bind_gets.
  assert (Hsum : cells_sum (_answer_type_head_count self) = _count self)
    by (symmetry; apply (count_is_sum self Hc)).
  assert (Htypes : yields (_count self) self (after_types self)
                     (for_each type_body (_answer_type_head_count self)
                        locals_init self)).
  { apply for_each_yields. intros loc [t hc] Hin.
    destruct (consistent_entries self t hc Hc Hin) as [Hne Hcells].
    pose proof (cells_sum_bounds _ t hc (consistent_positive self Hc) Hin) as Hb.
    assert (Hpos : forall h c, In (h, c) hc -> 1 <= c)
      by (intros h c Hh; now apply (Hcells h c)).
    apply type_body_yields.
    - intros h c Hh. split; [now apply (Hcells h c)|].
      pose proof (dict_sum_bounds hc h c Hpos Hh). lia.
    - destruct hc as [|[h c] hc]; [congruence|].
      pose proof (dict_sum_bounds _ h c Hpos (or_introl eq_refl)). lia. }
  step_with Htypes.
  assert (Hcounted : counted (count_per_head (after_types self)) (_count self)).
  { rewrite <- Hsum. unfold after_types.
    apply (type_steps_counted self _ locals_init 0).
    - split; [intros h c []|reflexivity].
    - apply (consistent_positive self Hc). }
  assert (Hheads : yields (_count self) self (after_heads self)
                     (for_each per_head_body (count_per_head (after_types self))
                        (after_types self) self)).
  { apply for_each_yields. intros loc [h c] Hin.
    apply per_head_body_yields. destruct Hcounted as [Hpos Htotal].
    rewrite <- Htotal. now apply (dict_sum_bounds _ h c). }
  step_with Hheads.
  left. destruct reset_flag; reflexivity.
Qed.
End GetMetric.

(** ** The invariant of the evaluator *)

Section Invariant.
Context `{Float}.

Lemma consistent_init : consistent init.
Proof.
  split; cbn.
  - reflexivity.
  - constructor.
  - discriminate.
  - discriminate.
Qed.

Lemma credit_count (s : scores) (t h : pystr) (self : evaluator) :
  _count (credit s t h self) = _count self + 1.
Proof. destruct s as [[[em f1] p] r]. reflexivity. Qed.

Lemma credit_head_count (s : scores) (t h : pystr) (self : evaluator) :
  _answer_type_head_count (credit s t h self) =
  add_item2 Z.add 0 t h 1 (_answer_type_head_count self).
Proof. destruct s as [[[em f1] p] r]. reflexivity. Qed.

Lemma observed_credit (s : scores) (t h t' h' : pystr) (self : evaluator) :
  observed self t' h' \/ (t' = t /\ h' = h) ->
  observed (credit s t h self) t' h'.
Proof.
  destruct s as [[[em f1] p] r]. unfold observed. cbn.
  intros [[Hem [Hf1 [Hp Hr]]]|Heq];
    repeat split; apply present_add_item2; auto.
Qed.

Lemma consistent_credit (s : scores) (t h : pystr) (self : evaluator) :
  consistent self -> consistent (credit s t h self).
Proof.
  intros Hc. split.
  - rewrite credit_count, credit_head_count, cells_sum_add_item2.
    now rewrite (count_is_sum self Hc).
  - rewrite credit_head_count. apply nodup_add_item2, (types_distinct self Hc).
  - rewrite credit_head_count. intros t' hc'. rewrite lookup_add_item2.
    destruct (pystr_eqb t' t) eqn:E; [|apply (heads_distinct self Hc)].
    intros Ehc. inversion Ehc. split; [|apply add_item_not_nil].
    apply nodup_add_item.
    destruct (lookup t (_answer_type_head_count self)) as [inner|] eqn:Et;
      [|constructor].
    apply (heads_distinct self Hc t inner Et).
  - rewrite credit_head_count. intros t' h' c. rewrite lookup2_add_item2.
    destruct (pystr_eqb t' t && pystr_eqb h' h) eqn:E.
    + apply andb_true_iff in E. destruct E as [Et Eh].
      apply pystr_eqb_eq in Et, Eh. subst t' h'. intros Ec. inversion Ec.
      split; [|apply observed_credit; now right].
      destruct (lookup2 t h (_answer_type_head_count self)) as [c0|] eqn:E0; [|lia].
      destruct (cells_observed self Hc t h c0 E0). lia.
    + intros Ec. destruct (cells_observed self Hc t' h' c Ec) as [Hpos Hobs].
      split; [exact Hpos|]. apply observed_credit. now left.
Qed.

Context {annotation prediction : Type}.
Variable answer_json_to_strings : annotation -> result (list pystr * pystr).
Variable compute_em_and_f1 : prediction -> list pystr -> result scores.

(** A call raises and changes nothing, or returns and credits one example. *)
Lemma call_cases (pred : prediction) (ground_truths : list annotation)
    (ability : pystr) (self : evaluator) :
  (exists e,
      call answer_json_to_strings compute_em_and_f1 pred ground_truths ability self =
      (self, Raise e)) \/
  (exists s t g,
      call answer_json_to_strings compute_em_and_f1 pred ground_truths ability self =
      (credit s t ability self, Ok (s, g))).
Proof.
  destruct (call answer_json_to_strings compute_em_and_f1 pred ground_truths
              ability self) as [self' [[s g]|e]] eqn:E.
  - right. rewrite call_stages in E.
    destruct (map_result answer_json_to_strings ground_truths); [|discriminate].
    destruct (unzip_pairs a) as [[strings types]|]; [|discriminate].
    destruct (metric_max_over_ground_truths compute_em_and_f1 pred strings)
      as [[s' idx]|]; [|discriminate].
    destruct (py_index types idx) as [t|]; [|discriminate].
    destruct (py_index ground_truths idx); [|discriminate].
    inversion E; subst. now exists s, t, g.
  - left. exists e. apply call_raises in E. destruct E as [-> _]. reflexivity.
Qed.

Local Notation "'STEP'" := (step answer_json_to_strings compute_em_and_f1).

Lemma step_consistent (self : evaluator) (n : Z) (o : op) :
  consistent self -> _count self = n ->
  consistent (fst (STEP (self, n) o)) /\
  _count (fst (STEP (self, n) o)) = snd (STEP (self, n) o).
Proof.
  intros Hc Hn. destruct o as [pred gts ability|pred gts|reset_flag|]; cbn [step].
  - destruct (call_cases pred gts ability self) as [[e E]|[s [t [g E]]]]; rewrite E.
    + now split.
    + cbn [fst snd]. split; [now apply consistent_credit|].
      rewrite credit_count. lia.
  - now split.
  - destruct (get_metric_yields reset_flag self Hc) as [E|[E _]]; rewrite E.
    + cbn [fst snd]. destruct reset_flag; split; auto using consistent_init.
    + now split.
  - split; [apply consistent_init|reflexivity].
Qed.

Lemma steps_consistent (ops : list op) (self : evaluator) (n : Z) :
  consistent self -> _count self = n ->
  consistent (fst (fold_left STEP ops (self, n))) /\
  _count (fst (fold_left STEP ops (self, n))) = snd (fold_left STEP ops (self, n)).
Proof.
  revert self n. induction ops as [|o ops IH]; intros self n Hc Hn; [now split|].
  cbn [fold_left].
  destruct (step_consistent self n o Hc Hn) as [Hc' Hn'].
  destruct (STEP (self, n) o) as [self' n']. now apply IH.
Qed.

Lemma history_consistent (ops : list op) :
  consistent (fst (history answer_json_to_strings compute_em_and_f1 ops)) /\
  _count (fst (history answer_json_to_strings compute_em_and_f1 ops)) =
  snd (history answer_json_to_strings compute_em_and_f1 ops).
Proof. apply steps_consistent; [apply consistent_init|reflexivity]. Qed.

(** C4.  After any operations on a fresh evaluator the top-level count is
    the number of calls that have returned since the construction or the last
    reset, and it is the sum of the counts of all the cells; every cell of the
    dictionary of counts counts at least one example and is there in the four
    dictionaries of sums. *)
Theorem count_is_calls_and_cells (ops : list op) :
  let self := fst (history answer_json_to_strings compute_em_and_f1 ops) in
  let calls := snd (history answer_json_to_strings compute_em_and_f1 ops) in
  _count self = calls /\
  cells_sum (_answer_type_head_count self) = calls /\
  forall t h c,
    lookup2 t h (_answer_type_head_count self) = Some c ->
    1 <= c /\
    (exists em, lookup2 t h (_answer_type_head_em self) = Some em) /\
    (exists f1, lookup2 t h (_answer_type_head_f1 self) = Some f1) /\
    (exists p, lookup2 t h (_answer_type_head_p self) = Some p) /\
    (exists r, lookup2 t h (_answer_type_head_r self) = Some r).
Proof.
  cbv zeta. destruct (history_consistent ops) as [Hc Hn].
  split; [exact Hn|]. split.
  - rewrite <- Hn. symmetry. apply (count_is_sum _ Hc).
  - intros t h c E. exact (cells_observed _ Hc t h c E).
Qed.

Lemma get_metric_returns (self : evaluator) (reset_flag : bool) :
  consistent self ->
  (forall k, 1 <= k <= _count self -> of_int k <> None) ->
  get_metric reset_flag self =
  ((if reset_flag then init else self), Ok (views self)).
Proof.
  intros Hc Hconv.
  destruct (get_metric_yields reset_flag self Hc) as [E|[_ [k [Hk Ho]]]];
    [exact E|].
  now destruct (Hconv k Hk).
Qed.

(** C7.  [get_metric] never raises [ZeroDivisionError] on an evaluator that
    operations on a fresh one lead to, and it returns whenever the counts up
    to the top-level count convert to floats. *)
Theorem get_metric_no_zero_division (ops : list op) (reset_flag : bool) :
  let self := fst (history answer_json_to_strings compute_em_and_f1 ops) in
  snd (get_metric reset_flag self) <> Raise ZeroDivisionError /\
  ((forall k, 1 <= k <= _count self -> of_int k <> None) ->
   get_metric reset_flag self =
   ((if reset_flag then init else self), Ok (views self))).
Proof.
  cbv zeta. destruct (history_consistent ops) as [Hc _]. split.
  - destruct (get_metric_yields reset_flag _ Hc) as [E|[E _]];
      rewrite E; discriminate.
  - now apply get_metric_returns.
Qed.
End Invariant.

Section Overall.
Context `{Float}.
Context {annotation prediction : Type}.
Variable answer_json_to_strings : annotation -> result (list pystr * pystr).
Variable compute_em_and_f1 : prediction -> list pystr -> result scores.

(** C5, as amended.  On an evaluator that operations on a fresh one lead to,
    and whose counts convert to floats, [get_metric] returns; the overall view
    is the tuple of the four top-level sums each divided by the top-level
    count, or of four [0] when the count is not positive; it has four
    components and carries no support count. *)
Theorem overall_four_averages (ops : list op) (reset_flag : bool) :
  let self := fst (history answer_json_to_strings compute_em_and_f1 ops) in
  (forall k, 1 <= k <= _count self -> of_int k <> None) ->
  exists overall_view per_type_per_head per_type per_head,
    get_metric reset_flag self =
    ((if reset_flag then init else self),
     Ok (overall_view, per_type_per_head, per_type, per_head)) /\
    (0 < _count self ->
     exists n, of_int (_count self) = Some n /\
               overall_view =
               [VFloat (fdiv (_total_em self) n); VFloat (fdiv (_total_f1 self) n);
                VFloat (fdiv (_total_p self) n); VFloat (fdiv (_total_r self) n)]) /\
    (~ 0 < _count self -> overall_view = [VInt 0; VInt 0; VInt 0; VInt 0]) /\
    length overall_view = 4%nat /\
    support_count overall_view = None.
Proof.
  cbv zeta.
  destruct (history_consistent answer_json_to_strings compute_em_and_f1 ops)
    as [Hc _].
  set (self := fst (history answer_json_to_strings compute_em_and_f1 ops)) in *.
  intros Hconv.
  pose proof (get_metric_returns self reset_flag Hc Hconv) as Hret.
  unfold views in Hret.
  eexists _, _, _, _. split; [exact Hret|].
  unfold overall, mean, to_float. repeat split.
  - intros Hpos.
    destruct (of_int (_count self)) as [n|] eqn:En.
    + exists n. split; [reflexivity|].
      apply Z.ltb_lt in Hpos. now rewrite Hpos.
    + exfalso. apply (Hconv (_count self)); [lia|exact En].
  - intros Hnpos.
    replace (0 <? _count self) with false by (symmetry; apply Z.ltb_ge; lia).
    reflexivity.
Qed.
End Overall.

Section OverallExamples.
Import Fixture Scenario.
Local Existing Instance b64.

Example empty_run_overall :
  get_metric true init = (init, Ok ([VInt 0; VInt 0; VInt 0; VInt 0], [], [], [])).
Proof. reflexivity. Qed.

Lemma converts_up_to_two (k : Z) : 1 <= k <= 2 -> of_int k <> None.
Proof.
  intros Hk. assert (Hcases : k = 1 \/ k = 2) by lia.
  destruct Hcases; subst; discriminate.
Qed.

(** The scenario of the specification: overall (0.5, 0.75, 0.75, 0.75). *)
Example scenario_overall :
  overall (after [number_example; span_example]) =
  [VFloat half; VFloat three_quarters; VFloat three_quarters; VFloat three_quarters].
Proof. reflexivity. Qed.

(** C5 fails as stated: after one example the overall view has no fifth
    component to hold the count. *)
Lemma overall_without_support_count :
  ~ exists m,
      snd (get_metric false (after [number_example])) = Ok m /\
      support_count (fst (fst (fst m))) =
      Some (VInt (_count (after [number_example]))).
Proof.
  intros [m [E Hs]].
  destruct (history_consistent normalised carried [number_example]) as [Hc _].
  assert (Hn : _count (after [number_example]) = 1) by reflexivity.
  unfold after in E, Hs, Hn.
  set (self := fst (history normalised carried [number_example])) in *.
  clearbody self.
  rewrite (get_metric_returns self false Hc) in E.
  - cbn [snd] in E. injection E as E. rewrite <- E in Hs.
    unfold views, overall, support_count in Hs. cbn [fst nth_error] in Hs.
    discriminate Hs.
  - intros k Hk. apply converts_up_to_two. lia.
Qed.

Lemma overall_four_averages_witness :
  exists overall_view per_type_per_head per_type per_head,
    get_metric false (after [number_example; span_example]) =
    (after [number_example; span_example],
     Ok (overall_view, per_type_per_head, per_type, per_head)) /\
    (0 < _count (after [number_example; span_example]) ->
     exists n, of_int (_count (after [number_example; span_example])) = Some n /\
               overall_view =
               [VFloat (fdiv (_total_em (after [number_example; span_example])) n);
                VFloat (fdiv (_total_f1 (after [number_example; span_example])) n);
                VFloat (fdiv (_total_p (after [number_example; span_example])) n);
                VFloat (fdiv (_total_r (after [number_example; span_example])) n)]) /\
    (~ 0 < _count (after [number_example; span_example]) ->
     overall_view = [VInt 0; VInt 0; VInt 0; VInt 0]) /\
    length overall_view = 4%nat /\
    support_count overall_view = None.
Proof.
  apply (overall_four_averages normalised carried
           [number_example; span_example] false).
  exact converts_up_to_two.
Defined.

Lemma get_metric_no_zero_division_witness :
  snd (get_metric false (after [number_example; span_example])) <>
    Raise ZeroDivisionError /\
  get_metric false (after [number_example; span_example]) =
  (after [number_example; span_example],
   Ok (views (after [number_example; span_example]))).
Proof.
  destruct (get_metric_no_zero_division normalised carried
              [number_example; span_example] false) as [Hz Hret].
  split; [exact Hz|]. apply Hret. exact converts_up_to_two.
Defined.
End OverallExamples.

(** ** Adding cells and merging *)

Section MergeCellsFacts.
Context {V : Type}.
Variable plus : V -> V -> V.
Variable dflt : V.
Implicit Types (d : dict (dict V)) (t h : pystr) (cs : list (pystr * pystr * V)).

Lemma add_item2_setitem t h (x : V) d :
  add_item2 plus dflt t h x d =
  setitem t (add_item plus dflt h x
               (match lookup t d with Some inner => inner | None => [] end)) d.
Proof.
  unfold add_item2. destruct (lookup t d) as [inner|] eqn:E.
  - now rewrite (getitem_default_present [] t inner d E).
  - rewrite (getitem_default_missing [] t d E). apply setitem_setitem.
Qed.

Lemma keyed_nil : keyed (@nil (pystr * dict V)).
Proof. split; [constructor|intros t inner []]. Qed.

Lemma keyed_add_item2 t h (x : V) d :
  keyed d -> keyed (add_item2 plus dflt t h x d).
Proof.
  intros [Hout Hin]. split; [now apply nodup_add_item2|].
  intros t' inner'. rewrite add_item2_setitem. intros Hi.
  apply in_setitem in Hi. destruct Hi as [[_ ->]|Hi]; [|now apply (Hin t')].
  apply nodup_add_item.
  destruct (lookup t d) as [inner|] eqn:E; [|constructor].
  apply (Hin t). now apply lookup_in.
Qed.

Lemma keyed_add_cells cs d : keyed d -> keyed (add_cells plus dflt cs d).
Proof.
  revert d. induction cs as [|c cs IH]; intros d Hd; [exact Hd|].
  apply IH. now apply keyed_add_item2.
Qed.

Lemma lookup2_add_cells t h cs d :
  lookup2 t h (add_cells plus dflt cs d) = cell_after plus dflt t h cs (lookup2 t h d).
Proof.
  revert d. induction cs as [|[[t0 h0] x] cs IH]; intros d; [reflexivity|].
  cbn [add_cells cell_after fold_left fst snd].
  fold (add_cells plus dflt cs (add_item2 plus dflt t0 h0 x d)).
  rewrite IH, lookup2_add_item2. unfold cell_after. f_equal.
  destruct (pystr_eqb t t0 && pystr_eqb h h0) eqn:E; [|reflexivity].
  apply andb_true_iff in E. destruct E as [Et Eh].
  apply pystr_eqb_eq in Et, Eh. now subst.
Qed.

Lemma in_cells t h (v : V) d :
  In (t, h, v) (cells d) <-> exists inner, In (t, inner) d /\ In (h, v) inner.
Proof.
  unfold cells. rewrite in_flat_map. split.
  - intros [[t0 inner] [Hd Hi]]. cbn [fst snd] in Hi.
    apply in_map_iff in Hi. destruct Hi as [[h0 v0] [E Hi]]. cbn [fst snd] in E.
    inversion E; subst. now exists inner.
  - intros [inner [Hd Hi]]. exists (t, inner). split; [exact Hd|].
    cbn [fst snd]. apply in_map_iff. now exists (h, v).
Qed.

Lemma lookup2_in_cells t h (v : V) d :
  keyed d -> lookup2 t h d = Some v <-> In (t, h, v) (cells d).
Proof.
  intros [Hout Hin]. rewrite in_cells. unfold lookup2. split.
  - destruct (lookup t d) as [inner|] eqn:E; [|discriminate].
    intros Eh. exists inner. split; now apply lookup_in.
  - intros [inner [Hd Hi]]. rewrite (in_lookup t inner d Hout Hd).
    apply in_lookup; [now apply (Hin t)|exact Hi].
Qed.

Lemma nodup_cells d : keyed d -> NoDup (map fst (cells d)).
Proof.
  induction d as [|[t inner] d IH]; intros [Hout Hin]; [constructor|].
  cbn [cells flat_map fst snd]. rewrite map_app, map_map. cbn [fst].
  inversion Hout as [|? ? Ht Hd]; subst.
  apply NoDup_app.
  - assert (Hi : NoDup (keys inner)) by (apply (Hin t); now left).
    clear -Hi. induction inner as [|[h v] inner IH]; [constructor|].
    inversion Hi as [|? ? Hh Hrest]; subst. cbn [map fst]. constructor.
    + intros Hm. apply Hh. apply in_map_iff in Hm.
      destruct Hm as [[h' v'] [E Hm]]. cbn [fst] in E. inversion E; subst.
      apply in_map_iff. now exists (h, v').
    + now apply IH.
  - apply IH. split; [exact Hd|]. intros t' inner' Hi. apply (Hin t'). now right.
  - intros [t' h'] Hl Hr.
    apply in_map_iff in Hl. destruct Hl as [[h0 v0] [E _]]. cbn [fst] in E.
    inversion E; subst.
    apply in_map_iff in Hr. destruct Hr as [[[t1 h1] v1] [E1 Hr]]. cbn [fst] in E1.
    inversion E1; subst.
    apply (in_cells t' h' v1 d) in Hr. destruct Hr as [inner1 [Hd1 _]].
    apply Ht. apply in_map_iff. now exists (t', inner1).
Qed.

Lemma cell_after_absent t h cs (o : option V) :
  (forall v, ~ In (t, h, v) cs) -> cell_after plus dflt t h cs o = o.
Proof.
  revert o. induction cs as [|[[t0 h0] x] cs IH]; intros o Habs; [reflexivity|].
  cbn [cell_after fold_left fst snd].
  destruct (pystr_eqb t t0 && pystr_eqb h h0) eqn:E.
  - apply andb_true_iff in E. destruct E as [Et Eh].
    apply pystr_eqb_eq in Et, Eh. subst. exfalso. apply (Habs x). now left.
  - apply IH. intros v Hv. apply (Habs v). now right.
Qed.

Lemma cell_after_nodup t h cs (o ov : option V) :
  NoDup (map fst cs) ->
  (forall v, In (t, h, v) cs <-> ov = Some v) ->
  cell_after plus dflt t h cs o =
  match ov with
  | Some y => Some (plus (match o with Some v => v | None => dflt end) y)
  | None => o
  end.
Proof.
  revert o. induction cs as [|[[t0 h0] x] cs IH]; intros o Hnd Hov.
  - destruct ov as [y|]; [|reflexivity]. now destruct (proj2 (Hov y) eq_refl).
  - cbn [cell_after fold_left fst snd].
    inversion Hnd as [|? ? Hk Hrest]; subst. cbn [fst] in Hk.
    destruct (pystr_eqb t t0 && pystr_eqb h h0) eqn:E.
    + apply andb_true_iff in E. destruct E as [Et Eh].
      apply pystr_eqb_eq in Et, Eh. subst t0 h0.
      rewrite (proj1 (Hov x) (or_introl eq_refl)).
      apply cell_after_absent. intros v Hv. apply Hk.
      apply in_map_iff. now exists (t, h, v).
    + apply IH; [exact Hrest|]. intros v. rewrite <- Hov. split; [now right|].
      intros [Eq|Hv]; [|exact Hv]. inversion Eq; subst.
      now rewrite !pystr_eqb_refl in E.
Qed.

(** A cell of the merged dictionary holds what [a] holds plus what [b]
    holds in that cell. *)
Lemma lookup2_merge_cells t h (a b : dict (dict V)) :
  keyed b ->
  lookup2 t h (merge_cells plus dflt a b) =
  match lookup2 t h b with
  | Some y =>
      Some (plus (match lookup2 t h a with Some v => v | None => dflt end) y)
  | None => lookup2 t h a
  end.
Proof.
  intros Hb. unfold merge_cells. fold (add_cells plus dflt (cells b) a).
  rewrite lookup2_add_cells.
  apply cell_after_nodup; [now apply nodup_cells|].
  intros v. symmetry. now apply lookup2_in_cells.
Qed.

Hypothesis plus_assoc : forall x y z, plus x (plus y z) = plus (plus x y) z.
Hypothesis plus_comm : forall x y, plus x y = plus y x.
Hypothesis plus_dflt_l : forall x, plus dflt x = x.

Lemma cell_after_perm t h cs cs' (o : option V) :
  Permutation cs cs' ->
  cell_after plus dflt t h cs o = cell_after plus dflt t h cs' o.
Proof.
  intros Hp. revert o.
  induction Hp as [|c cs cs' _ IH|c1 c2 cs|cs cs' cs'' _ IH1 _ IH2]; intros o.
  - reflexivity.
  - cbn [cell_after fold_left]. apply IH.
  - cbn [cell_after fold_left]. f_equal.
    destruct (pystr_eqb t (fst (fst c1)) && pystr_eqb h (snd (fst c1)));
      destruct (pystr_eqb t (fst (fst c2)) && pystr_eqb h (snd (fst c2)));
      try reflexivity.
    f_equal. rewrite <- !plus_assoc. f_equal. apply plus_comm.
  - now rewrite IH1.
Qed.

Lemma cell_after_app t h cs1 cs2 (o : option V) :
  cell_after plus dflt t h (cs1 ++ cs2) o =
  cell_after plus dflt t h cs2 (cell_after plus dflt t h cs1 o).
Proof. unfold cell_after. apply fold_left_app. Qed.

Lemma cell_after_from t h cs (o : option V) :
  cell_after plus dflt t h cs o =
  match cell_after plus dflt t h cs None with
  | Some y => Some (plus (match o with Some v => v | None => dflt end) y)
  | None => o
  end.
Proof.
  revert o. induction cs as [|[[t0 h0] x] cs IH]; intros o; [reflexivity|].
  cbn [cell_after fold_left fst snd].
  destruct (pystr_eqb t t0 && pystr_eqb h h0).
  - fold (cell_after plus dflt t h cs
            (Some (plus (match o with Some v => v | None => dflt end) x))).
    fold (cell_after plus dflt t h cs (Some (plus dflt x))).
    rewrite (IH (Some (plus (match o with Some v => v | None => dflt end) x))).
    rewrite (IH (Some (plus dflt x))).
    destruct (cell_after plus dflt t h cs None) as [y|].
    + now rewrite plus_dflt_l, plus_assoc.
    + now rewrite plus_dflt_l.
  - apply IH.
Qed.

(** Cells added by two evaluators and merged, and the same cells added by
    one evaluator in any order: the same value in every cell. *)
Lemma merge_cells_add_cells t h cs cs1 cs2 :
  Permutation cs (cs1 ++ cs2) ->
  lookup2 t h (merge_cells plus dflt (add_cells plus dflt cs1 [])
                 (add_cells plus dflt cs2 [])) =
  lookup2 t h (add_cells plus dflt cs []).
Proof.
  intros Hp.
  rewrite lookup2_merge_cells by (apply keyed_add_cells, keyed_nil).
  rewrite !lookup2_add_cells. cbn [lookup2 lookup].
  rewrite (cell_after_perm t h cs (cs1 ++ cs2) None Hp), cell_after_app.
  now rewrite (cell_after_from t h cs2 (cell_after plus dflt t h cs1 None)).
Qed.

Lemma fold_plus_perm (vs vs' : list V) (z : V) :
  Permutation vs vs' -> fold_left plus vs z = fold_left plus vs' z.
Proof.
  intros Hp. revert z.
  induction Hp as [|v vs vs' _ IH|v1 v2 vs|vs vs' vs'' _ IH1 _ IH2]; intros z.
  - reflexivity.
  - apply IH.
  - cbn [fold_left]. f_equal. rewrite <- !plus_assoc. f_equal. apply plus_comm.
  - now rewrite IH1.
Qed.

Lemma fold_plus_from (vs : list V) (z : V) :
  fold_left plus vs z = plus z (fold_left plus vs dflt).
Proof.
  revert z. induction vs as [|v vs IH]; intros z; cbn [fold_left].
  - now rewrite plus_comm, plus_dflt_l.
  - rewrite (IH (plus z v)), (IH (plus dflt v)), plus_dflt_l.
    now rewrite plus_assoc.
Qed.

(** Sums added by two evaluators and merged, and the same sums added by one
    evaluator in any order. *)
Lemma merge_sums (vs vs1 vs2 : list V) :
  Permutation vs (vs1 ++ vs2) ->
  plus (fold_left plus vs1 dflt) (fold_left plus vs2 dflt) = fold_left plus vs dflt.
Proof.
  intros Hp. rewrite (fold_plus_perm vs (vs1 ++ vs2) dflt Hp), fold_left_app.
  now rewrite (fold_plus_from vs2 (fold_left plus vs1 dflt)).
Qed.
End MergeCellsFacts.

(** ** Accumulation is a sequence of credits *)

Section Accumulate.
Context `{Float}.

(** The components of a credit. *)
Local Notation "'em_of'" := (fun c : scores * pystr * pystr => fst (fst (fst (fst (fst c))))).
Local Notation "'f1_of'" := (fun c : scores * pystr * pystr => snd (fst (fst (fst (fst c))))).
Local Notation "'p_of'" := (fun c : scores * pystr * pystr => snd (fst (fst (fst c)))).
Local Notation "'r_of'" := (fun c : scores * pystr * pystr => snd (fst (fst c))).
Local Notation "'keys_of'" := (fun c : scores * pystr * pystr => (snd (fst c), snd c)).

Lemma credit_all_totals (cs : list (scores * pystr * pystr)) (self : evaluator) :
  _total_em (credit_all cs self) = fold_left fadd (map em_of cs) (_total_em self) /\
  _total_f1 (credit_all cs self) = fold_left fadd (map f1_of cs) (_total_f1 self) /\
  _total_p (credit_all cs self) = fold_left fadd (map p_of cs) (_total_p self) /\
  _total_r (credit_all cs self) = fold_left fadd (map r_of cs) (_total_r self) /\
  _count (credit_all cs self) = fold_left Z.add (map (fun _ => 1) cs) (_count self).
Proof.
  revert self. induction cs as [|[[[[[em f1] p] r] t] h] cs IH]; intros self.
  - repeat split.
  - cbn [credit_all fold_left map fst snd].
    apply (IH (credit (em, f1, p, r) t h self)).
Qed.

Lemma credit_all_cells (cs : list (scores * pystr * pystr)) (self : evaluator) :
  _answer_type_head_em (credit_all cs self) =
    add_cells fadd fzero (map (fun c => (keys_of c, em_of c)) cs)
      (_answer_type_head_em self) /\
  _answer_type_head_f1 (credit_all cs self) =
    add_cells fadd fzero (map (fun c => (keys_of c, f1_of c)) cs)
      (_answer_type_head_f1 self) /\
  _answer_type_head_p (credit_all cs self) =
    add_cells fadd fzero (map (fun c => (keys_of c, p_of c)) cs)
      (_answer_type_head_p self) /\
  _answer_type_head_r (credit_all cs self) =
    add_cells fadd fzero (map (fun c => (keys_of c, r_of c)) cs)
      (_answer_type_head_r self) /\
  _answer_type_head_count (credit_all cs self) =
    add_cells Z.add 0 (map (fun c => (keys_of c, 1)) cs)
      (_answer_type_head_count self).
Proof.
  revert self. induction cs as [|[[[[[em f1] p] r] t] h] cs IH]; intros self.
  - repeat split.
  - cbn [credit_all fold_left map fst snd add_cells].
    apply (IH (credit (em, f1, p, r) t h self)).
Qed.

Context {annotation prediction : Type}.
Variable answer_json_to_strings : annotation -> result (list pystr * pystr).
Variable compute_em_and_f1 : prediction -> list pystr -> result scores.

Local Notation "'CREDITED'" := (credited answer_json_to_strings compute_em_and_f1).
Local Notation "'ACCUMULATE'" := (accumulate answer_json_to_strings compute_em_and_f1).

(** What a call does to the evaluator is what it credits. *)
Lemma call_credited (x : example) (self : evaluator) :
  fst (call answer_json_to_strings compute_em_and_f1
         (fst (fst x)) (snd (fst x)) (snd x) self) =
  credit_all (CREDITED x) self.
Proof.
  destruct x as [[pred gts] ability]. cbn [fst snd].
  destruct (call answer_json_to_strings compute_em_and_f1 pred gts ability self)
    as [self' out] eqn:E.
  pose proof E as E'. rewrite call_stages in E'. unfold credited. cbn [fst snd].
  destruct (map_result answer_json_to_strings gts) as [pairs|];
    [|now inversion E'].
  destruct (unzip_pairs pairs) as [[strings types]|]; [|now inversion E'].
  destruct (metric_max_over_ground_truths compute_em_and_f1 pred strings)
    as [[s idx]|]; [|now inversion E'].
  destruct (py_index types idx) as [t|e].
  - destruct (py_index gts idx); now inversion E'.
  - inversion E'; subst. apply call_raises in E. now destruct E as [-> _].
Qed.

Lemma accumulate_from (xs : list example) (self : evaluator) :
  fold_left
    (fun self x =>
       fst (call answer_json_to_strings compute_em_and_f1
              (fst (fst x)) (snd (fst x)) (snd x) self)) xs self =
  credit_all (flat_map CREDITED xs) self.
Proof.
  revert self. induction xs as [|x xs IH]; intros self; [reflexivity|].
  cbn [fold_left flat_map]. rewrite IH, call_credited.
  unfold credit_all. now rewrite fold_left_app.
Qed.

Lemma accumulate_credit_all (xs : list example) :
  ACCUMULATE xs = credit_all (flat_map CREDITED xs) init.
Proof. apply accumulate_from. Qed.

Lemma credited_perm (xs xs1 xs2 : list example) :
  Permutation xs (xs1 ++ xs2) ->
  Permutation (flat_map CREDITED xs)
    (flat_map CREDITED xs1 ++ flat_map CREDITED xs2).
Proof.
  intros Hp. rewrite <- flat_map_app. now apply Permutation_flat_map.
Qed.

(** C9, as amended.  For examples split in two parts and taken in any
    order, merging the evaluators of the two parts gives the counts of the
    evaluator of all the examples, at the top level and in every cell; it
    gives its sums too, at the top level and in every cell, when the addition
    of scores is associative and commutative with 0.0 as identity. *)
Theorem merge_is_accumulate (xs xs1 xs2 : list example) :
  Permutation xs (xs1 ++ xs2) ->
  same_counts (merge (ACCUMULATE xs1) (ACCUMULATE xs2)) (ACCUMULATE xs) /\
  (ExactSums ->
   same_state (merge (ACCUMULATE xs1) (ACCUMULATE xs2)) (ACCUMULATE xs)).
Proof.
  intros Hp. apply credited_perm in Hp. rewrite !accumulate_credit_all.
  set (cs := flat_map CREDITED xs) in *.
  set (cs1 := flat_map CREDITED xs1) in *.
  set (cs2 := flat_map CREDITED xs2) in *.
  clearbody cs cs1 cs2.
  destruct (credit_all_totals cs init) as [Tem [Tf1 [Tp [Tr Tn]]]].
  destruct (credit_all_totals cs1 init) as [Tem1 [Tf11 [Tp1 [Tr1 Tn1]]]].
  destruct (credit_all_totals cs2 init) as [Tem2 [Tf12 [Tp2 [Tr2 Tn2]]]].
  destruct (credit_all_cells cs init) as [Cem [Cf1 [Cp [Cr Cn]]]].
  destruct (credit_all_cells cs1 init) as [Cem1 [Cf11 [Cp1 [Cr1 Cn1]]]].
  destruct (credit_all_cells cs2 init) as [Cem2 [Cf12 [Cp2 [Cr2 Cn2]]]].
  assert (Hcounts : same_counts (merge (credit_all cs1 init) (credit_all cs2 init))
                      (credit_all cs init)).
  { split; cbn [merge _count _answer_type_head_count].
    - rewrite Tn, Tn1, Tn2. cbn [init _count].
      apply (merge_sums Z.add 0 Z.add_assoc Z.add_comm Z.add_0_l).
      rewrite <- map_app. now apply Permutation_map.
    - intros t h. rewrite Cn, Cn1, Cn2. cbn [init _answer_type_head_count].
      apply (merge_cells_add_cells Z.add 0 Z.add_assoc Z.add_comm Z.add_0_l).
      rewrite <- map_app. now apply Permutation_map. }
  split; [exact Hcounts|]. intros Hexact. split; [|exact Hcounts].
  assert (Hsum : forall f : scores * pystr * pystr -> float,
             fadd (fold_left fadd (map f cs1) fzero) (fold_left fadd (map f cs2) fzero) =
             fold_left fadd (map f cs) fzero).
  { intros f. apply (merge_sums fadd fzero fadd_assoc fadd_comm fadd_zero_l).
    rewrite <- map_app. now apply Permutation_map. }
  assert (Hcell : forall (f : scores * pystr * pystr -> pystr * pystr * float) t h,
             lookup2 t h (merge_cells fadd fzero (add_cells fadd fzero (map f cs1) [])
                            (add_cells fadd fzero (map f cs2) [])) =
             lookup2 t h (add_cells fadd fzero (map f cs) [])).
  { intros f t h.
    apply (merge_cells_add_cells fadd fzero fadd_assoc fadd_comm fadd_zero_l).
    rewrite <- map_app. now apply Permutation_map. }
  unfold same_sums.
  cbn [merge _total_em _total_f1 _total_p _total_r _answer_type_head_em
       _answer_type_head_f1 _answer_type_head_p _answer_type_head_r].
  rewrite Tem, Tem1, Tem2, Tf1, Tf11, Tf12, Tp, Tp1, Tp2, Tr, Tr1, Tr2.
  rewrite Cem, Cem1, Cem2, Cf1, Cf11, Cf12, Cp, Cp1, Cp2, Cr, Cr1, Cr2.
  cbn [init _total_em _total_f1 _total_p _total_r _answer_type_head_em
       _answer_type_head_f1 _answer_type_head_p _answer_type_head_r].
  repeat split; try apply Hsum; apply Hcell.
Qed.
End Accumulate.

#[export] Instance exact_sums : @ExactSums exact.
Proof.
  split; cbn [fadd fzero exact]; intros.
  - apply Qcplus_assoc.
  - apply Qcplus_comm.
  - apply Qcplus_0_l.
Qed.

Section MergeExamples.
Import Fixture.

(** C9 fails as stated on binary64: with F1 scores 0.1, 0.2 and 0.3 one
    evaluator sums to 0.6000000000000001, and the evaluators of [0.1] and of
    [0.2, 0.3] merge to 0.6. *)
Lemma merge_rounds_differently :
  ~ same_state
      (merge (accumulate normalised carried [Rounding.scored 1])
             (accumulate normalised carried [Rounding.scored 2; Rounding.scored 3]))
      (accumulate normalised carried
         [Rounding.scored 1; Rounding.scored 2; Rounding.scored 3]).
Proof.
  intros [[_ [Hf1 _]] _]. vm_compute in Hf1. discriminate Hf1.
Qed.

Example one_evaluator_total_f1 :
  _total_f1 (accumulate normalised carried
               [Rounding.scored 1; Rounding.scored 2; Rounding.scored 3]) =
  S754_finite false 5404319552844596 (-53).
Proof. vm_compute. reflexivity. Qed.

Example merged_total_f1 :
  _total_f1 (merge (accumulate normalised carried [Rounding.scored 1])
               (accumulate normalised carried [Rounding.scored 2; Rounding.scored 3])) =
  S754_finite false 5404319552844595 (-53).
Proof. vm_compute. reflexivity. Qed.

Lemma merge_is_accumulate_witness :
  same_counts
    (merge (accumulate Exact.normalised Exact.carried [Exact.scored 1])
           (accumulate Exact.normalised Exact.carried [Exact.scored 2; Exact.scored 3]))
    (accumulate Exact.normalised Exact.carried
       [Exact.scored 2; Exact.scored 1; Exact.scored 3]) /\
  same_state
    (merge (accumulate Exact.normalised Exact.carried [Exact.scored 1])
           (accumulate Exact.normalised Exact.carried [Exact.scored 2; Exact.scored 3]))
    (accumulate Exact.normalised Exact.carried
       [Exact.scored 2; Exact.scored 1; Exact.scored 3]).
Proof.
  destruct (merge_is_accumulate Exact.normalised Exact.carried
              [Exact.scored 2; Exact.scored 1; Exact.scored 3]
              [Exact.scored 1] [Exact.scored 2; Exact.scored 3]
              (perm_swap _ _ _)) as [Hcounts Hstate].
  split; [exact Hcounts|exact (Hstate exact_sums)].
Defined.
End MergeExamples.

(** ** The loops of [get_metric], field by field *)

Section LoopFields.
Context `{Float}.
Variable self : evaluator.

Lemma head_steps_fields (t : pystr) (hc : dict Z) (acc : type_sums * locals) :
  let res := fold_left (head_step self t) hc acc in
  scores_per_answer_type_and_head (snd res) =
    cell_tuples self (entry_cells t hc) (scores_per_answer_type_and_head (snd acc)) /\
  scores_per_answer_type (snd res) = scores_per_answer_type (snd acc) /\
  scores_per_head (snd res) = scores_per_head (snd acc) /\
  em_per_head (snd res) =
    per_head_sums (_answer_type_head_em self) (entry_cells t hc) (em_per_head (snd acc)) /\
  f1_per_head (snd res) =
    per_head_sums (_answer_type_head_f1 self) (entry_cells t hc) (f1_per_head (snd acc)) /\
  p_per_head (snd res) =
    per_head_sums (_answer_type_head_p self) (entry_cells t hc) (p_per_head (snd acc)) /\
  r_per_head (snd res) =
    per_head_sums (_answer_type_head_r self) (entry_cells t hc) (r_per_head (snd acc)) /\
  count_per_head (snd res) =
    per_head_counts (entry_cells t hc) (count_per_head (snd acc)).
Proof.
  revert acc. induction hc as [|[h c] hc IH]; intros acc.
  - cbv zeta. repeat split.
  - cbv zeta. cbn [fold_left entry_cells map].
    fold (entry_cells t hc).
    exact (IH (head_step self t acc (h, c))).
Qed.

Lemma head_steps_sums (t : pystr) (hc : dict Z) (acc : type_sums * locals) :
  let res := fold_left (head_step self t) hc acc in
  type_em (fst res) =
    fold_left (fun a hv => fadd a (cell (_answer_type_head_em self) t (fst hv))) hc
      (type_em (fst acc)) /\
  type_f1 (fst res) =
    fold_left (fun a hv => fadd a (cell (_answer_type_head_f1 self) t (fst hv))) hc
      (type_f1 (fst acc)) /\
  type_p (fst res) =
    fold_left (fun a hv => fadd a (cell (_answer_type_head_p self) t (fst hv))) hc
      (type_p (fst acc)) /\
  type_r (fst res) =
    fold_left (fun a hv => fadd a (cell (_answer_type_head_r self) t (fst hv))) hc
      (type_r (fst acc)).
Proof.
  revert acc. induction hc as [|[h c] hc IH]; intros acc.
  - cbv zeta. repeat split.
  - cbv zeta. cbn [fold_left]. exact (IH (head_step self t acc (h, c))).
Qed.

Lemma type_step_tuple (loc : locals) (t : pystr) (hc : dict Z) :
  scores_per_answer_type (type_step self loc (t, hc)) =
  setitem t (type_tuple self (t, hc)) (scores_per_answer_type loc).
Proof.
  unfold type_step. cbn [fst snd scores_per_answer_type].
  destruct (head_steps_fields t hc (type_sums_init, loc)) as [_ [Ht _]].
  destruct (head_steps_sums t hc (type_sums_init, loc)) as [Eem [Ef1 [Ep Er]]].
  cbv zeta in *. rewrite Ht, Eem, Ef1, Ep, Er, head_steps_type_count.
  reflexivity.
Qed.

Lemma type_steps_fields (entries : dict (dict Z)) (loc : locals) :
  let res := fold_left (type_step self) entries loc in
  scores_per_answer_type_and_head res =
    cell_tuples self (cells entries) (scores_per_answer_type_and_head loc) /\
  scores_per_answer_type res = type_tuples self entries (scores_per_answer_type loc) /\
  scores_per_head res = scores_per_head loc /\
  em_per_head res =
    per_head_sums (_answer_type_head_em self) (cells entries) (em_per_head loc) /\
  f1_per_head res =
    per_head_sums (_answer_type_head_f1 self) (cells entries) (f1_per_head loc) /\
  p_per_head res =
    per_head_sums (_answer_type_head_p self) (cells entries) (p_per_head loc) /\
  r_per_head res =
    per_head_sums (_answer_type_head_r self) (cells entries) (r_per_head loc) /\
  count_per_head res = per_head_counts (cells entries) (count_per_head loc).
Proof.
  revert loc. induction entries as [|[t hc] entries IH]; intros loc.
  - cbv zeta. repeat split.
  - cbv zeta. cbn [fold_left].
    destruct (IH (type_step self loc (t, hc)))
      as [E1 [E2 [E3 [E4 [E5 [E6 [E7 E8]]]]]]].
    cbv zeta in *. rewrite E1, E2, E3, E4, E5, E6, E7, E8.
    rewrite type_step_tuple. clear.
    destruct (head_steps_fields t hc (type_sums_init, loc))
      as [F1 [F2 [F3 [F4 [F5 [F6 [F7 F8]]]]]]].
    cbv zeta in *. unfold type_step.
    cbn [fst snd scores_per_answer_type_and_head scores_per_head em_per_head
         f1_per_head p_per_head r_per_head count_per_head].
    rewrite F1, F3, F4, F5, F6, F7, F8. cbn [snd].
    change (cells ((t, hc) :: entries)) with (entry_cells t hc ++ cells entries).
    unfold cell_tuples, type_tuples, per_head_sums, per_head_counts.
    rewrite !fold_left_app. repeat split.
Qed.
End LoopFields.

(** ** Lookups in dictionaries built by loops *)

Lemma fold_left_ext {A B} (f g : A -> B -> A) (xs : list B) (a : A) :
  (forall a x, In x xs -> f a x = g a x) ->
  fold_left f xs a = fold_left g xs a.
Proof.
  revert a. induction xs as [|x xs IH]; intros a Hfg; [reflexivity|].
  cbn [fold_left]. rewrite (Hfg a x (or_introl eq_refl)).
  apply IH. intros a' x' Hin. apply Hfg. now right.
Qed.

Section FoldSetitem.
Context {A V : Type}.
Variable key : A -> pystr.
Variable g : A -> V.
Variable g' : pystr -> V.

(** After [d[key(x)] = g(x)] for every [x], a key that was set holds the
    value of that key. *)
Lemma lookup_fold_setitem (xs : list A) (d0 : dict V) (k : pystr) :
  (forall x, In x xs -> g x = g' (key x)) ->
  lookup k d0 = Some (g' k) \/ In k (map key xs) ->
  lookup k (fold_left (fun d x => setitem (key x) (g x) d) xs d0) = Some (g' k).
Proof.
  revert d0. induction xs as [|x xs IH]; intros d0 Hg Hk.
  - destruct Hk as [Hk|[]]. exact Hk.
  - cbn [fold_left]. apply IH; [intros y Hy; apply Hg; now right|].
    destruct (list_eq_dec N.eq_dec k (key x)) as [E|Hne].
    + left. rewrite E, lookup_setitem_eq. f_equal. apply Hg. now left.
    + rewrite lookup_setitem_neq by exact Hne.
      destruct Hk as [Hk|[E|Hk]]; [now left|congruence|now right].
Qed.
End FoldSetitem.

Lemma setitem2_add_item2 {V} (t h : pystr) (v : V) (d : dict (dict V)) :
  setitem2 t h v d = add_item2 (fun _ x => x) v t h v d.
Proof.
  unfold setitem2, add_item2.
  destruct (getitem_default [] t d) as [inner d1].
  now rewrite add_item_setitem.
Qed.

Lemma lookup2_setitem2 {V} (t h t' h' : pystr) (v : V) (d : dict (dict V)) :
  lookup2 t' h' (setitem2 t h v d) =
  if pystr_eqb t' t && pystr_eqb h' h then Some v else lookup2 t' h' d.
Proof. rewrite setitem2_add_item2. apply lookup2_add_item2. Qed.

Section FoldSetitem2.
Context {A V : Type}.
Variable key : A -> pystr * pystr.
Variable g : A -> V.
Variable g' : pystr * pystr -> V.

Lemma lookup2_fold_setitem2 (xs : list A) (d0 : dict (dict V)) (t h : pystr) :
  (forall x, In x xs -> g x = g' (key x)) ->
  lookup2 t h d0 = Some (g' (t, h)) \/ In (t, h) (map key xs) ->
  lookup2 t h
    (fold_left (fun d x => setitem2 (fst (key x)) (snd (key x)) (g x) d) xs d0) =
  Some (g' (t, h)).
Proof.
  revert d0. induction xs as [|x xs IH]; intros d0 Hg Hk.
  - destruct Hk as [Hk|[]]. exact Hk.
  - cbn [fold_left]. apply IH; [intros y Hy; apply Hg; now right|].
    rewrite lookup2_setitem2.
    destruct (pystr_eqb t (fst (key x)) && pystr_eqb h (snd (key x))) eqn:E.
    + left. apply andb_true_iff in E. destruct E as [Et Eh].
      apply pystr_eqb_eq in Et, Eh. f_equal.
      rewrite (Hg x (or_introl eq_refl)). f_equal.
      destruct (key x). cbn [fst snd] in *. congruence.
    + destruct Hk as [Hk|[Ek|Hk]]; [now left| |now right].
      rewrite Ek in E. cbn [fst snd] in E. now rewrite !pystr_eqb_refl in E.
Qed.
End FoldSetitem2.

Section FoldAddItem.
Context {A V : Type}.
Variable key : A -> pystr.
Variable val : A -> V.
Variable plus : V -> V -> V.
Variable dflt : V.

Lemma lookup_fold_add_item (xs : list A) (d0 : dict V) (k : pystr) :
  lookup k (fold_left (fun d x => add_item plus dflt (key x) (val x) d) xs d0) =
  fold_left
    (fun o x =>
       if pystr_eqb k (key x)
       then Some (plus (match o with Some v => v | None => dflt end) (val x))
       else o)
    xs (lookup k d0).
Proof.
  revert d0. induction xs as [|x xs IH]; intros d0; [reflexivity|].
  cbn [fold_left]. rewrite IH, lookup_add_item. f_equal.
  destruct (pystr_eqb k (key x)) eqn:E; [|reflexivity].
  apply pystr_eqb_eq in E. now rewrite E.
Qed.

Lemma fold_no_match (xs : list A) (k : pystr) (a : V) :
  existsb (fun x => pystr_eqb k (key x)) xs = false ->
  fold_left (fun a x => if pystr_eqb k (key x) then plus a (val x) else a) xs a = a.
Proof.
  revert a. induction xs as [|x xs IH]; intros a; [reflexivity|].
  cbn [existsb fold_left]. intros E. apply orb_false_iff in E.
  destruct E as [E1 E2]. rewrite E1. now apply IH.
Qed.

(** A key holds the sum of what was added at it, if anything was. *)
Lemma option_fold_total (xs : list A) (k : pystr) (o : option V) :
  fold_left
    (fun o x =>
       if pystr_eqb k (key x)
       then Some (plus (match o with Some v => v | None => dflt end) (val x))
       else o)
    xs o =
  if existsb (fun x => pystr_eqb k (key x)) xs
  then Some (fold_left
               (fun a x => if pystr_eqb k (key x) then plus a (val x) else a)
               xs (match o with Some v => v | None => dflt end))
  else o.
Proof.
  revert o. induction xs as [|x xs IH]; intros o; [reflexivity|].
  cbn [fold_left existsb].
  destruct (pystr_eqb k (key x)) eqn:E; cbn [orb]; [|apply IH].
  rewrite IH.
  destruct (existsb (fun x0 => pystr_eqb k (key x0)) xs) eqn:Ex; [reflexivity|].
  now rewrite fold_no_match.
Qed.

Lemma nodup_fold_add_item (xs : list A) (d0 : dict V) :
  NoDup (keys d0) ->
  NoDup (keys (fold_left (fun d x => add_item plus dflt (key x) (val x) d) xs d0)).
Proof.
  revert d0. induction xs as [|x xs IH]; intros d0 Hd; [exact Hd|].
  cbn [fold_left]. apply IH. now apply nodup_add_item.
Qed.
End FoldAddItem.

Section PerHeadLoop.
Context `{Float}.

Lemma getitem_default_held {V} (dflt : V) (k : pystr) (d : dict V) :
  fst (getitem_default dflt k d) = held dflt d k.
Proof. unfold getitem_default, held. now destruct (lookup k d). Qed.

Lemma held_lookup {V} (dflt : V) (k : pystr) (d : dict V) (v : V) :
  lookup k d = Some v -> held dflt d k = v.
Proof. unfold held. now intros ->. Qed.

Lemma getitem_default_kept {V} (dflt : V) (k : pystr) (d : dict V) :
  lookup k d <> None -> snd (getitem_default dflt k d) = d.
Proof. unfold getitem_default. destruct (lookup k d); [reflexivity|congruence]. Qed.

(** The head [h] is there in the four dictionaries of sums per head. *)
Local Notation "'SUMMED' loc h" :=
  (lookup h (em_per_head loc) <> None /\ lookup h (f1_per_head loc) <> None /\
   lookup h (p_per_head loc) <> None /\ lookup h (r_per_head loc) <> None)
  (at level 10, loc at level 9, h at level 9).

Lemma per_head_steps_fields (items : dict Z) (loc : locals) :
  (forall item, In item items -> SUMMED loc (fst item)) ->
  let res := fold_left per_head_step items loc in
  scores_per_answer_type_and_head res = scores_per_answer_type_and_head loc /\
  scores_per_answer_type res = scores_per_answer_type loc /\
  scores_per_head res =
    fold_left (fun d item => setitem (fst item) (stored_head_tuple loc item) d)
      items (scores_per_head loc) /\
  em_per_head res = em_per_head loc /\ f1_per_head res = f1_per_head loc /\
  p_per_head res = p_per_head loc /\ r_per_head res = r_per_head loc.
Proof.
  revert loc. induction items as [|[h c] items IH]; intros loc Hsum.
  - cbv zeta. repeat split.
  - cbv zeta. cbn [fold_left].
    destruct (Hsum (h, c) (or_introl eq_refl)) as [Hem [Hf1 [Hp Hr]]].
    cbn [fst] in Hem, Hf1, Hp, Hr.
    assert (Eem : em_per_head (per_head_step loc (h, c)) = em_per_head loc)
      by (cbn; now apply getitem_default_kept).
    assert (Ef1 : f1_per_head (per_head_step loc (h, c)) = f1_per_head loc)
      by (cbn; now apply getitem_default_kept).
    assert (Ep : p_per_head (per_head_step loc (h, c)) = p_per_head loc)
      by (cbn; now apply getitem_default_kept).
    assert (Er : r_per_head (per_head_step loc (h, c)) = r_per_head loc)
      by (cbn; now apply getitem_default_kept).
    destruct (IH (per_head_step loc (h, c))) as [E1 [E2 [E3 [E4 [E5 [E6 E7]]]]]].
    { intros item Hin. rewrite Eem, Ef1, Ep, Er. apply Hsum. now right. }
    cbv zeta in *. rewrite E1, E2, E3, E4, E5, E6, E7, Eem, Ef1, Ep, Er.
    repeat split.
    cbn [per_head_step scores_per_head fst snd].
    rewrite !getitem_default_held.
    apply fold_left_ext. intros d item _.
    unfold stored_head_tuple. now rewrite Eem, Ef1, Ep, Er.
Qed.

Variable self : evaluator.
Hypothesis Hself : consistent self.

Lemma consistent_keyed : keyed (_answer_type_head_count self).
Proof.
  split; [apply (types_distinct self Hself)|].
  intros t inner Hin.
  apply (heads_distinct self Hself t inner).
  apply in_lookup; [apply (types_distinct self Hself)|exact Hin].
Qed.

Lemma head_occurs (t h : pystr) (c : Z) :
  lookup2 t h (_answer_type_head_count self) = Some c ->
  existsb (fun x : pystr * pystr * Z => pystr_eqb h (snd (fst x)))
    (cells (_answer_type_head_count self)) = true.
Proof.
  intros E. apply (lookup2_in_cells t h c _ consistent_keyed) in E.
  apply existsb_exists. exists (t, h, c). split; [exact E|].
  cbn [fst snd]. apply pystr_eqb_refl.
Qed.

Lemma lookup_per_head_sums (vals : dict (dict float)) (h : pystr) :
  lookup h (per_head_sums vals (cells (_answer_type_head_count self)) []) =
  if existsb (fun x : pystr * pystr * Z => pystr_eqb h (snd (fst x)))
       (cells (_answer_type_head_count self))
  then Some (head_total vals h (cells (_answer_type_head_count self)))
  else None.
Proof.
  unfold per_head_sums.
  rewrite (lookup_fold_add_item (fun x : pystr * pystr * Z => snd (fst x))
             (fun x => cell vals (fst (fst x)) (snd (fst x))) fadd fzero).
  now rewrite option_fold_total.
Qed.

Lemma lookup_per_head_counts (h : pystr) :
  lookup h (per_head_counts (cells (_answer_type_head_count self)) []) =
  if existsb (fun x : pystr * pystr * Z => pystr_eqb h (snd (fst x)))
       (cells (_answer_type_head_count self))
  then Some (head_count h (cells (_answer_type_head_count self)))
  else None.
Proof.
  unfold per_head_counts.
  rewrite (lookup_fold_add_item (fun x : pystr * pystr * Z => snd (fst x))
             (fun x => snd x) Z.add 0).
  now rewrite option_fold_total.
Qed.

(** The three breakdowns of [views], looked up by their keys. *)
Lemma views_per_type (t : pystr) (hc : dict Z) :
  lookup t (_answer_type_head_count self) = Some hc ->
  lookup t (scores_per_answer_type (after_heads self)) = Some (type_tuple self (t, hc)).
Proof.
  intros Et. unfold after_heads.
  destruct (type_steps_fields self (_answer_type_head_count self) locals_init)
    as [T1 [T2 [T3 [T4 [T5 [T6 [T7 T8]]]]]]].
  cbv zeta in *. fold (after_types self) in *.
  assert (Hsummed : forall item, In item (count_per_head (after_types self)) ->
            SUMMED (after_types self) (fst item)).
  { intros [h c] Hin. cbn [fst]. rewrite T8 in Hin. cbn [locals_init count_per_head] in Hin.
    assert (Hex : existsb (fun x : pystr * pystr * Z => pystr_eqb h (snd (fst x)))
                    (cells (_answer_type_head_count self)) = true).
    { destruct (existsb _ (cells (_answer_type_head_count self))) eqn:Ex; [reflexivity|].
      assert (Hl : lookup h (per_head_counts (cells (_answer_type_head_count self)) [])
                   = None) by (rewrite lookup_per_head_counts; now rewrite Ex).
      apply lookup_none_keys in Hl. exfalso. apply Hl.
      apply in_map_iff. now exists (h, c). }
    rewrite T4, T5, T6, T7. cbn [locals_init em_per_head f1_per_head p_per_head r_per_head].
    rewrite !lookup_per_head_sums, Hex. repeat split; discriminate. }
  destruct (per_head_steps_fields (count_per_head (after_types self)) (after_types self)
              Hsummed) as [_ [P2 _]].
  cbv zeta in P2. rewrite P2, T2. cbn [locals_init scores_per_answer_type].
  unfold type_tuples.
  replace hc with (held [] (_answer_type_head_count self) t)
    by (now apply held_lookup).
  apply (lookup_fold_setitem fst (type_tuple self)
           (fun t => type_tuple self (t, held [] (_answer_type_head_count self) t))).
  - intros [t' hc'] Hin. cbn [fst].
    now rewrite (held_lookup [] t' _ hc' (in_lookup t' hc' _ (types_distinct self Hself) Hin)).
  - right. apply in_map_iff. exists (t, hc). split; [reflexivity|].
    now apply lookup_in.
Qed.

Lemma heads_summed (item : pystr * Z) :
  In item (per_head_counts (cells (_answer_type_head_count self)) []) ->
  existsb (fun x : pystr * pystr * Z => pystr_eqb (fst item) (snd (fst x)))
    (cells (_answer_type_head_count self)) = true.
Proof.
  destruct item as [h c]. cbn [fst]. intros Hin.
  destruct (existsb _ (cells (_answer_type_head_count self))) eqn:Ex; [reflexivity|].
  assert (Hl : lookup h (per_head_counts (cells (_answer_type_head_count self)) [])
               = None) by (rewrite lookup_per_head_counts; now rewrite Ex).
  apply lookup_none_keys in Hl. exfalso. apply Hl.
  apply in_map_iff. now exists (h, c).
Qed.

Lemma after_heads_fields :
  scores_per_answer_type_and_head (after_heads self) =
    cell_tuples self (cells (_answer_type_head_count self)) [] /\
  scores_per_head (after_heads self) =
    fold_left
      (fun d item => setitem (fst item) (stored_head_tuple (after_types self) item) d)
      (per_head_counts (cells (_answer_type_head_count self)) []) [] /\
  em_per_head (after_types self) =
    per_head_sums (_answer_type_head_em self) (cells (_answer_type_head_count self)) [] /\
  f1_per_head (after_types self) =
    per_head_sums (_answer_type_head_f1 self) (cells (_answer_type_head_count self)) [] /\
  p_per_head (after_types self) =
    per_head_sums (_answer_type_head_p self) (cells (_answer_type_head_count self)) [] /\
  r_per_head (after_types self) =
    per_head_sums (_answer_type_head_r self) (cells (_answer_type_head_count self)) [].
Proof.
  destruct (type_steps_fields self (_answer_type_head_count self) locals_init)
    as [T1 [T2 [T3 [T4 [T5 [T6 [T7 T8]]]]]]].
  cbv zeta in *. fold (after_types self) in *.
  cbn [locals_init scores_per_answer_type_and_head scores_per_answer_type
       scores_per_head em_per_head f1_per_head p_per_head r_per_head count_per_head]
    in T1, T2, T3, T4, T5, T6, T7, T8.
  assert (Hsummed : forall item, In item (count_per_head (after_types self)) ->
            SUMMED (after_types self) (fst item)).
  { intros item Hin. rewrite T8 in Hin. apply heads_summed in Hin.
    rewrite T4, T5, T6, T7, !lookup_per_head_sums, Hin.
    repeat split; discriminate. }
  destruct (per_head_steps_fields (count_per_head (after_types self)) (after_types self)
              Hsummed) as [P1 [_ [P3 _]]].
  cbv zeta in P1, P3. unfold after_heads.
  rewrite P1, P3, T1, T3, T8. repeat split; assumption.
Qed.

Lemma views_per_type_per_head (t h : pystr) (c : Z) :
  lookup2 t h (_answer_type_head_count self) = Some c ->
  lookup2 t h (scores_per_answer_type_and_head (after_heads self)) =
  Some (cell_tuple self (t, h, c)).
Proof.
  intros E. destruct after_heads_fields as [F1 _]. rewrite F1.
  unfold cell_tuples.
  pose proof (lookup2_fold_setitem2
                (fun x : pystr * pystr * Z => fst x) (cell_tuple self)
                (fun k => cell_tuple self
                            (k, match lookup2 (fst k) (snd k) (_answer_type_head_count self)
                                with Some c => c | None => 0 end))
                (cells (_answer_type_head_count self)) [] t h) as Hl.
  cbn [fst snd] in Hl. rewrite E in Hl. apply Hl.
  - intros [[t' h'] c'] Hin. cbn [fst snd].
    apply (lookup2_in_cells t' h' c' _ consistent_keyed) in Hin. now rewrite Hin.
  - right. apply in_map_iff. exists (t, h, c). split; [reflexivity|].
    now apply (lookup2_in_cells t h c _ consistent_keyed).
Qed.

Lemma views_per_head (t h : pystr) (c : Z) :
  lookup2 t h (_answer_type_head_count self) = Some c ->
  lookup h (scores_per_head (after_heads self)) = Some (head_tuple self h).
Proof.
  intros E. pose proof (head_occurs t h c E) as Hex.
  destruct after_heads_fields as [_ [F2 [F3 [F4 [F5 F6]]]]]. rewrite F2.
  pose proof (lookup_fold_setitem fst (stored_head_tuple (after_types self))
                (fun k => stored_head_tuple (after_types self)
                            (k, held 0 (per_head_counts
                                          (cells (_answer_type_head_count self)) []) k))
                (per_head_counts (cells (_answer_type_head_count self)) []) [] h) as Hl.
  rewrite Hl.
  - f_equal. unfold stored_head_tuple, head_tuple. cbn [fst snd].
    rewrite F3, F4, F5, F6. unfold held.
    rewrite !lookup_per_head_sums, lookup_per_head_counts, Hex.
    reflexivity.
  - intros [h' c'] Hin. cbn [fst]. f_equal. f_equal. symmetry.
    apply held_lookup. apply in_lookup; [|exact Hin].
    unfold per_head_counts. apply nodup_fold_add_item. constructor.
  - right.
    assert (Hk : lookup h (per_head_counts (cells (_answer_type_head_count self)) [])
                 = Some (head_count h (cells (_answer_type_head_count self))))
      by (now rewrite lookup_per_head_counts, Hex).
    apply lookup_in in Hk. apply in_map_iff.
    now exists (h, head_count h (cells (_answer_type_head_count self))).
Qed.
End PerHeadLoop.

Section Breakdowns.
Context `{Float}.
Context {annotation prediction : Type}.
Variable answer_json_to_strings : annotation -> result (list pystr * pystr).
Variable compute_em_and_f1 : prediction -> list pystr -> result scores.

(** C6.  On an evaluator that operations on a fresh one lead to, and whose
    counts convert to floats, [get_metric] returns, and in its views: the
    entry of an answer type is the tuple of the sums of its cells over its
    heads, each divided by the count of the type, with that count; the entry
    of a head is the tuple of the sums of its cells over the types, each
    divided by the count of the head, with that count; the entry of a cell
    is the tuple of its sums, each divided by its count, with that count. *)
Theorem breakdowns_are_means (ops : list op) (reset_flag : bool) :
  let self := fst (history answer_json_to_strings compute_em_and_f1 ops) in
  (forall k, 1 <= k <= _count self -> of_int k <> None) ->
  exists overall_view per_type_per_head per_type per_head,
    get_metric reset_flag self =
    ((if reset_flag then init else self),
     Ok (overall_view, per_type_per_head, per_type, per_head)) /\
    (forall t hc,
        lookup t (_answer_type_head_count self) = Some hc ->
        lookup t per_type = Some (type_tuple self (t, hc))) /\
    (forall t h c,
        lookup2 t h (_answer_type_head_count self) = Some c ->
        lookup h per_head = Some (head_tuple self h) /\
        lookup2 t h per_type_per_head = Some (cell_tuple self (t, h, c))).
Proof.
  cbv zeta.
  destruct (history_consistent answer_json_to_strings compute_em_and_f1 ops)
    as [Hc _].
  set (self := fst (history answer_json_to_strings compute_em_and_f1 ops)) in *.
  intros Hconv.
  pose proof (get_metric_returns self reset_flag Hc Hconv) as Hret.
  unfold views in Hret.
  eexists _, _, _, _. split; [exact Hret|]. split.
  - intros t hc. now apply views_per_type.
  - intros t h c E. split.
    + now apply (views_per_head self Hc t h c).
    + now apply views_per_type_per_head.
Qed.
End Breakdowns.


Section BreakdownExamples.
Import Fixture Scenario.
Local Existing Instance b64.

(** The scenario of the specification: the number type averages (1, 1, 1, 1)
    over one example, the span head (0, 0.5, 0.5, 0.5) over one example. *)
Example scenario_per_type_number :
  lookup (str "number") (snd (fst (views (after [number_example; span_example])))) =
  Some [VFloat one; VFloat one; VFloat one; VFloat one; VInt 1].
Proof. reflexivity. Qed.

Example scenario_per_head_span :
  lookup (str "span_head") (snd (views (after [number_example; span_example]))) =
  Some [VFloat fzero; VFloat half; VFloat half; VFloat half; VInt 1].
Proof. reflexivity. Qed.

Lemma count_is_calls_and_cells_witness :
  _count (after [number_example; span_example]) = 2 /\
  cells_sum (_answer_type_head_count (after [number_example; span_example])) = 2 /\
  (1 <= 1 /\
   (exists em, lookup2 (str "number") (str "count_head")
                 (_answer_type_head_em (after [number_example; span_example])) = Some em) /\
   (exists f1, lookup2 (str "number") (str "count_head")
                 (_answer_type_head_f1 (after [number_example; span_example])) = Some f1) /\
   (exists p, lookup2 (str "number") (str "count_head")
                (_answer_type_head_p (after [number_example; span_example])) = Some p) /\
   (exists r, lookup2 (str "number") (str "count_head")
                (_answer_type_head_r (after [number_example; span_example])) = Some r)).
Proof.
  destruct (count_is_calls_and_cells normalised carried
              [number_example; span_example]) as [Hcount [Hsum Hcells]].
  split; [exact Hcount|]. split; [exact Hsum|].
  exact (Hcells (str "number") (str "count_head") 1 eq_refl).
Defined.

Lemma breakdowns_are_means_witness :
  exists overall_view per_type_per_head per_type per_head,
    get_metric false (after [number_example; span_example]) =
    (after [number_example; span_example],
     Ok (overall_view, per_type_per_head, per_type, per_head)) /\
    (forall t hc,
        lookup t (_answer_type_head_count (after [number_example; span_example])) =
        Some hc ->
        lookup t per_type =
        Some (type_tuple (after [number_example; span_example]) (t, hc))) /\
    (forall t h c,
        lookup2 t h (_answer_type_head_count (after [number_example; span_example])) =
        Some c ->
        lookup h per_head =
        Some (head_tuple (after [number_example; span_example]) h) /\
        lookup2 t h per_type_per_head =
        Some (cell_tuple (after [number_example; span_example]) (t, h, c))).
Proof.
  apply (breakdowns_are_means normalised carried
           [number_example; span_example] false).
  exact converts_up_to_two.
Defined.
End BreakdownExamples.

Section DunderCall.
Context `{Float}.
Context {annotation prediction : Type}.
Variable answer_json_to_strings : annotation -> result (list pystr * pystr).
Variable compute_em_and_f1 : prediction -> list pystr -> result scores.

Lemma step_without_call (o : op) (n : Z) :
  is_call o = false ->
  fst (step answer_json_to_strings compute_em_and_f1 (init, n) o) = init.
Proof.
  destruct o as [pred gts ability|pred gts|reset_flag|]; cbn [is_call step];
    try discriminate; intros _; try reflexivity.
  destruct (get_metric_yields reset_flag init consistent_init) as [E|[E _]];
    rewrite E; [now destruct reset_flag|reflexivity].
Qed.

Lemma steps_without_call (ops : list op) (n : Z) :
  forallb (fun o => negb (is_call o)) ops = true ->
  fst (fold_left (step answer_json_to_strings compute_em_and_f1) ops (init, n)) = init.
Proof.
  revert n. induction ops as [|o ops IH]; intros n Hops; [reflexivity|].
  cbn [forallb] in Hops. apply andb_true_iff in Hops. destruct Hops as [Ho Hops].
  apply negb_true_iff in Ho. cbn [fold_left].
  pose proof (step_without_call o n Ho) as E.
  destruct (step answer_json_to_strings compute_em_and_f1 (init, n) o) as [self n'].
  cbn [fst] in E. subst self. now apply IH.
Qed.

(** C10.  [__call__] raises [TypeError] whatever it is given and leaves the
    evaluator as it was; operations with no three-argument [call] among them
    leave a fresh evaluator fresh: nothing accumulates but through [call]. *)
Theorem dunder_call_raises :
  (forall (pred : prediction) (ground_truths : list annotation) (self : evaluator),
      __call__ answer_json_to_strings compute_em_and_f1 pred ground_truths self =
      (self, Raise TypeError)) /\
  (forall ops : list op,
      forallb (fun o => negb (is_call o)) ops = true ->
      fst (history answer_json_to_strings compute_em_and_f1 ops) = init).
Proof.
  split.
  - reflexivity.
  - intros ops Hops. now apply steps_without_call.
Qed.
End DunderCall.

Section DunderCallExamples.
Import Fixture Scenario.
Local Existing Instance b64.

Lemma dunder_call_raises_witness :
  __call__ normalised carried ones [([str "5"], str "number")] init =
    (init, Raise TypeError) /\
  after [DoDunderCall ones [([str "5"], str "number")]; DoGetMetric false] = init.
Proof.
  destruct (dunder_call_raises normalised carried) as [Hraise Hfresh].
  split; [apply Hraise|].
  apply (Hfresh [DoDunderCall ones [([str "5"], str "number")]; DoGetMetric false]).
  reflexivity.
Defined.
End DunderCallExamples.

(** * Further properties *)

(** ** The maxima of [metric_max_over_ground_truths] *)

Section MaximaFacts.
Context `{Float}.

Lemma raise_fold_components (items : list (list pystr * scores)) (m : scores) :
  let res :=
    fold_left (fun m item => if compared (fst item) then raise m (snd item) else m)
      items m in
  score_em res = fold_left py_max (map score_em (compared_items items)) (score_em m) /\
  score_f1 res = fold_left py_max (map score_f1 (compared_items items)) (score_f1 m) /\
  score_p res = fold_left py_max (map score_p (compared_items items)) (score_p m) /\
  score_r res = fold_left py_max (map score_r (compared_items items)) (score_r m).
Proof.
  cbv zeta. unfold compared_items. revert m.
  induction items as [|[g s] items IH]; intros m; [repeat split|].
  cbn [fold_left filter fst snd].
  destruct (compared g); cbn [map fold_left]; [|apply IH].
  destruct (IH (raise m s)) as [E1 [E2 [E3 E4]]].
  rewrite E1, E2, E3, E4.
  destruct m as [[[a b] c] d], s as [[[a' b'] c'] d']. repeat split.
Qed.

Lemma running_maxima_components (items : list (list pystr * scores)) :
  score_em (running_maxima items) =
    fold_left py_max (map score_em (compared_items items)) fzero /\
  score_f1 (running_maxima items) =
    fold_left py_max (map score_f1 (compared_items items)) fzero /\
  score_p (running_maxima items) =
    fold_left py_max (map score_p (compared_items items)) fzero /\
  score_r (running_maxima items) =
    fold_left py_max (map score_r (compared_items items)) fzero.
Proof. exact (raise_fold_components items zeros). Qed.

(** [max] returns one of its arguments: a fold of [max] returns its start
    or one of the values. *)
Lemma py_max_fold_drawn (xs : list float) (z : float) :
  In (fold_left py_max xs z) (z :: xs).
Proof.
  revert z. induction xs as [|x xs IH]; intros z; [now left|].
  cbn [fold_left]. destruct (IH (py_max z x)) as [E|Hin].
  - rewrite <- E. unfold py_max. destruct (fltb z x); [right; now left|now left].
  - right. now right.
Qed.
End MaximaFacts.

Section MaximaBounds.
Context `{FloatStrict}.

Lemma py_max_fold_keeps (xs : list float) (z x : float) :
  fltb z x = false -> fltb (fold_left py_max xs z) x = false.
Proof.
  revert z. induction xs as [|y xs IH]; intros z Hz; [exact Hz|].
  cbn [fold_left]. apply IH. unfold py_max.
  destruct (fltb z y) eqn:Hzy; [|exact Hz].
  destruct (fltb y x) eqn:Hyx; [|reflexivity].
  now rewrite (fltb_trans z y x Hzy Hyx) in Hz.
Qed.

(** A fold of [max] is below none of the values, nor below its start. *)
Lemma py_max_fold_upper (xs : list float) (z x : float) :
  In x (z :: xs) -> fltb (fold_left py_max xs z) x = false.
Proof.
  revert z. induction xs as [|y xs IH]; intros z Hin.
  - destruct Hin as [<-|[]]. apply fltb_irrefl.
  - cbn [fold_left]. destruct Hin as [<-|[<-|Hin]].
    + apply py_max_fold_keeps. unfold py_max.
      destruct (fltb z y) eqn:Hzy; [|apply fltb_irrefl].
      destruct (fltb y z) eqn:Hyz; [|reflexivity].
      pose proof (fltb_trans z y z Hzy Hyz) as Hc.
      rewrite fltb_irrefl in Hc. discriminate.
    + apply py_max_fold_keeps. unfold py_max.
      destruct (fltb z y) eqn:Hzy; [apply fltb_irrefl|exact Hzy].
    + apply IH. now right.
Qed.
End MaximaBounds.

(** ** [<] on binary64 and on the rationals *)

Lemma mag_lt_trans (e1 e2 e3 : Z) (m1 m2 m3 : positive) :
  mag_lt e1 m1 e2 m2 -> mag_lt e2 m2 e3 m3 -> mag_lt e1 m1 e3 m3.
Proof. unfold mag_lt. lia. Qed.

Lemma mag_lt_compare (e1 e2 : Z) (m1 m2 : positive) :
  match Z.compare e1 e2 with
  | Lt => Lt
  | Gt => Gt
  | Eq => Pos.compare_cont Eq m1 m2
  end = Lt <-> mag_lt e1 m1 e2 m2.
Proof.
  unfold mag_lt. change (Pos.compare_cont Eq m1 m2) with (Pos.compare m1 m2).
  destruct (Z.compare_spec e1 e2) as [E|E|E].
  - rewrite Pos.compare_lt_iff. lia.
  - split; [intros _; now left|reflexivity].
  - split; [discriminate|lia].
Qed.

Lemma mag_gt_compare (e1 e2 : Z) (m1 m2 : positive) :
  match Z.compare e1 e2 with
  | Lt => Gt
  | Gt => Lt
  | Eq => CompOpp (Pos.compare_cont Eq m1 m2)
  end = Lt <-> mag_lt e2 m2 e1 m1.
Proof.
  unfold mag_lt. change (Pos.compare_cont Eq m1 m2) with (Pos.compare m1 m2).
  destruct (Z.compare_spec e1 e2) as [E|E|E].
  - destruct (Pos.compare_spec m1 m2) as [Em|Em|Em]; cbn [CompOpp].
    + split; [discriminate|lia].
    + split; [discriminate|lia].
    + split; [intros _; right; lia|reflexivity].
  - split; [discriminate|lia].
  - split; [intros _; now left|reflexivity].
Qed.

Lemma SFltb_finite (s1 s2 : bool) (m1 m2 : positive) (e1 e2 : Z) :
  SFltb (S754_finite s1 m1 e1) (S754_finite s2 m2 e2) = true <->
  (s1 = true /\ s2 = false) \/
  (s1 = false /\ s2 = false /\ mag_lt e1 m1 e2 m2) \/
  (s1 = true /\ s2 = true /\ mag_lt e2 m2 e1 m1).
Proof.
  unfold SFltb, SFcompare. destruct s1, s2.
  - rewrite <- (mag_gt_compare e1 e2 m1 m2).
    destruct (match (e1 ?= e2)%Z with
              | Lt => Gt | Gt => Lt | Eq => CompOpp (Pos.compare_cont Eq m1 m2)
              end); intuition congruence.
  - intuition congruence.
  - intuition congruence.
  - rewrite <- (mag_lt_compare e1 e2 m1 m2).
    destruct (match (e1 ?= e2)%Z with
              | Lt => Lt | Gt => Gt | Eq => Pos.compare_cont Eq m1 m2
              end); intuition congruence.
Qed.

Lemma SFltb_irrefl (a : spec_float) : SFltb a a = false.
Proof.
  unfold SFltb. destruct a as [s|s| |s m e]; [| | reflexivity |];
    now rewrite SFcompare_refl.
Qed.

Lemma SFltb_trans (a b c : spec_float) :
  SFltb a b = true -> SFltb b c = true -> SFltb a c = true.
Proof.
  destruct a as [sa|sa| |sa ma ea], b as [sb|sb| |sb mb eb], c as [sc|sc| |sc mc ec];
    try (rewrite !SFltb_finite;
         intros [[-> ->]|[[-> [-> Hab]]|[-> [-> Hab]]]]
                [[Eb ->]|[[Eb [-> Hbc]]|[Eb [-> Hbc]]]];
         try discriminate;
         eauto 6 using mag_lt_trans);
    unfold SFltb; cbn [SFcompare];
    repeat match goal with s : bool |- _ => destruct s end;
    try discriminate; try reflexivity.
Qed.

#[export] Instance b64_strict : @FloatStrict b64.
Proof. split; [exact SFltb_irrefl|exact SFltb_trans]. Qed.

#[export] Instance exact_strict : @FloatStrict exact.
Proof.
  split; cbn [fltb exact].
  - intros a. destruct (Qclt_le_dec a a) as [Hlt|_]; [|reflexivity].
    now destruct (Qclt_not_eq a a Hlt).
  - intros a b c.
    destruct (Qclt_le_dec a b) as [Hab|_]; [|discriminate].
    destruct (Qclt_le_dec b c) as [Hbc|_]; [|discriminate]. intros _ _.
    destruct (Qclt_le_dec a c) as [_|Hca]; [reflexivity|].
    exfalso. apply (Qclt_not_le a c); [|exact Hca].
    now apply (Qclt_trans a b c).
Qed.

Section MetricMaxResult.
Context `{Float}.
Context {prediction : Type}.
Variable metric_fn : prediction -> list pystr -> result scores.
Variable pred : prediction.

(** When the loop returns, the scorer has answered on every ground truth. *)
Lemma metric_max_ok_scored (ground_truths : list (list pystr)) (m : scores) (idx : Z) :
  metric_max_over_ground_truths metric_fn pred ground_truths = Ok (m, idx) ->
  exists scs,
    Forall2 (fun g s => metric_fn pred g = Ok s) ground_truths scs /\
    m = running_maxima (combine ground_truths scs) /\
    idx = last_index (records (combine ground_truths scs)) (length ground_truths).
Proof.
  intros E. pose proof E as E'. rewrite metric_max_select in E'.
  destruct (map_result (metric_fn pred) ground_truths) as [scs|] eqn:Es;
    [|discriminate].
  apply map_result_forall2 in Es. exists scs. split; [exact Es|].
  rewrite (metric_max_scored metric_fn pred ground_truths scs Es) in E.
  inversion E. now split.
Qed.

Lemma scored_item (ground_truths : list (list pystr)) (scs : list scores)
    (g : list pystr) (s : scores) :
  Forall2 (fun g s => metric_fn pred g = Ok s) ground_truths scs ->
  In g ground_truths -> metric_fn pred g = Ok s ->
  In (g, s) (combine ground_truths scs).
Proof.
  induction 1 as [|g0 s0 gts scs' E0 _ IH]; intros Hin Eg; [destruct Hin|].
  destruct Hin as [->|Hin]; [left; congruence|right; now apply IH].
Qed.

(** X1.  The index returned is -1 or the index of a ground truth that
    passes the guard of the loop. *)
Theorem maximizing_index_compared
    (ground_truths : list (list pystr)) (m : scores) (idx : Z) :
  metric_max_over_ground_truths metric_fn pred ground_truths = Ok (m, idx) ->
  idx = -1 \/
  (0 <= idx < Z.of_nat (length ground_truths) /\
   exists g, nth_error ground_truths (Z.to_nat idx) = Some g /\ compared g = true).
Proof.
  intros E. destruct (metric_max_ok_scored _ _ _ E) as [scs [Hsc [_ Hidx]]].
  destruct (forall2_combine _ _ _ Hsc) as [Efst [_ Elen]].
  destruct (last_index_cases (records (combine ground_truths scs))
              (length ground_truths)) as [E1|[k Ek]]; [left; congruence|].
  right. rewrite Hidx, Ek. apply last_index_some in Ek.
  destruct Ek as [Hk [Hrec _]]. split; [lia|]. rewrite Nat2Z.id.
  unfold records in Hrec.
  destruct (nth_error (combine ground_truths scs) k) as [[g s]|] eqn:Ek;
    [|discriminate].
  exists g. apply andb_true_iff in Hrec. split; [|apply Hrec].
  rewrite <- Efst. now rewrite nth_error_map, Ek.
Qed.

(** X2.  Each of the four maxima returned is 0.0 or that component of the
    score of a ground truth that passes the guard: [max] creates no value. *)
Theorem maxima_drawn_from_scores
    (ground_truths : list (list pystr)) (m : scores) (idx : Z) :
  metric_max_over_ground_truths metric_fn pred ground_truths = Ok (m, idx) ->
  exists scs,
    Forall2 (fun g s => metric_fn pred g = Ok s) ground_truths scs /\
    In (score_em m)
       (fzero :: map score_em (compared_items (combine ground_truths scs))) /\
    In (score_f1 m)
       (fzero :: map score_f1 (compared_items (combine ground_truths scs))) /\
    In (score_p m)
       (fzero :: map score_p (compared_items (combine ground_truths scs))) /\
    In (score_r m)
       (fzero :: map score_r (compared_items (combine ground_truths scs))).
Proof.
  intros E. destruct (metric_max_ok_scored _ _ _ E) as [scs [Hsc [Hm _]]].
  exists scs. split; [exact Hsc|]. subst m.
  destruct (running_maxima_components (combine ground_truths scs))
    as [E1 [E2 [E3 E4]]].
  rewrite E1, E2, E3, E4. repeat split; apply py_max_fold_drawn.
Qed.
End MetricMaxResult.

Section MetricMaxBounds.
Context `{FloatStrict}.
Context {prediction : Type}.
Variable metric_fn : prediction -> list pystr -> result scores.
Variable pred : prediction.

(** X3.  Where [<] is a strict order, as on binary64, none of the four
    maxima returned is below 0.0 or below that component of the score of a
    ground truth that passes the guard. *)
Theorem maxima_bound_scores
    (ground_truths : list (list pystr)) (m : scores) (idx : Z) :
  metric_max_over_ground_truths metric_fn pred ground_truths = Ok (m, idx) ->
  (fltb (score_em m) fzero = false /\ fltb (score_f1 m) fzero = false /\
   fltb (score_p m) fzero = false /\ fltb (score_r m) fzero = false) /\
  forall g s,
    In g ground_truths -> compared g = true -> metric_fn pred g = Ok s ->
    fltb (score_em m) (score_em s) = false /\
    fltb (score_f1 m) (score_f1 s) = false /\
    fltb (score_p m) (score_p s) = false /\
    fltb (score_r m) (score_r s) = false.
Proof.
  intros E. destruct (metric_max_ok_scored _ _ _ _ _ E) as [scs [Hsc [Hm _]]].
  subst m.
  destruct (running_maxima_components (combine ground_truths scs))
    as [E1 [E2 [E3 E4]]].
  rewrite E1, E2, E3, E4. split.
  - repeat split; apply py_max_fold_upper; now left.
  - intros g s Hin Hc Es.
    assert (Hs : In s (compared_items (combine ground_truths scs))).
    { unfold compared_items. apply in_map_iff. exists (g, s). split; [reflexivity|].
      apply filter_In. split; [|exact Hc].
      now apply (scored_item metric_fn pred ground_truths scs). }
    repeat split; apply py_max_fold_upper; right; now apply in_map.
Qed.
End MetricMaxBounds.

Section MetricMaxNone.
Context `{FloatOrder}.
Context {prediction : Type}.
Variable metric_fn : prediction -> list pystr -> result scores.
Variable pred : prediction.

(** X4.  With scores that have no negative component, the index returned
    is -1 exactly when no ground truth passes the guard of the loop: a
    ground truth that passes it is always selected. *)
Theorem no_index_iff_none_compared
    (ground_truths : list (list pystr)) (scs : list scores) (m : scores) (idx : Z) :
  Forall2 (fun g s => metric_fn pred g = Ok s) ground_truths scs ->
  Forall (fun s => nonneg s = true) scs ->
  metric_max_over_ground_truths metric_fn pred ground_truths = Ok (m, idx) ->
  (idx = -1 <-> Forall (fun g => compared g = false) ground_truths).
Proof.
  intros Hsc Hrange E.
  rewrite (metric_max_scored metric_fn pred ground_truths scs Hsc) in E.
  inversion E as [[Hm Hidx]]. clear E Hm.
  destruct (forall2_combine _ _ _ Hsc) as [Efst [Esnd Elen]].
  rewrite <- Elen, last_index_none. split.
  - intros Hrec.
    assert (Hall : forall k, records (combine ground_truths scs) k = false).
    { intros k. destruct (Nat.lt_ge_cases k (length (combine ground_truths scs)));
        [now apply Hrec|now apply records_out_of_range]. }
    apply no_record_no_compared in Hall.
    + rewrite <- Efst. apply Forall_map.
      eapply Forall_impl; [|exact Hall]. now intros [g s].
    + rewrite <- Esnd in Hrange. apply Forall_map in Hrange.
      eapply Forall_impl; [|exact Hrange]. now intros [g s].
  - intros Hnone k _. unfold records.
    destruct (nth_error (combine ground_truths scs) k) as [[g s]|] eqn:Ek;
      [|reflexivity].
    apply nth_error_In, in_combine_l in Ek.
    rewrite Forall_forall in Hnone. now rewrite (Hnone g Ek).
Qed.
End MetricMaxNone.

(** ** What [call] selects and what it changes *)

Lemma py_index_position {A} (xs : list A) (i : Z) (x : A) :
  py_index xs i = Ok x ->
  nth_error xs (Z.to_nat (if i <? 0 then i + Z.of_nat (length xs) else i)) = Some x.
Proof.
  unfold py_index.
  destruct ((_ <? 0) || (Z.of_nat (length xs) <=? _)); [discriminate|].
  destruct (nth_error xs _) as [y|]; [|discriminate]. congruence.
Qed.

Lemma forall2_nth_error {A B} (R : A -> B -> Prop) (xs : list A) (ys : list B)
    (j : nat) (x : A) (y : B) :
  Forall2 R xs ys -> nth_error xs j = Some x -> nth_error ys j = Some y -> R x y.
Proof.
  intros HR. revert j. induction HR as [|x0 y0 xs ys H0 _ IH]; intros j Ex Ey.
  - destruct j; discriminate.
  - destruct j as [|j]; cbn [nth_error] in Ex, Ey; [congruence|].
    now apply (IH j).
Qed.

Section CallSelection.
Context `{Float}.
Context {annotation prediction : Type}.
Variable answer_json_to_strings : annotation -> result (list pystr * pystr).
Variable compute_em_and_f1 : prediction -> list pystr -> result scores.

Local Notation "'CALL'" := (call answer_json_to_strings compute_em_and_f1).

(** What is behind a call that returns. *)
Lemma call_ok_stages (pred : prediction) (ground_truths : list annotation)
    (ability : pystr) (self self' : evaluator) (s : scores) (g : annotation) :
  CALL pred ground_truths ability self = (self', Ok (s, g)) ->
  exists pairs idx t,
    map_result answer_json_to_strings ground_truths = Ok pairs /\
    metric_max_over_ground_truths compute_em_and_f1 pred (map fst pairs) =
      Ok (s, idx) /\
    py_index (map snd pairs) idx = Ok t /\
    py_index ground_truths idx = Ok g /\
    self' = credit s t ability self.
Proof.
  rewrite call_stages.
  destruct (map_result answer_json_to_strings ground_truths) as [pairs|] eqn:En;
    [|discriminate].
  assert (Hu : unzip_pairs pairs = Raise ValueError \/
               unzip_pairs pairs = Ok (map fst pairs, map snd pairs))
    by (destruct pairs; [now left|now right]).
  destruct Hu as [Hu|Hu]; rewrite Hu; [discriminate|].
  destruct (metric_max_over_ground_truths compute_em_and_f1 pred (map fst pairs))
    as [[s' idx]|] eqn:Em; [|discriminate].
  destruct (py_index (map snd pairs) idx) as [t|] eqn:Et; [|discriminate].
  destruct (py_index ground_truths idx) as [g'|] eqn:Eg; [|discriminate].
  intros E. inversion E; subst. exists pairs, idx, t.
  repeat split; assumption || reflexivity.
Qed.


(** X6.  A call that returns adds one to the top-level count and to the
    count of the cell of the credited answer type and the head, adds the
    score returned to the sums of that cell, starting from 0 when the cell
    is new, and leaves every other cell of the five dictionaries as it
    was. *)
Theorem call_changes_one_cell (pred : prediction)
    (ground_truths : list annotation) (ability : pystr)
    (self self' : evaluator) (s : scores) (g : annotation) :
  CALL pred ground_truths ability self = (self', Ok (s, g)) ->
  exists strings t,
    answer_json_to_strings g = Ok (strings, t) /\
    _count self' = _count self + 1 /\
    lookup2 t ability (_answer_type_head_count self') =
      Some (match lookup2 t ability (_answer_type_head_count self) with
            | Some c => c
            | None => 0
            end + 1) /\
    lookup2 t ability (_answer_type_head_em self') =
      Some (fadd (cell (_answer_type_head_em self) t ability) (score_em s)) /\
    lookup2 t ability (_answer_type_head_f1 self') =
      Some (fadd (cell (_answer_type_head_f1 self) t ability) (score_f1 s)) /\
    lookup2 t ability (_answer_type_head_p self') =
      Some (fadd (cell (_answer_type_head_p self) t ability) (score_p s)) /\
    lookup2 t ability (_answer_type_head_r self') =
      Some (fadd (cell (_answer_type_head_r self) t ability) (score_r s)) /\
    forall t' h',
      (t', h') <> (t, ability) ->
      lookup2 t' h' (_answer_type_head_count self') =
        lookup2 t' h' (_answer_type_head_count self) /\
      lookup2 t' h' (_answer_type_head_em self') =
        lookup2 t' h' (_answer_type_head_em self) /\
      lookup2 t' h' (_answer_type_head_f1 self') =
        lookup2 t' h' (_answer_type_head_f1 self) /\
      lookup2 t' h' (_answer_type_head_p self') =
        lookup2 t' h' (_answer_type_head_p self) /\
      lookup2 t' h' (_answer_type_head_r self') =
        lookup2 t' h' (_answer_type_head_r self).
Proof.
  intros E. destruct (call_ok_stages _ _ _ _ _ _ _ E)
    as [pairs [idx [t [En [Em [Et [Eg ->]]]]]]].
  pose proof (py_index_position _ _ _ Eg) as Pg.
  pose proof (py_index_position _ _ _ Et) as Pt.
  rewrite length_map, (map_result_length _ _ _ En) in Pt.
  rewrite nth_error_map in Pt.
  destruct (nth_error pairs _) as [[strings t']|] eqn:Ep; [|discriminate].
  cbn [option_map snd] in Pt. inversion Pt; subst t'.
  exists strings, t. split.
  { apply map_result_forall2 in En.
    exact (forall2_nth_error _ _ _ _ _ _ En Pg Ep). }
  destruct s as [[[em f1] p] r]. unfold cell, score_em, score_f1, score_p, score_r.
  cbn [credit _count _answer_type_head_count _answer_type_head_em
       _answer_type_head_f1 _answer_type_head_p _answer_type_head_r fst snd].
  rewrite !lookup2_add_item2, !pystr_eqb_refl. cbn [andb].
  repeat split; try reflexivity;
    rewrite lookup2_add_item2;
    (destruct (pystr_eqb t' t && pystr_eqb h' ability) eqn:Ek; [|reflexivity]);
    apply andb_true_iff in Ek; destruct Ek as [Ek1 Ek2];
    apply pystr_eqb_eq in Ek1, Ek2; subst; congruence.
Qed.

(** X7.  What [call] returns or raises does not depend on what the
    evaluator has accumulated. *)
Theorem call_result_ignores_state (pred : prediction)
    (ground_truths : list annotation) (ability : pystr) (self1 self2 : evaluator) :
  snd (CALL pred ground_truths ability self1) =
  snd (CALL pred ground_truths ability self2).
Proof.
  rewrite !call_stages.
  destruct (map_result answer_json_to_strings ground_truths); [|reflexivity].
  destruct (unzip_pairs a) as [[strings types]|]; [|reflexivity].
  destruct (metric_max_over_ground_truths compute_em_and_f1 pred strings)
    as [[s idx]|]; [|reflexivity].
  destruct (py_index types idx); [|reflexivity].
  destruct (py_index ground_truths idx); reflexivity.
Qed.
End CallSelection.

(** ** No ground truth recorded *)

Section CreditObserved.
Context `{Float}.

(** What [call] leaves behind when it returns, seen through the fields and
    the cells. *)
Lemma credit_observed (s : scores) (t h : pystr) (self : evaluator) :
  one_example_added s t h self (credit s t h self).
Proof.
  destruct s as [[[em f1] p] r].
  unfold one_example_added, cell, score_em, score_f1, score_p, score_r.
  cbn [credit _count _total_em _total_f1 _total_p _total_r
       _answer_type_head_count _answer_type_head_em
       _answer_type_head_f1 _answer_type_head_p _answer_type_head_r fst snd].
  rewrite !lookup2_add_item2, !pystr_eqb_refl. cbn [andb].
  repeat split; try reflexivity;
    rewrite lookup2_add_item2;
    (destruct (pystr_eqb t' t && pystr_eqb h' h) eqn:Ek; [|reflexivity]);
    apply andb_true_iff in Ek; destruct Ek as [Ek1 Ek2];
    apply pystr_eqb_eq in Ek1, Ek2; subst; congruence.
Qed.

Lemma py_max_fold_stays (xs : list float) :
  Forall (fun x => fltb fzero x = false) xs -> fold_left py_max xs fzero = fzero.
Proof.
  induction 1 as [|x xs Hx _ IH]; [reflexivity|].
  cbn [fold_left]. unfold py_max at 2. now rewrite Hx.
Qed.

(** The maxima stay (0, 0, 0, 0) when no score that is compared has a
    component above 0.0. *)
Lemma running_maxima_stay (items : list (list pystr * scores)) :
  Forall (fun s => above_zero s = false) (compared_items items) ->
  running_maxima items = zeros.
Proof.
  intros Hall.
  destruct (running_maxima_components items) as [E1 [E2 [E3 E4]]].
  assert (Hc : Forall (fun s => fltb fzero (score_em s) = false /\
                                fltb fzero (score_f1 s) = false /\
                                fltb fzero (score_p s) = false /\
                                fltb fzero (score_r s) = false)
                 (compared_items items)).
  { eapply Forall_impl; [|exact Hall]. intros s Hs. unfold above_zero in Hs.
    apply orb_false_iff in Hs. destruct Hs as [Hs H4].
    apply orb_false_iff in Hs. destruct Hs as [Hs H3].
    apply orb_false_iff in Hs. destruct Hs as [H1 H2]. now repeat split. }
  rewrite py_max_fold_stays in E1, E2, E3, E4;
    try (apply Forall_map; eapply Forall_impl; [|exact Hc]; intros s Hs; apply Hs).
  destruct (running_maxima items) as [[[a b] c] d].
  unfold score_em, score_f1, score_p, score_r in *. cbn [fst snd] in *.
  unfold zeros. congruence.
Qed.
End CreditObserved.

Section NoRecordCall.
Context `{Float}.
Context {annotation prediction : Type}.
Variable answer_json_to_strings : annotation -> result (list pystr * pystr).
Variable compute_em_and_f1 : prediction -> list pystr -> result scores.

(** C2, as amended.  When the normaliser and the scorer answer and no
    ground truth is recorded, the index stays -1 and [call] returns the
    running maxima with the last ground truth, and adds one example of that
    score to the top level and to the cell of the answer type of that last
    ground truth and the head, leaving every other cell as it was.  The
    maxima are (0, 0, 0, 0) when no score that is compared has a component
    above 0.0, and when no score has a negative component, where no ground
    truth is compared at all. *)
Theorem no_record_selects_last
    (pred : prediction) (front : list annotation) (last_truth : annotation)
    (ability : pystr) (self : evaluator)
    (pairs : list (list pystr * pystr)) (scs : list scores) :
  map_result answer_json_to_strings (front ++ [last_truth]) = Ok pairs ->
  Forall2 (fun g s => compute_em_and_f1 pred g = Ok s) (map fst pairs) scs ->
  (forall k, records (combine (map fst pairs) scs) k = false) ->
  exists m strings last_type self',
    m = running_maxima (combine (map fst pairs) scs) /\
    metric_max_over_ground_truths compute_em_and_f1 pred (map fst pairs) =
      Ok (m, -1) /\
    answer_json_to_strings last_truth = Ok (strings, last_type) /\
    call answer_json_to_strings compute_em_and_f1 pred (front ++ [last_truth])
      ability self = (self', Ok (m, last_truth)) /\
    one_example_added m last_type ability self self' /\
    (Forall (fun s => above_zero s = false)
       (compared_items (combine (map fst pairs) scs)) -> m = zeros) /\
    (FloatOrder -> Forall (fun s => nonneg s = true) scs ->
     m = zeros /\ Forall (fun g => compared g = false) (map fst pairs)).
Proof.
  intros Hn Hsc Hrec.
  set (m := running_maxima (combine (map fst pairs) scs)).
  assert (Hm : metric_max_over_ground_truths compute_em_and_f1 pred (map fst pairs) =
               Ok (m, -1)).
  { rewrite (metric_max_scored _ _ _ _ Hsc).
    destruct (forall2_combine _ _ _ Hsc) as [_ [_ E3]].
    rewrite <- E3. f_equal. f_equal. apply last_index_none. intros k _. apply Hrec. }
  destruct (call_returns answer_json_to_strings compute_em_and_f1 pred
              (front ++ [last_truth]) ability self pairs m (-1))
    as [t [g [Et [Eg Ecall]]]];
    [now destruct front|exact Hn|exact Hm|].
  rewrite py_index_last in Eg. inversion Eg; subst g.
  assert (Hlast : exists strings, answer_json_to_strings last_truth = Ok (strings, t)).
  { pose proof Hn as Hn'. apply map_result_forall2 in Hn'.
    apply Forall2_app_inv_l in Hn'.
    destruct Hn' as [ps [qs [_ [Hq ->]]]].
    inversion Hq as [|x [strings t'] xs ys Hx Hnil]; subst.
    inversion Hnil; subst. rewrite map_app in Et. cbn [map snd] in Et.
    rewrite py_index_last in Et. inversion Et; subst. now exists strings. }
  destruct Hlast as [strings Hlast].
  exists m, strings, t, (credit m t ability self).
  split; [reflexivity|]. split; [exact Hm|]. split; [exact Hlast|].
  split; [exact Ecall|]. split; [apply credit_observed|]. split.
  - apply running_maxima_stay.
  - intros Horder Hrange.
    assert (Hnone : Forall (fun item => compared (fst item) = false)
                      (combine (map fst pairs) scs)).
    { apply no_record_no_compared; [|exact Hrec].
      destruct (forall2_combine _ _ _ Hsc) as [_ [E2 _]].
      apply Forall_forall. intros [g s] Hin. cbn [snd].
      rewrite Forall_forall in Hrange. apply Hrange.
      rewrite <- E2. apply in_map_iff. now exists (g, s). }
    split; [now apply running_maxima_no_compared|].
    destruct (forall2_combine _ _ _ Hsc) as [E1 _].
    rewrite <- E1. apply Forall_map.
    eapply Forall_impl; [|exact Hnone]. now intros [g s].
Qed.
End NoRecordCall.

Section NoRecordCallExamples.
Import Fixture OutOfRange.
Local Existing Instance b64.

(** A ground truth whose score has a negative F1 raises the three other
    maxima and is not recorded either. *)
Example mixed_signs_not_recorded :
  metric_max_over_ground_truths (constant mixed) tt [[str "5"]] =
  Ok ((one, fzero, one, one), -1).
Proof. reflexivity. Qed.

(** C2 fails as stated: a ground truth scored (1.0, nan, 1.0, 1.0) raises
    three of the maxima and is not recorded, since nan equals nothing; the
    index stays -1 and the maxima returned are (1.0, 0.0, 1.0, 1.0), not
    (0, 0, 0, 0). *)
Lemma no_record_maxima_not_zeros :
  (forall k, records (combine [[str "5"]] [unordered]) k = false) /\
  metric_max_over_ground_truths (constant unordered) tt [[str "5"]] =
    Ok ((one, fzero, one, one), -1) /\
  snd (call normalised (constant unordered) tt [([str "5"], str "number")]
         (str "count_head") init) =
    Ok ((one, fzero, one, one), ([str "5"], str "number")) /\
  (one, fzero, one, one) <> zeros.
Proof.
  split; [intros [|[|k]]; reflexivity|].
  split; [reflexivity|]. split; [reflexivity|]. discriminate.
Qed.

(** Two blank ground truths: none is compared, the last one is returned and
    its answer type is credited. *)
Lemma no_record_selects_last_witness :
  exists self',
    call normalised (constant ones) tt
      ([([str ""], str "span")] ++ [([str " "], str "date")]) (str "span_head") init =
    (self', Ok (zeros, ([str " "], str "date"))) /\
    _count self' = 1 /\
    lookup2 (str "date") (str "span_head") (_answer_type_head_count self') = Some 1 /\
    lookup2 (str "span") (str "span_head") (_answer_type_head_count self') = None.
Proof.
  destruct (no_record_selects_last normalised (constant ones) tt
              [([str ""], str "span")] ([str " "], str "date") (str "span_head") init
              [([str ""], str "span"); ([str " "], str "date")] [ones; ones])
    as [m [strings [t [self' [Em [_ [Et [Ecall [Hadded [Hzero _]]]]]]]]]].
  - reflexivity.
  - repeat constructor.
  - intros [|[|[|k]]]; reflexivity.
  - injection Et as _ <-.
    rewrite (Hzero (Forall_nil _)) in Ecall.
    destruct Hadded as [Hn [_ [_ [_ [_ [Hcell [_ [_ [_ [_ Hrest]]]]]]]]]].
    exists self'. split; [exact Ecall|]. split; [exact Hn|].
    split; [exact Hcell|].
    destruct (Hrest (str "span") (str "span_head")) as [Hc _]; [discriminate|].
    exact Hc.
Defined.
End NoRecordCallExamples.

(** ** Dictionaries filled with fresh keys *)

Section FreshKeys.
Context {V : Type}.
Implicit Types (d : dict V) (k : pystr) (v : V).

Lemma setitem_fresh k v d : lookup k d = None -> setitem k v d = d ++ [(k, v)].
Proof.
  induction d as [|[k0 v0] d IH]; simpl; [reflexivity|].
  destruct (pystr_eqb k k0); [discriminate|]. intros E. now rewrite IH.
Qed.

Lemma lookup_app k d1 d2 :
  lookup k (d1 ++ d2) =
  match lookup k d1 with Some v => Some v | None => lookup k d2 end.
Proof.
  induction d1 as [|[k0 v0] d1 IH]; simpl; [reflexivity|].
  now destruct (pystr_eqb k k0).
Qed.

Lemma setitem_last k v w d :
  lookup k d = None -> setitem k v (d ++ [(k, w)]) = d ++ [(k, v)].
Proof.
  induction d as [|[k0 v0] d IH]; simpl.
  - now rewrite pystr_eqb_refl.
  - destruct (pystr_eqb k k0); [discriminate|]. intros E. now rewrite IH.
Qed.

Lemma lookup_existsb k d :
  existsb (pystr_eqb k) (keys d) = match lookup k d with Some _ => true | None => false end.
Proof.
  induction d as [|[k0 v0] d IH]; simpl; [reflexivity|].
  now destruct (pystr_eqb k k0).
Qed.
End FreshKeys.

Section FoldFresh.
Context {A V : Type}.
Variable key : A -> pystr.
Variable g : A -> V.

(** Distinct keys that are set one after the other are appended in that
    order. *)
Lemma fold_setitem_fresh (xs : list A) (d0 : dict V) :
  NoDup (map key xs) ->
  (forall x, In x xs -> lookup (key x) d0 = None) ->
  fold_left (fun d x => setitem (key x) (g x) d) xs d0 =
  d0 ++ map (fun x => (key x, g x)) xs.
Proof.
  revert d0. induction xs as [|x xs IH]; intros d0 Hnd Hfresh.
  - now rewrite app_nil_r.
  - cbn [fold_left map]. inversion Hnd as [|? ? Hx Hrest]; subst.
    rewrite (setitem_fresh (key x) (g x) d0) by (apply Hfresh; now left).
    rewrite IH; [now rewrite <- app_assoc|exact Hrest|].
    intros y Hy. rewrite lookup_app, (Hfresh y (or_intror Hy)). cbn [lookup].
    destruct (pystr_eqb (key y) (key x)) eqn:E; [|reflexivity].
    apply pystr_eqb_eq in E. exfalso. apply Hx. rewrite <- E. now apply in_map.
Qed.
End FoldFresh.

Section FoldAddKeys.
Context {A V : Type}.
Variable key : A -> pystr.
Variable val : A -> V.
Variable plus : V -> V -> V.
Variable dflt : V.

Lemma keys_add_item (k : pystr) (x : V) (d : dict V) :
  keys (add_item plus dflt k x d) =
  if existsb (pystr_eqb k) (keys d) then keys d else keys d ++ [k].
Proof.
  rewrite add_item_setitem, keys_setitem, lookup_existsb.
  now destruct (lookup k d).
Qed.

(** The keys of a dictionary filled by [d[k] += x] are the keys added, each
    where it is first seen. *)
Lemma keys_fold_add_item (xs : list A) (d0 : dict V) :
  keys (fold_left (fun d x => add_item plus dflt (key x) (val x) d) xs d0) =
  fold_left (fun seen k => if existsb (pystr_eqb k) seen then seen else seen ++ [k])
    (map key xs) (keys d0).
Proof.
  revert d0. induction xs as [|x xs IH]; intros d0; [reflexivity|].
  cbn [fold_left map]. now rewrite IH, keys_add_item.
Qed.
End FoldAddKeys.

Section FoldSetitem2Fresh.
Context {V : Type}.
Variable g : pystr * pystr * Z -> V.

Lemma setitem2_new (t h : pystr) (v : V) (d : dict (dict V)) :
  lookup t d = None -> setitem2 t h v d = d ++ [(t, ([(h, v)] : dict V))].
Proof.
  intros E. unfold setitem2.
  rewrite (getitem_default_missing [] t d E), setitem_setitem.
  now apply setitem_fresh.
Qed.

Lemma setitem2_last (t h : pystr) (v : V) (inner : dict V) (d : dict (dict V)) :
  lookup t d = None -> lookup h inner = None ->
  setitem2 t h v (d ++ [(t, inner)]) = d ++ [(t, inner ++ [(h, v)])].
Proof.
  intros Et Eh. unfold setitem2.
  assert (El : lookup t (d ++ [(t, inner)]) = Some inner)
    by (rewrite lookup_app, Et; cbn [lookup]; now rewrite pystr_eqb_refl).
  rewrite (getitem_default_present [] t inner _ El).
  rewrite (setitem_fresh h v inner Eh). now apply setitem_last.
Qed.

Lemma fold_setitem2_last (t : pystr) (hc : dict Z) (inner : dict V)
    (d : dict (dict V)) :
  lookup t d = None -> NoDup (keys inner ++ keys hc) ->
  fold_left (fun d x => setitem2 (fst (fst x)) (snd (fst x)) (g x) d)
    (entry_cells t hc) (d ++ [(t, inner)]) =
  d ++ [(t, inner ++ map (fun hv => (fst hv, g (t, fst hv, snd hv))) hc)].
Proof.
  intros Et. revert inner. induction hc as [|[h c] hc IH]; intros inner Hnd.
  - cbn. now rewrite app_nil_r.
  - cbn [entry_cells map fold_left fst snd]. fold (entry_cells t hc).
    assert (Eh : lookup h inner = None).
    { apply lookup_none_keys. intros Hin.
      apply NoDup_remove_2 in Hnd. apply Hnd. apply in_or_app. now left. }
    rewrite (setitem2_last t h _ inner d Et Eh), IH.
    + now rewrite <- app_assoc.
    + unfold keys in *. rewrite map_app. cbn [map fst].
      rewrite <- app_assoc. exact Hnd.
Qed.

(** The cells of distinct types with distinct heads, set one after the
    other, give the two-level dictionary entry by entry. *)
Lemma fold_setitem2_fresh (entries : dict (dict Z)) (d : dict (dict V)) :
  NoDup (keys entries) ->
  (forall t hc, In (t, hc) entries ->
                NoDup (keys hc) /\ hc <> [] /\ lookup t d = None) ->
  fold_left (fun d x => setitem2 (fst (fst x)) (snd (fst x)) (g x) d)
    (cells entries) d =
  d ++ map (fun entry =>
              (fst entry,
               map (fun hv => (fst hv, g (fst entry, fst hv, snd hv))) (snd entry)))
         entries.
Proof.
  revert d. induction entries as [|[t hc] entries IH]; intros d Hnd Hent.
  - cbn. now rewrite app_nil_r.
  - change (cells ((t, hc) :: entries)) with (entry_cells t hc ++ cells entries).
    rewrite fold_left_app. cbn [map fst snd].
    destruct (Hent t hc (or_introl eq_refl)) as [Hhc [Hne Et]].
    inversion Hnd as [|? ? Ht Hrest]; subst.
    destruct hc as [|[h c] hc]; [congruence|].
    cbn [entry_cells map fold_left fst snd]. fold (entry_cells t hc).
    rewrite (setitem2_new t h _ d Et).
    rewrite (fold_setitem2_last t hc ([(h, g (t, h, c))] : dict V) d Et)
      by exact Hhc.
    rewrite IH; [now rewrite <- app_assoc|exact Hrest|].
    intros t' hc' Hin. destruct (Hent t' hc' (or_intror Hin)) as [H1 [H2 H3]].
    repeat split; [exact H1|exact H2|].
    rewrite lookup_app, H3. cbn [lookup].
    destruct (pystr_eqb t' t) eqn:E; [|reflexivity].
    apply pystr_eqb_eq in E. subst. exfalso. apply Ht.
    apply in_map_iff. now exists (t, hc').
Qed.
End FoldSetitem2Fresh.

(** ** The views of [get_metric], entry by entry *)

Section ViewShapeFacts.
Context `{Float}.
Variable self : evaluator.
Hypothesis Hself : consistent self.

Lemma after_types_counts :
  count_per_head (after_types self) =
  per_head_counts (cells (_answer_type_head_count self)) [].
Proof.
  destruct (type_steps_fields self (_answer_type_head_count self) locals_init)
    as [_ [_ [_ [_ [_ [_ [_ T8]]]]]]].
  exact T8.
Qed.

Lemma after_heads_types :
  scores_per_answer_type (after_heads self) =
  type_tuples self (_answer_type_head_count self) [].
Proof.
  destruct (type_steps_fields self (_answer_type_head_count self) locals_init)
    as [_ [T2 _]].
  cbv zeta in T2. fold (after_types self) in T2.
  destruct (after_heads_fields self) as [_ [_ [F3 [F4 [F5 F6]]]]].
  destruct (per_head_steps_fields (count_per_head (after_types self))
              (after_types self)) as [_ [P2 _]].
  - intros item Hin. rewrite after_types_counts in Hin.
    apply (heads_summed self) in Hin.
    rewrite F3, F4, F5, F6, !(lookup_per_head_sums self), Hin.
    repeat split; discriminate.
  - cbv zeta in P2. unfold after_heads. now rewrite P2, T2.
Qed.

Lemma per_type_shape :
  scores_per_answer_type (after_heads self) = per_type_view self.
Proof.
  rewrite after_heads_types. unfold type_tuples, per_type_view.
  rewrite (fold_setitem_fresh fst (type_tuple self)); [reflexivity| |reflexivity].
  apply (types_distinct self Hself).
Qed.

Lemma per_type_per_head_shape :
  scores_per_answer_type_and_head (after_heads self) = per_type_per_head_view self.
Proof.
  destruct (after_heads_fields self) as [F1 _]. rewrite F1.
  unfold cell_tuples, per_type_per_head_view.
  rewrite (fold_setitem2_fresh (cell_tuple self)); [reflexivity| |].
  - apply (types_distinct self Hself).
  - intros t hc Hin.
    pose proof (in_lookup t hc _ (types_distinct self Hself) Hin) as Et.
    destruct (heads_distinct self Hself t hc Et) as [Hnd Hne].
    repeat split; assumption.
Qed.

(** The tuple stored for a head is the tuple of its totals. *)
Lemma stored_head_tuple_totals (item : pystr * Z) :
  In item (per_head_counts (cells (_answer_type_head_count self)) []) ->
  stored_head_tuple (after_types self) item = head_tuple self (fst item).
Proof.
  intros Hin. pose proof (heads_summed self item Hin) as Hex.
  destruct (after_heads_fields self) as [_ [_ [F3 [F4 [F5 F6]]]]].
  unfold stored_head_tuple, head_tuple. rewrite F3, F4, F5, F6. unfold held.
  rewrite !(lookup_per_head_sums self), Hex. f_equal.
  destruct item as [h c]. cbn [fst snd] in *.
  assert (Hl : lookup h (per_head_counts (cells (_answer_type_head_count self)) [])
               = Some c).
  { apply in_lookup; [|exact Hin].
    unfold per_head_counts. apply nodup_fold_add_item. constructor. }
  rewrite (lookup_per_head_counts self), Hex in Hl. congruence.
Qed.

Lemma per_head_stored :
  scores_per_head (after_heads self) =
  map (fun item => (fst item, stored_head_tuple (after_types self) item))
    (per_head_counts (cells (_answer_type_head_count self)) []).
Proof.
  destruct (after_heads_fields self) as [_ [F2 _]]. rewrite F2.
  rewrite (fold_setitem_fresh fst (stored_head_tuple (after_types self)));
    [reflexivity| |reflexivity].
  unfold per_head_counts. apply nodup_fold_add_item. constructor.
Qed.

Lemma per_head_shape : scores_per_head (after_heads self) = per_head_view self.
Proof.
  rewrite per_head_stored. unfold per_head_view, first_seen.
  pose proof (keys_fold_add_item (fun x : pystr * pystr * Z => snd (fst x))
                (fun x => snd x) Z.add 0 (cells (_answer_type_head_count self)) [])
    as Hk.
  fold (per_head_counts (cells (_answer_type_head_count self)) []) in Hk.
  cbn [keys map] in Hk. rewrite <- Hk.
  unfold keys. rewrite map_map. apply map_ext_in.
  intros item Hin. now rewrite stored_head_tuple_totals.
Qed.

Lemma support_mean_tuple (em f1 p r : float) (n : Z) :
  support (mean_tuple em f1 p r n) = n.
Proof. reflexivity. Qed.

Lemma supports_per_type :
  supports (per_type_view self) = cells_sum (_answer_type_head_count self).
Proof.
  unfold per_type_view.
  induction (_answer_type_head_count self) as [|[t hc] d IH]; [reflexivity|].
  cbn [map supports fold_right cells_sum snd fst].
  unfold supports, cells_sum in IH. rewrite IH. reflexivity.
Qed.

Lemma supports_cells (t : pystr) (hc : dict Z) :
  supports (map (fun hv => (fst hv, cell_tuple self (t, fst hv, snd hv))) hc) =
  dict_sum hc.
Proof.
  induction hc as [|[h c] hc IH]; [reflexivity|].
  cbn [map supports fold_right dict_sum snd fst].
  unfold supports, dict_sum in IH. rewrite IH. reflexivity.
Qed.

Lemma supports_per_type_per_head :
  supports2 (per_type_per_head_view self) = cells_sum (_answer_type_head_count self).
Proof.
  unfold per_type_per_head_view.
  induction (_answer_type_head_count self) as [|[t hc] d IH]; [reflexivity|].
  cbn [map supports2 fold_right cells_sum snd fst].
  unfold supports2, cells_sum in IH. rewrite IH. now rewrite supports_cells.
Qed.

Lemma supports_per_head :
  supports (scores_per_head (after_heads self)) =
  cells_sum (_answer_type_head_count self).
Proof.
  rewrite per_head_stored, <- after_types_counts.
  assert (Hcounted : counted (count_per_head (after_types self))
                       (0 + cells_sum (_answer_type_head_count self))).
  { apply type_steps_counted.
    - split; [intros h c []|reflexivity].
    - apply (consistent_positive self Hself). }
  destruct Hcounted as [_ Hsum]. cbn [Z.add] in Hsum. rewrite <- Hsum.
  clear Hsum.
  induction (count_per_head (after_types self)) as [|[h c] d IH]; [reflexivity|].
  cbn [map supports fold_right dict_sum snd fst].
  unfold supports, dict_sum in IH. rewrite IH. reflexivity.
Qed.
End ViewShapeFacts.

Section ViewClaims.
Context `{Float}.
Context {annotation prediction : Type}.
Variable answer_json_to_strings : annotation -> result (list pystr * pystr).
Variable compute_em_and_f1 : prediction -> list pystr -> result scores.

Local Notation "'STATE' ops" :=
  (fst (history answer_json_to_strings compute_em_and_f1 ops))
  (at level 10, ops at level 9).

(** X8.  On an evaluator that operations on a fresh one lead to,
    [get_metric] without reset leaves the evaluator as it was, whether it
    returns or raises: no read inserts a key; so does [get_metric] with reset
    when it raises, and when it returns the evaluator is fresh. *)
Theorem get_metric_keeps_state (ops : list op) :
  fst (get_metric false (STATE ops)) = STATE ops /\
  get_metric false (fst (get_metric false (STATE ops))) =
    get_metric false (STATE ops) /\
  (forall e, snd (get_metric true (STATE ops)) = Raise e ->
             fst (get_metric true (STATE ops)) = STATE ops) /\
  (forall v, snd (get_metric true (STATE ops)) = Ok v ->
             fst (get_metric true (STATE ops)) = init).
Proof.
  destruct (history_consistent answer_json_to_strings compute_em_and_f1 ops)
    as [Hc _].
  set (self := STATE ops) in *. clearbody self.
  assert (Hfalse : fst (get_metric false self) = self)
    by (destruct (get_metric_yields false self Hc) as [E|[E _]]; now rewrite E).
  split; [exact Hfalse|]. split; [now rewrite Hfalse|].
  destruct (get_metric_yields true self Hc) as [E|[E _]]; rewrite E; cbn [fst snd];
    split; intros; congruence.
Qed.

(** X9.  [reset], and [get_metric] with reset when it returns, make the
    evaluator forget what came before: the operations that follow leave it as
    they leave a fresh one. *)
Theorem reset_forgets (ops1 ops2 : list op) :
  history answer_json_to_strings compute_em_and_f1 (ops1 ++ DoReset :: ops2) =
    history answer_json_to_strings compute_em_and_f1 ops2 /\
  (forall v, snd (get_metric true (STATE ops1)) = Ok v ->
     history answer_json_to_strings compute_em_and_f1
       (ops1 ++ DoGetMetric true :: ops2) =
     history answer_json_to_strings compute_em_and_f1 ops2).
Proof.
  unfold history. rewrite !fold_left_app. cbn [fold_left].
  destruct (history_consistent answer_json_to_strings compute_em_and_f1 ops1)
    as [Hc _].
  unfold history in Hc.
  destruct (fold_left (step answer_json_to_strings compute_em_and_f1) ops1 (init, 0))
    as [self n].
  cbn [fst] in *. split; [reflexivity|].
  intros v Ev. cbn [step].
  destruct (get_metric_yields true self Hc) as [E|[E _]]; rewrite E in *.
  - reflexivity.
  - discriminate.
Qed.

(** X10.  When the counts convert to floats, the three breakdowns that
    [get_metric] returns list the observed keys and no other: the answer
    types in the order they were first credited, under each its heads in the
    order they were first credited, and the heads in the order they are first
    met there; each key holds its tuple of means and its count. *)
Theorem views_list_observed_keys (ops : list op) (reset_flag : bool) :
  (forall k, 1 <= k <= _count (STATE ops) -> of_int k <> None) ->
  exists overall_view,
    get_metric reset_flag (STATE ops) =
    ((if reset_flag then init else STATE ops),
     Ok (overall_view, per_type_per_head_view (STATE ops),
         per_type_view (STATE ops), per_head_view (STATE ops))).
Proof.
  destruct (history_consistent answer_json_to_strings compute_em_and_f1 ops)
    as [Hc _].
  set (self := STATE ops) in *. clearbody self. intros Hconv.
  rewrite (get_metric_returns self reset_flag Hc Hconv). unfold views.
  rewrite (per_type_shape self Hc), (per_type_per_head_shape self Hc),
    (per_head_shape self).
  now exists (overall self).
Qed.

(** X11.  When the counts convert to floats, the support counts of each of
    the three breakdowns that [get_metric] returns add up to the top-level
    count. *)
Theorem supports_add_up (ops : list op) (reset_flag : bool) :
  (forall k, 1 <= k <= _count (STATE ops) -> of_int k <> None) ->
  exists overall_view per_type_per_head per_type per_head,
    get_metric reset_flag (STATE ops) =
    ((if reset_flag then init else STATE ops),
     Ok (overall_view, per_type_per_head, per_type, per_head)) /\
    supports2 per_type_per_head = _count (STATE ops) /\
    supports per_type = _count (STATE ops) /\
    supports per_head = _count (STATE ops).
Proof.
  destruct (history_consistent answer_json_to_strings compute_em_and_f1 ops)
    as [Hc _].
  set (self := STATE ops) in *. clearbody self. intros Hconv.
  rewrite (get_metric_returns self reset_flag Hc Hconv). unfold views.
  eexists _, _, _, _. split; [reflexivity|].
  rewrite (count_is_sum self Hc).
  rewrite (per_type_shape self Hc), (per_type_per_head_shape self Hc).
  repeat split.
  - apply supports_per_type_per_head.
  - apply supports_per_type.
  - now apply supports_per_head.
Qed.
End ViewClaims.

(** ** The top-level sums, call by call and cell by cell *)

Section WeightedSums.
Context {V W : Type}.
Variable plus : V -> V -> V.
Variable zero : V.
Variable w : W -> V.
Hypothesis plus_assoc : forall x y z, plus x (plus y z) = plus (plus x y) z.
Hypothesis plus_comm : forall x y, plus x y = plus y x.
Hypothesis plus_zero_l : forall x, plus zero x = x.

Local Notation "'WSUM' d" :=
  (fold_right (fun (kv : pystr * W) acc => plus (w (snd kv)) acc) zero d)
  (at level 10, d at level 9).

Lemma wsum_setitem_present (k : pystr) (v0 v' : W) (x : V) (d : dict W) :
  lookup k d = Some v0 -> w v' = plus (w v0) x ->
  WSUM (setitem k v' d) = plus (WSUM d) x.
Proof.
  intros E Hw. induction d as [|[k0 v1] d IH]; [discriminate|].
  cbn [lookup setitem] in *. destruct (pystr_eqb k k0).
  - injection E as ->. cbn [fold_right snd]. rewrite Hw.
    rewrite <- !plus_assoc. f_equal. apply plus_comm.
  - cbn [fold_right snd]. rewrite (IH E). apply plus_assoc.
Qed.

Lemma wsum_setitem_missing (k : pystr) (v' : W) (d : dict W) :
  lookup k d = None -> WSUM (setitem k v' d) = plus (WSUM d) (w v').
Proof.
  intros E. induction d as [|[k0 v1] d IH].
  - cbn [setitem fold_right snd]. rewrite plus_zero_l, plus_comm. apply plus_zero_l.
  - cbn [lookup setitem] in *. destruct (pystr_eqb k k0); [discriminate|].
    cbn [fold_right snd]. rewrite (IH E). apply plus_assoc.
Qed.
End WeightedSums.

Section ExactTotals.
Context `{Float}.
Hypothesis Hexact : ExactSums.

Lemma float_sum_add_item (k : pystr) (x : float) (d : dict float) :
  float_sum (add_item fadd fzero k x d) = fadd (float_sum d) x.
Proof.
  unfold add_item, float_sum. destruct (lookup k d) as [v0|] eqn:E.
  - rewrite (getitem_default_present fzero k v0 d E).
    apply (wsum_setitem_present fadd fzero (fun v => v) fadd_assoc fadd_comm k v0);
      [exact E|reflexivity].
  - rewrite (getitem_default_missing fzero k d E), setitem_setitem.
    rewrite (wsum_setitem_missing fadd fzero (fun v => v) fadd_assoc fadd_comm
               fadd_zero_l k _ d E).
    now rewrite fadd_zero_l.
Qed.

Lemma float_cells_sum_add_item2 (t h : pystr) (x : float) (d : dict (dict float)) :
  float_cells_sum (add_item2 fadd fzero t h x d) = fadd (float_cells_sum d) x.
Proof.
  unfold add_item2, float_cells_sum. destruct (lookup t d) as [inner|] eqn:E.
  - rewrite (getitem_default_present [] t inner d E).
    apply (wsum_setitem_present fadd fzero float_sum fadd_assoc fadd_comm t inner);
      [exact E|apply float_sum_add_item].
  - rewrite (getitem_default_missing [] t d E), setitem_setitem.
    rewrite (wsum_setitem_missing fadd fzero float_sum fadd_assoc fadd_comm
               fadd_zero_l t _ d E).
    rewrite float_sum_add_item. cbn [float_sum fold_right]. now rewrite fadd_zero_l.
Qed.

Lemma balanced_init : balanced init.
Proof. repeat split. Qed.

Lemma balanced_credit (s : scores) (t h : pystr) (self : evaluator) :
  balanced self -> balanced (credit s t h self).
Proof.
  intros [Bem [Bf1 [Bp Br]]]. destruct s as [[[em f1] p] r].
  unfold balanced, credit.
  cbn [_total_em _total_f1 _total_p _total_r _answer_type_head_em
       _answer_type_head_f1 _answer_type_head_p _answer_type_head_r].
  rewrite !float_cells_sum_add_item2, Bem, Bf1, Bp, Br. repeat split.
Qed.
End ExactTotals.

Section TotalsClaims.
Context `{Float}.
Context {annotation prediction : Type}.
Variable answer_json_to_strings : annotation -> result (list pystr * pystr).
Variable compute_em_and_f1 : prediction -> list pystr -> result scores.

Local Notation "'STEP'" := (step answer_json_to_strings compute_em_and_f1).
Local Notation "'STATE' ops" :=
  (fst (history answer_json_to_strings compute_em_and_f1 ops))
  (at level 10, ops at level 9).

Lemma step_balanced (self : evaluator) (n : Z) (o : op) :
  ExactSums -> consistent self -> balanced self -> balanced (fst (STEP (self, n) o)).
Proof.
  intros Hexact Hc Hb. destruct o as [pred gts ability|pred gts|reset_flag|];
    cbn [step].
  - destruct (call_cases answer_json_to_strings compute_em_and_f1
                pred gts ability self) as [[e E]|[s [t [g E]]]]; rewrite E.
    + exact Hb.
    + cbn [fst]. now apply balanced_credit.
  - exact Hb.
  - destruct (get_metric_yields reset_flag self Hc) as [E|[E _]]; rewrite E.
    + cbn [fst]. destruct reset_flag; [apply balanced_init|exact Hb].
    + exact Hb.
  - apply balanced_init.
Qed.

Local Notation "'LOG_STEP'" := (log_step answer_json_to_strings compute_em_and_f1).

(** The top-level sums are the scores [log] added from the left. *)
Local Notation "'SUMMED' self log" :=
  (_total_em self = fold_left fadd (map score_em log) fzero /\
   _total_f1 self = fold_left fadd (map score_f1 log) fzero /\
   _total_p self = fold_left fadd (map score_p log) fzero /\
   _total_r self = fold_left fadd (map score_r log) fzero)
  (at level 10, self at level 9, log at level 9).

Lemma summed_credit (s : scores) (t h : pystr) (self : evaluator)
    (log : list scores) :
  SUMMED self log -> SUMMED (credit s t h self) (log ++ [s]).
Proof.
  intros [Eem [Ef1 [Ep Er]]]. destruct s as [[[em f1] p] r].
  rewrite !map_app, !fold_left_app.
  cbn [credit _total_em _total_f1 _total_p _total_r map fold_left].
  unfold score_em, score_f1, score_p, score_r in *. cbn [fst snd].
  now rewrite Eem, Ef1, Ep, Er.
Qed.

Lemma log_step_summed (self : evaluator) (log : list scores) (n : Z) (o : op) :
  consistent self -> SUMMED self log ->
  fst (LOG_STEP (self, log) o) = fst (STEP (self, n) o) /\
  SUMMED (fst (LOG_STEP (self, log) o)) (snd (LOG_STEP (self, log) o)).
Proof.
  intros Hc Hs. destruct o as [pred gts ability|pred gts|reset_flag|];
    cbn [log_step step].
  - destruct (call_cases answer_json_to_strings compute_em_and_f1
                pred gts ability self) as [[e E]|[s [t [g E]]]]; rewrite E.
    + now split.
    + cbn [fst snd]. split; [reflexivity|now apply summed_credit].
  - now split.
  - destruct (get_metric_yields reset_flag self Hc) as [E|[E _]]; rewrite E.
    + cbn [fst snd]. split; [reflexivity|]. destruct reset_flag; [|exact Hs].
      repeat split.
    + now split.
  - split; [reflexivity|]. repeat split.
Qed.

Lemma log_steps_summed (ops : list op) (self : evaluator) (log : list scores)
    (n : Z) :
  consistent self -> _count self = n -> SUMMED self log ->
  SUMMED (fst (fold_left STEP ops (self, n))) (snd (fold_left LOG_STEP ops (self, log))).
Proof.
  revert self log n. induction ops as [|o ops IH]; intros self log n Hc Hn Hs;
    [exact Hs|].
  cbn [fold_left].
  destruct (log_step_summed self log n o Hc Hs) as [Est Hs'].
  destruct (step_consistent answer_json_to_strings compute_em_and_f1
              self n o Hc Hn) as [Hc' Hn'].
  destruct (STEP (self, n) o) as [self1 n1].
  destruct (LOG_STEP (self, log) o) as [self2 log2].
  cbn [fst snd] in *. subst self2. now apply IH.
Qed.

Lemma history_balanced (ops : list op) : ExactSums -> balanced (STATE ops).
Proof.
  intros Hexact. induction ops as [|o ops IH] using rev_ind.
  - apply balanced_init.
  - unfold history in *. rewrite fold_left_app. cbn [fold_left].
    destruct (history_consistent answer_json_to_strings compute_em_and_f1 ops)
      as [Hc _].
    unfold history in Hc.
    destruct (fold_left STEP ops (init, 0)) as [self n]. cbn [fst] in *.
    now apply step_balanced.
Qed.

(** X12.  After any operations on a fresh evaluator, each of the four
    top-level sums is that component of the scores that the calls have
    returned since the construction or the last reset, added from 0.0 one
    by one in the order of the calls; when the addition of scores is
    associative and commutative with 0.0 as identity, it is the sum of the
    cells of its dictionary too. *)
Theorem totals_are_ordered_sums (ops : list op) :
  _total_em (STATE ops) =
    fold_left fadd
      (map score_em (returned_scores answer_json_to_strings compute_em_and_f1 ops))
      fzero /\
  _total_f1 (STATE ops) =
    fold_left fadd
      (map score_f1 (returned_scores answer_json_to_strings compute_em_and_f1 ops))
      fzero /\
  _total_p (STATE ops) =
    fold_left fadd
      (map score_p (returned_scores answer_json_to_strings compute_em_and_f1 ops))
      fzero /\
  _total_r (STATE ops) =
    fold_left fadd
      (map score_r (returned_scores answer_json_to_strings compute_em_and_f1 ops))
      fzero /\
  (ExactSums -> balanced (STATE ops)).
Proof.
  assert (Hs : SUMMED (STATE ops)
                 (returned_scores answer_json_to_strings compute_em_and_f1 ops)).
  { apply (log_steps_summed ops init [] 0 consistent_init eq_refl).
    repeat split. }
  destruct Hs as [Eem [Ef1 [Ep Er]]].
  split; [exact Eem|]. split; [exact Ef1|]. split; [exact Ep|].
  split; [exact Er|].
  apply history_balanced.
Qed.
End TotalsClaims.

(** ** When the scorer or the normaliser raises *)

Lemma map_result_ok_iff {A B} (f : A -> result B) (xs : list A) :
  (exists ys, map_result f xs = Ok ys) <->
  Forall (fun x => exists y, f x = Ok y) xs.
Proof.
  induction xs as [|x xs IH]; cbn [map_result].
  - split; [constructor|now exists []].
  - split.
    + intros [ys E]. destruct (f x) as [y|] eqn:Ex; cbn [rbind] in E; [|discriminate].
      destruct (map_result f xs) as [ys'|]; cbn [rbind] in E; [|discriminate].
      constructor; [now exists y|]. apply IH. now exists ys'.
    + intros Hall. inversion Hall as [|x0 xs0 [y Ey] Hrest]; subst.
      apply IH in Hrest. destruct Hrest as [ys Eys].
      exists (y :: ys). now rewrite Ey, Eys.
Qed.

Section ScorerErrors.
Context `{Float}.
Context {prediction : Type}.
Variable metric_fn : prediction -> list pystr -> result scores.
Variable pred : prediction.

(** X13.  [metric_max_over_ground_truths] raises exactly when the scorer
    raises on a ground truth, blank or not, and the exception is the one of
    the first ground truth on which the scorer raises; otherwise it
    returns. *)
Theorem metric_max_first_exception (ground_truths : list (list pystr)) (e : exn) :
  metric_max_over_ground_truths metric_fn pred ground_truths = Raise e <->
  exists front g rest,
    ground_truths = front ++ g :: rest /\
    Forall (fun x => exists s, metric_fn pred x = Ok s) front /\
    metric_fn pred g = Raise e.
Proof.
  rewrite metric_max_select. split.
  - intros E.
    destruct (map_result (metric_fn pred) ground_truths) as [scs|e'] eqn:Em;
      cbn [rbind] in E; [discriminate|].
    injection E as ->. apply map_result_raise in Em.
    destruct Em as [front [g [rest [ys [-> [Hf Hg]]]]]].
    exists front, g, rest. repeat split; [|exact Hg].
    apply map_result_ok_iff. now exists ys.
  - intros [front [g [rest [-> [Hf Hg]]]]].
    apply map_result_ok_iff in Hf. destruct Hf as [ys Hf].
    assert (Em : map_result (metric_fn pred) (front ++ g :: rest) = Raise e)
      by (apply map_result_raise; now exists front, g, rest, ys).
    now rewrite Em.
Qed.
End ScorerErrors.

Section CallReturns.
Context `{Float}.
Context {annotation prediction : Type}.
Variable answer_json_to_strings : annotation -> result (list pystr * pystr).
Variable compute_em_and_f1 : prediction -> list pystr -> result scores.

Local Notation "'CALL'" := (call answer_json_to_strings compute_em_and_f1).

(** X14.  [call] returns exactly when there is a ground truth, the
    normaliser returns on every ground truth and the scorer returns on every
    normalised answer: indexing with the maximizing index never raises, not
    when it is -1. *)
Theorem call_returns_iff (pred : prediction) (ground_truths : list annotation)
    (ability : pystr) (self : evaluator) :
  (exists self' v, CALL pred ground_truths ability self = (self', Ok v)) <->
  ground_truths <> [] /\
  exists pairs,
    map_result answer_json_to_strings ground_truths = Ok pairs /\
    Forall (fun strings => exists s, compute_em_and_f1 pred strings = Ok s)
      (map fst pairs).
Proof.
  split.
  - intros [self' [[s g] E]].
    destruct (call_ok_stages _ _ _ _ _ _ _ _ _ E)
      as [pairs [idx [t [En [Em [_ [Eg _]]]]]]].
    split.
    + intros ->. apply py_index_position in Eg. now destruct (Z.to_nat _).
    + exists pairs. split; [exact En|].
      rewrite metric_max_select in Em. apply map_result_ok_iff.
      destruct (map_result (compute_em_and_f1 pred) (map fst pairs)) as [scs|];
        [now exists scs|discriminate].
  - intros [Hne [pairs [En Hall]]].
    apply map_result_ok_iff in Hall. destruct Hall as [scs Es].
    destruct (call_returns answer_json_to_strings compute_em_and_f1 pred
                ground_truths ability self pairs
                (fst (select_best (compared_scores (map fst pairs) scs)))
                (snd (select_best (compared_scores (map fst pairs) scs))) Hne En)
      as [t [g [_ [_ E]]]].
    + rewrite metric_max_select, Es. cbn [rbind]. now rewrite <- surjective_pairing.
    + now exists (credit (fst (select_best (compared_scores (map fst pairs) scs)))
                    t ability self), (fst (select_best (compared_scores (map fst pairs) scs)), g).
Qed.
End CallReturns.

(** ** The further properties on the scenarios *)

Section SelectionWitnesses.
Import Fixture.
Local Existing Instance b64.

Lemma maximizing_index_compared_witness :
  0 = -1 \/
  (0 <= 0 < Z.of_nat (length five_then_empty) /\
   exists g, nth_error five_then_empty (Z.to_nat 0) = Some g /\ compared g = true).
Proof.
  exact (maximizing_index_compared (constant ones) tt five_then_empty ones 0 eq_refl).
Defined.

Lemma maxima_drawn_from_scores_witness :
  exists scs,
    Forall2 (fun g s => constant ones tt g = Ok s) five_then_empty scs /\
    In (score_em ones)
       (fzero :: map score_em (compared_items (combine five_then_empty scs))) /\
    In (score_f1 ones)
       (fzero :: map score_f1 (compared_items (combine five_then_empty scs))) /\
    In (score_p ones)
       (fzero :: map score_p (compared_items (combine five_then_empty scs))) /\
    In (score_r ones)
       (fzero :: map score_r (compared_items (combine five_then_empty scs))).
Proof.
  exact (maxima_drawn_from_scores (constant ones) tt five_then_empty ones 0 eq_refl).
Defined.

Lemma maxima_bound_scores_witness :
  fltb (score_em ones) (score_em (one, half, half, half)) = false /\
  fltb (score_f1 ones) (score_f1 (one, half, half, half)) = false /\
  fltb (score_p ones) (score_p (one, half, half, half)) = false /\
  fltb (score_r ones) (score_r (one, half, half, half)) = false.
Proof.
  apply (proj2 (maxima_bound_scores
                  (tabled [([str "a"], (one, half, half, half));
                           ([str "b"], (fzero, one, one, one))]) tt
                  [[str "a"]; [str "b"]] ones 0 eq_refl) [str "a"]).
  - now left.
  - reflexivity.
  - reflexivity.
Defined.

Lemma no_index_iff_none_compared_witness :
  0 = -1 <-> Forall (fun g => compared g = false) five_then_empty.
Proof.
  apply (no_index_iff_none_compared (constant ones) tt five_then_empty
           [ones; ones] ones 0).
  - repeat constructor.
  - repeat constructor.
  - reflexivity.
Defined.

Lemma metric_max_first_exception_witness :
  exists front g rest,
    [[str "5"]; [str " "]] = front ++ g :: rest /\
    Forall (fun x => exists s,
              tabled [([str "5"], ones)] tt x = Ok s) front /\
    tabled [([str "5"], ones)] tt g = Raise (ExternalError "scorer").
Proof.
  exact (proj1 (metric_max_first_exception (tabled [([str "5"], ones)]) tt
                  [[str "5"]; [str " "]] (ExternalError "scorer")) eq_refl).
Defined.
End SelectionWitnesses.

Section CallWitnesses.
Import Fixture.
Local Existing Instance b64.


Lemma call_changes_one_cell_witness :
  exists self',
    call normalised carried ones [([str "5"], str "number")] (str "count_head") init =
      (self', Ok (ones, ([str "5"], str "number"))) /\
    _count self' = _count init + 1 /\
    exists t,
      lookup2 t (str "count_head") (_answer_type_head_count self') = Some (0 + 1) /\
      forall t' h',
        (t', h') <> (t, str "count_head") ->
        lookup2 t' h' (_answer_type_head_count self') = None.
Proof.
  exists (credit ones (str "number") (str "count_head") init).
  split; [reflexivity|].
  destruct (call_changes_one_cell normalised carried ones
              [([str "5"], str "number")] (str "count_head") init
              (credit ones (str "number") (str "count_head") init)
              ones ([str "5"], str "number") eq_refl)
    as [strings [t [_ [Hn [Hc [_ [_ [_ [_ Hrest]]]]]]]]].
  split; [exact Hn|]. exists t. split; [exact Hc|].
  intros t' h' Hne. exact (proj1 (Hrest t' h' Hne)).
Defined.

Lemma call_returns_iff_witness :
  [([str "5"], str "number")] <> [] /\
  exists pairs,
    map_result normalised [([str "5"], str "number")] = Ok pairs /\
    Forall (fun strings => exists s, carried ones strings = Ok s) (map fst pairs).
Proof.
  apply (proj1 (call_returns_iff normalised carried ones
                  [([str "5"], str "number")] (str "count_head") init)).
  exists (credit ones (str "number") (str "count_head") init),
    (ones, ([str "5"], str "number")).
  reflexivity.
Defined.
End CallWitnesses.

Section ViewWitnesses.
Import Fixture Scenario.
Local Existing Instance b64.

(** The scenario of the specification, the span example first: the types
    and the heads come out in the order they were first credited. *)
Example scenario_type_order :
  keys (per_type_view (after [span_example; number_example; span_example])) =
  [str "span"; str "number"].
Proof. reflexivity. Qed.

Example scenario_head_order :
  keys (per_head_view (after [span_example; number_example; span_example])) =
  [str "span_head"; str "count_head"].
Proof. reflexivity. Qed.

Lemma get_metric_keeps_state_witness :
  fst (get_metric false (after [number_example])) = after [number_example] /\
  fst (get_metric true (after [number_example])) = init.
Proof.
  destruct (get_metric_keeps_state normalised carried [number_example])
    as [Hkept [_ [_ Hfresh]]].
  split; [exact Hkept|].
  apply (Hfresh (views (after [number_example]))).
  destruct (history_consistent normalised carried [number_example]) as [Hc _].
  fold (after [number_example]) in Hc |- *.
  rewrite (get_metric_returns (after [number_example]) true Hc); [reflexivity|].
  intros k Hk. apply converts_up_to_two.
  assert (Hn : _count (after [number_example]) = 1) by reflexivity.
  rewrite Hn in Hk. lia.
Defined.

Lemma reset_forgets_witness :
  history normalised carried ([number_example] ++ DoReset :: [span_example]) =
  history normalised carried [span_example].
Proof.
  exact (proj1 (reset_forgets normalised carried [number_example] [span_example])).
Defined.

Lemma views_list_observed_keys_witness :
  exists overall_view,
    get_metric false (after [number_example; span_example]) =
    (after [number_example; span_example],
     Ok (overall_view, per_type_per_head_view (after [number_example; span_example]),
         per_type_view (after [number_example; span_example]),
         per_head_view (after [number_example; span_example]))).
Proof.
  apply (views_list_observed_keys normalised carried
           [number_example; span_example] false).
  exact converts_up_to_two.
Defined.

Lemma supports_add_up_witness :
  exists overall_view per_type_per_head per_type per_head,
    get_metric false (after [number_example; span_example]) =
    (after [number_example; span_example],
     Ok (overall_view, per_type_per_head, per_type, per_head)) /\
    supports2 per_type_per_head = _count (after [number_example; span_example]) /\
    supports per_type = _count (after [number_example; span_example]) /\
    supports per_head = _count (after [number_example; span_example]).
Proof.
  apply (supports_add_up normalised carried [number_example; span_example] false).
  exact converts_up_to_two.
Defined.
End ViewWitnesses.

Section TotalsWitnesses.
Import Fixture.
Local Existing Instance b64.

(** On binary64 the order of the additions shows: 0.1, 0.2 and 0.3 on three
    heads add up to 0.6000000000000001 at the top level, call by call, and
    the three cells add up to 0.6. *)
Example run_total_f1 :
  _total_f1 (fst (history normalised carried RoundingRun.run)) =
  S754_finite false 5404319552844596 (-53).
Proof. vm_compute. reflexivity. Qed.

Example run_cells_f1 :
  float_cells_sum
    (_answer_type_head_f1 (fst (history normalised carried RoundingRun.run))) =
  S754_finite false 5404319552844595 (-53).
Proof. vm_compute. reflexivity. Qed.

Lemma totals_are_ordered_sums_witness :
  _total_f1 (fst (history normalised carried RoundingRun.run)) =
  fold_left fadd
    [Rounding.tenths 1; Rounding.tenths 2; Rounding.tenths 3] fzero.
Proof.
  exact (proj1 (proj2 (totals_are_ordered_sums normalised carried RoundingRun.run))).
Defined.
End TotalsWitnesses.
